(** * TenderEdge post-award intelligence agent: a shallow embedding

    The development follows [post_award_agent.py]: the company-name
    normalizer, the award-record store, the competitor and PE profile
    rebuilds and the Tender Prediction Score.

    Modelling conventions.
    - A Python [str] is a list of Unicode code points ([pystr]).
    - A Python [float] is a rational ([Q]): sums, products and quotients
      are exact, and [round] rounds the exact value, a tie going to the
      even neighbour.  A binary64 result can differ from the exact one
      by its rounding error only, which matters where a value sits on
      a rounding tie or on a threshold; the sample data stay away from
      both.
    - A Python [int] is a [Z], a count a [nat].
    - A SQLite table is the list of its rows in rowid order; a Python
      [dict] is an association list in insertion order.
    - [None] and SQL NULL are the [None] of an [option]; a field the
      dataclass types as [str] is never NULL.
    - A function that can raise returns an [option], [None] standing
      for the exception. *)

From Stdlib Require Import List Bool NArith ZArith QArith Qround Qabs Qminmax.
From Stdlib Require Import Lia Lqa String Ascii DecimalString.
From Stdlib Require Import Sorted Permutation.
Import ListNotations.

(** ** Python strings *)

Module PyStr.

Definition pystr := list N.

(** A string literal, code point by code point. *)
Definition str (s : string) : pystr :=
  List.map N_of_ascii (list_ascii_of_string s).

Definition eqb (a b : pystr) : bool :=
  if list_eq_dec N.eq_dec a b then true else false.

(** Character classes and case mappings.  On ASCII they are those of
    CPython.  Outside ASCII they come from the Unicode character
    database, which is not part of the repository: the whitespace list
    is complete, and of the letters only U+0131 (LATIN SMALL LETTER
    DOTLESS I: a cased word character, its own lowercase, with title
    and upper case U+0049) is recorded.  Statements that quantify over
    all strings are therefore restricted to ASCII strings. *)

Definition dotless_i : N := 305.

Definition is_ascii (c : N) : bool := (c <? 128)%N.
Definition is_upper (c : N) : bool := ((65 <=? c) && (c <=? 90))%N.
Definition is_lower (c : N) : bool := ((97 <=? c) && (c <=? 122))%N.
Definition is_digit (c : N) : bool := ((48 <=? c) && (c <=? 57))%N.

(** [\w] of a [str] pattern. *)
Definition is_word (c : N) : bool :=
  is_upper c || is_lower c || is_digit c || (c =? 95)%N || (c =? dotless_i)%N.

(** [\s] of a [str] pattern, and [str.isspace]. *)
Definition is_space (c : N) : bool :=
  ((9 <=? c) && (c <=? 13) || (28 <=? c) && (c <=? 32)
   || (c =? 133) || (c =? 160) || (c =? 5760)
   || (8192 <=? c) && (c <=? 8202)
   || (c =? 8232) || (c =? 8233) || (c =? 8239) || (c =? 8287)
   || (c =? 12288))%N.

Definition is_cased (c : N) : bool :=
  is_upper c || is_lower c || (c =? dotless_i)%N.

Definition to_lower (c : N) : N := if is_upper c then (c + 32)%N else c.

Definition to_title (c : N) : N :=
  if is_lower c then (c - 32)%N
  else if (c =? dotless_i)%N then 73%N else c.

(** [s.lower()] *)
Definition lower (s : pystr) : pystr := List.map to_lower s.

(** [s.title()]: the title-case mapping after an uncased character, the
    lower-case mapping after a cased one. *)
Fixpoint title_from (previous_is_cased : bool) (s : pystr) : pystr :=
  match s with
  | [] => []
  | c :: r =>
      (if previous_is_cased then to_lower c else to_title c)
        :: title_from (is_cased c) r
  end.

Definition title (s : pystr) : pystr := title_from false s.

(** [s.strip()] *)
Fixpoint lstrip (s : pystr) : pystr :=
  match s with
  | [] => []
  | c :: r => if is_space c then lstrip r else s
  end.

Fixpoint rstrip (s : pystr) : pystr :=
  match s with
  | [] => []
  | c :: r =>
      match rstrip r with
      | [] => if is_space c then [] else [c]
      | r' => c :: r'
      end
  end.

Definition strip (s : pystr) : pystr := rstrip (lstrip s).

(** [p] is a prefix of [s]: what is left of [s] after it. *)
Fixpoint strip_prefix (p s : pystr) : option pystr :=
  match p, s with
  | [], _ => Some s
  | a :: p', b :: s' => if (a =? b)%N then strip_prefix p' s' else None
  | _ :: _, [] => None
  end.

(** Lexicographic [a > b] on code points. *)
Fixpoint gtb (a b : pystr) : bool :=
  match a, b with
  | [], _ => false
  | _ :: _, [] => true
  | x :: a', y :: b' =>
      if (y <? x)%N then true else if (x <? y)%N then false else gtb a' b'
  end.

(** [needle in hay] for strings. *)
Fixpoint is_substring (needle hay : pystr) : bool :=
  match strip_prefix needle hay with
  | Some _ => true
  | None => match hay with
            | [] => false
            | _ :: hay' => is_substring needle hay'
            end
  end.

(** [x in l] for a list of strings. *)
Definition mem (x : pystr) (l : list pystr) : bool := existsb (eqb x) l.

End PyStr.

Import PyStr.

(** ** The name normalizer *)

Module Normalizer.

(** The alternatives of the first pattern, in the order the regex
    engine tries them. *)
Definition SUFFIXES : list pystr :=
  List.map str
    ["ltd"; "limited"; "co"; "company"; "corporation"; "corp"; "inc";
     "llc"; "plc"; "pvt"; "private"; "tanzania"; "tz"; "t.z."]%string.

Definition wordb (c : option N) : bool :=
  match c with Some x => is_word x | None => false end.

(** [\b] between the character before and the character after (either
    may be an end of the string). *)
Definition boundary (before after : option N) : bool :=
  xorb (wordb before) (wordb after).

Definition alt_matches (s : pystr) (alt : pystr) : bool :=
  match strip_prefix alt s with
  | Some rest => boundary (Some (List.last alt 0%N)) (List.hd_error rest)
  | None => false
  end.

(** The length of the match of [\b(ltd|...|t\.z\.)\b] that starts at
    the head of [s], when there is one. *)
Definition match_at (prev : option N) (s : pystr) : option nat :=
  if boundary prev (List.hd_error s)
  then option_map (@List.length N) (List.find (alt_matches s) SUFFIXES)
  else None.

(** [re.sub(r'\b(...)\b', '', s)]: a left-to-right scan; [skip] counts
    the characters of the current match that are still to be dropped,
    [prev] is the character before the head of [s]. *)
Fixpoint sub_suffixes (prev : option N) (skip : nat) (s : pystr) : pystr :=
  match s with
  | [] => []
  | c :: r =>
      match skip with
      | S k => sub_suffixes (Some c) k r
      | O =>
          match match_at prev s with
          | Some (S k) => sub_suffixes (Some c) k r
          | _ => c :: sub_suffixes (Some c) O r
          end
      end
  end.

(** [re.sub(r'[^\w\s]', ' ', s)] *)
Definition sub_punct (s : pystr) : pystr :=
  List.map (fun c => if is_word c || is_space c then c else 32%N) s.

(** [re.sub(r'\s+', ' ', s)]; [in_ws] tells that the previous character
    belonged to the run being replaced. *)
Fixpoint sub_spaces (in_ws : bool) (s : pystr) : pystr :=
  match s with
  | [] => []
  | c :: r =>
      if is_space c
      then (if in_ws then sub_spaces true r else 32%N :: sub_spaces true r)
      else c :: sub_spaces false r
  end.

Definition Unknown : pystr := str "Unknown".

Definition normalize_company_name (name : option pystr) : pystr :=
  match name with
  | None | Some [] => Unknown
  | Some name =>
      let name := sub_suffixes None 0 (lower name) in
      let name := sub_punct name in
      let name := title (strip (sub_spaces false name)) in
      match name with [] => Unknown | _ => name end
  end.

End Normalizer.

Import Normalizer.

(** ** Python numbers and containers *)

Module Py.

(** [x < y] on floats. *)
Definition ltb (x y : Q) : bool := negb (Qle_bool y x).

(** [min(a, b)] and [max(a, b)]: the first argument unless the second
    is strictly smaller (larger). *)
Definition min2 (a b : Q) : Q := if ltb b a then b else a.
Definition max2 (a b : Q) : Q := if ltb a b then b else a.

(** [min(l)] and [max(l)] of a non-empty list; SQL [MIN] and [MAX]. *)
Definition min_list (x : Q) (l : list Q) : Q := List.fold_left min2 l x.
Definition max_list (x : Q) (l : list Q) : Q := List.fold_left max2 l x.

(** [sum(l)] *)
Definition sum (l : list Q) : Q := List.fold_left Qplus l 0.

Definition len {A} (l : list A) : Q := inject_Z (Z.of_nat (List.length l)).

(** [round(x)]: the nearest integer, a tie going to the even one. *)
Definition round (x : Q) : Z :=
  let f := Qfloor x in
  match Qcompare (x - inject_Z f) (1 # 2) with
  | Lt => f
  | Gt => (f + 1)%Z
  | Eq => if Z.even f then f else (f + 1)%Z
  end.

(** [round(x, n)]: the exact value rounded.  The binary64 result is a
    number of [n] decimals next to the exact value too, and can be the
    other neighbour where the exact value sits on a tie; what is
    stated of a rounded value is therefore stated as bounds. *)
Definition round_nd (x : Q) (n : nat) : Q :=
  let scale := inject_Z (10 ^ Z.of_nat n) in
  inject_Z (round (x * scale)) / scale.

(** [x / y]; [None] stands for [ZeroDivisionError]. *)
Definition div (x y : Q) : option Q :=
  if Qeq_bool y 0 then None else Some (x / y).

(** Truth value of an optional number: [None] and zero are false. *)
Definition truthy (x : option Q) : bool :=
  match x with
  | Some q => negb (Qeq_bool q 0)
  | None => false
  end.

(** The decimal text of a non-negative integer. *)
Definition repr_nat (n : nat) : pystr :=
  str (NilZero.string_of_uint (Nat.to_uint n)).

(** [int(s)]: optional surrounding whitespace, an optional sign, then
    decimal digits in which single underscores may separate digits.
    [None] stands for [ValueError].  The whitespace skipped is that of
    C below U+007F (U+0009..U+000D and U+0020, not U+001C..U+001F) and
    that of [str.isspace] above.  (Decimal digits outside ASCII are
    not in the tables of [PyStr]: on a text that holds one the model
    raises where [int] may return.) *)
Definition is_int_space (c : N) : bool :=
  is_space c && negb ((28 <=? c) && (c <=? 31))%N.

Fixpoint lstrip_int (s : pystr) : pystr :=
  match s with
  | [] => []
  | c :: r => if is_int_space c then lstrip_int r else s
  end.

Fixpoint rstrip_int (s : pystr) : pystr :=
  match s with
  | [] => []
  | c :: r =>
      match rstrip_int r with
      | [] => if is_int_space c then [] else [c]
      | r' => c :: r'
      end
  end.

Fixpoint digits_value (acc : Z) (need_digit : bool) (s : pystr) : option Z :=
  match s with
  | [] => if need_digit then None else Some acc
  | c :: r =>
      if is_digit c
      then digits_value (10 * acc + (Z.of_N c - 48))%Z false r
      else if (c =? 95)%N && negb need_digit
           then digits_value acc true r
           else None
  end.

Definition int (s : pystr) : option Z :=
  match rstrip_int (lstrip_int s) with
  | 43%N :: r => digits_value 0 true r
  | 45%N :: r => option_map Z.opp (digits_value 0 true r)
  | t => digits_value 0 true t
  end.

(** [s[i:j]] for [0 <= i <= j]. *)
Definition slice (i j : nat) (s : pystr) : pystr :=
  List.firstn (j - i) (List.skipn i s).

(** A [dict] in insertion order.  [dict_set] overwrites in place or
    appends. *)
Section Dict.
Context {K V : Type} (keq : K -> K -> bool).

Fixpoint dict_get (k : K) (d : list (K * V)) : option V :=
  match d with
  | [] => None
  | (k', v) :: r => if keq k k' then Some v else dict_get k r
  end.

Fixpoint dict_set (k : K) (v : V) (d : list (K * V)) : list (K * V) :=
  match d with
  | [] => [(k, v)]
  | (k', v') :: r =>
      if keq k k' then (k, v) :: r else (k', v') :: dict_set k v r
  end.

Definition dict_get_default (k : K) (default : V) (d : list (K * V)) : V :=
  match dict_get k d with
  | Some v => v
  | None => default
  end.

End Dict.

(** [d[k] = d.get(k, 0) + 1] *)
Definition count_up {K} (keq : K -> K -> bool) (k : K) (d : list (K * Z))
  : list (K * Z) :=
  dict_set keq k (dict_get_default keq k 0%Z d + 1)%Z d.

(** A table with a [UNIQUE] text column [key].
    [upsert] is [INSERT ... ON CONFLICT(key) DO UPDATE SET ...], with
    [update old new] the row after the update; [select] is
    [SELECT * ... WHERE key = ?] followed by [fetchone]. *)
Section Table.
Context {R : Type} (key : R -> pystr) (update : R -> R -> R).

Fixpoint upsert (new : R) (table : list R) : list R :=
  match table with
  | [] => [new]
  | old :: rest =>
      if eqb (key new) (key old)
      then update old new :: rest
      else old :: upsert new rest
  end.

Definition select (name : pystr) (table : list R) : option R :=
  List.find (fun r => eqb name (key r)) table.

(** [for name, p in entries.items(): conn.execute(INSERT ...)] *)
Definition write_all {A} (row_of : pystr -> A -> R)
    (entries : list (pystr * A)) (table : list R) : list R :=
  List.fold_left (fun t kv => upsert (row_of (fst kv) (snd kv)) t)
    entries table.

End Table.

(** [sorted(l, key=key)]: stable, ascending. *)
Section Sorted.
Context {A : Type} (key : A -> Z).

Fixpoint insert_sorted (x : A) (l : list A) : list A :=
  match l with
  | [] => [x]
  | y :: r => if (key x <=? key y)%Z then x :: l else y :: insert_sorted x r
  end.

Definition sorted (l : list A) : list A := List.fold_right insert_sorted [] l.

End Sorted.

End Py.

(** ** Data model *)

Module Model.

(** [AwardRecord], and a row of [award_records].  The columns [id]
    and [created_at] of the table are not represented. *)
Record AwardRecord := {
  ocid : pystr;
  tender_number : pystr;
  tender_description : pystr;
  pe_name : pystr;
  pe_code : pystr;
  winning_company : pystr;
  contract_price : option Q;
  contract_currency : pystr;
  delivery_period : pystr;
  sector : pystr;
  award_date : pystr;
  source_platform : pystr;
  tender_estimate : option Q;
  price_ratio : option Q;
  confidence_score : Q;
  raw_json : pystr
}.

(** The per-company accumulator of [rebuild_competitor_profiles]. *)
Record CompetitorAgg := {
  ca_company_name : pystr;
  ca_total_wins : Z;
  ca_primary_sectors : list (pystr * Z);
  ca_pe_relationships : list (pystr * Z);
  ca_prices : list Q;
  ca_ratios : list Q;
  ca_last_win_date : pystr
}.

(** A row of [competitor_profiles].  A JSON column holds the value it
    encodes.  [aliases] and [geographic_focus] are the columns the
    upsert leaves alone; [id] and [last_updated] are not represented. *)
Record CompetitorRow := {
  cr_company_name : pystr;
  cr_aliases : option pystr;
  cr_total_wins : Z;
  cr_primary_sectors : list (pystr * Z);
  cr_pe_relationships : list (pystr * Z);
  cr_price_range_min : option Q;
  cr_price_range_max : option Q;
  cr_avg_price_ratio : option Q;
  cr_geographic_focus : option pystr;
  cr_threat_score : Q;
  cr_last_win_date : pystr
}.

(** The per-buyer accumulator of [rebuild_pe_profiles]. *)
Record PEAgg := {
  pa_pe_code : pystr;
  pa_awards : Z;
  pa_sectors : list (pystr * Z);
  pa_prices : list Q;
  pa_ratios : list Q;
  pa_winners : list (pystr * Z);
  pa_months : list Z
}.

(** A row of [pe_profiles]; [disqualification_patterns] and
    [strategic_notes] are the columns the upsert leaves alone. *)
Record PERow := {
  pr_pe_name : pystr;
  pr_pe_code : pystr;
  pr_total_awards : Z;
  pr_avg_contract_value : option Z;
  pr_preferred_sectors : list (pystr * Z);
  pr_avg_price_ratio : Q;
  pr_price_sensitivity : pystr;
  pr_top_winners : list pystr;
  pr_disqualification_patterns : option pystr;
  pr_budget_cycle_months : list Z;
  pr_confidence_score : Q;
  pr_strategic_notes : option pystr
}.

(** The database: three of its tables. *)
Record Db := {
  award_records : list AwardRecord;
  competitor_profiles : list CompetitorRow;
  pe_profiles : list PERow
}.

(** The [tender] and [company_profile] dictionaries of
    [calculate_tps]; [None] is an absent key. *)
Record Tender := {
  t_sector : option pystr;
  t_procuring_entity : option pystr;
  t_title : option pystr
}.

Record CompanyProfile := {
  cp_sectors : option (list pystr);
  cp_name : option pystr;
  cp_typical_price_ratio : option Q;
  cp_compliance_score : option Q
}.

(** The keys of [TPS_WEIGHTS] and of [scores]. *)
Inductive Factor :=
| capability_match
| historical_win_rate
| pe_favorability
| price_competitiveness
| competitor_density
| compliance_readiness
| seasonal_timing.

(** An entry of ["factor_scores"]; the ["weight"] text is not
    represented. *)
Record FactorLine := {
  fl_score : Z;
  fl_contribution : Z
}.

(** What [calculate_tps] returns: below the gate, [tps] is [None] and
    there is a message; otherwise the score with its label.  The
    ["top_insight"] text is not represented. *)
Inductive TpsResult :=
| TpsGated (message : pystr) (data_points : nat)
| TpsScored (tps : Z) (label action : pystr) (data_points : nat)
      (factor_scores : list (Factor * FactorLine)).

Definition tps_of (r : TpsResult) : option Z :=
  match r with
  | TpsGated _ _ => None
  | TpsScored tps _ _ _ _ => Some tps
  end.

End Model.

Import Model.

(** ** The award-record store *)

Module Store.

Definition same_ocid (rec r : AwardRecord) : bool := eqb (ocid r) (ocid rec).

(** [save_award_record]: [INSERT OR IGNORE] under [ocid TEXT UNIQUE]. *)
Definition save_award_record (rec : AwardRecord) (db : Db) : Db :=
  if List.existsb (same_ocid rec) (award_records db)
  then db
  else {| award_records := award_records db ++ [rec];
          competitor_profiles := competitor_profiles db;
          pe_profiles := pe_profiles db |}.

End Store.

Import Store.

(** ** Subsystem 3a: competitor profiles *)

Module Competitors.

Definition append_known (l : list Q) (x : option Q) : list Q :=
  match x with
  | Some q => if Py.truthy x then l ++ [q] else l
  | None => l
  end.

(** [WHERE winning_company IS NOT NULL AND winning_company != 'Unknown'];
    the field is a [str], never NULL. *)
Definition selected (a : AwardRecord) : bool :=
  negb (eqb (winning_company a) Unknown).

Definition new_profile (name : pystr) : CompetitorAgg :=
  {| ca_company_name := name;
     ca_total_wins := 0;
     ca_primary_sectors := [];
     ca_pe_relationships := [];
     ca_prices := [];
     ca_ratios := [];
     ca_last_win_date := [] |}.

(** One turn of the loop over [awards]. *)
Definition add_award (profiles : list (pystr * CompetitorAgg)) (a : AwardRecord)
  : list (pystr * CompetitorAgg) :=
  let name := normalize_company_name (Some (winning_company a)) in
  let p := Py.dict_get_default eqb name (new_profile name) profiles in
  Py.dict_set eqb name
    {| ca_company_name := ca_company_name p;
       ca_total_wins := ca_total_wins p + 1;
       ca_primary_sectors := Py.count_up eqb (sector a) (ca_primary_sectors p);
       ca_pe_relationships := Py.count_up eqb (pe_name a) (ca_pe_relationships p);
       ca_prices := append_known (ca_prices p) (contract_price a);
       ca_ratios := append_known (ca_ratios p) (price_ratio a);
       ca_last_win_date :=
         if gtb (award_date a) (ca_last_win_date p)
         then award_date a else ca_last_win_date p |}
    profiles.

Definition aggregate (awards : list AwardRecord) : list (pystr * CompetitorAgg) :=
  List.fold_left add_award awards [].

(** [max((p["total_wins"] for p in profiles.values()), default=1)] *)
Definition total_wins_max (profiles : list (pystr * CompetitorAgg)) : Z :=
  match List.map (fun kv => ca_total_wins (snd kv)) profiles with
  | [] => 1
  | w :: ws => List.fold_left Z.max ws w
  end.

Definition threat (wins_max : Z) (p : CompetitorAgg) : Q :=
  Py.min2 1 (inject_Z (ca_total_wins p) / inject_Z wins_max).

(** The values bound to the [INSERT]. *)
Definition values (wins_max : Z) (name : pystr) (p : CompetitorAgg) : CompetitorRow :=
  {| cr_company_name := name;
     cr_aliases := None;
     cr_total_wins := ca_total_wins p;
     cr_primary_sectors := ca_primary_sectors p;
     cr_pe_relationships := ca_pe_relationships p;
     cr_price_range_min :=
       match ca_prices p with [] => None | x :: l => Some (Py.min_list x l) end;
     cr_price_range_max :=
       match ca_prices p with [] => None | x :: l => Some (Py.max_list x l) end;
     cr_avg_price_ratio :=
       match ca_ratios p with
       | [] => None
       | _ => Some (Py.round_nd (Py.sum (ca_ratios p) / Py.len (ca_ratios p)) 4)
       end;
     cr_geographic_focus := None;
     cr_threat_score := Py.round_nd (threat wins_max p) 3;
     cr_last_win_date := ca_last_win_date p |}.

(** [ON CONFLICT(company_name) DO UPDATE SET ...]: the columns taken
    from the new values. *)
Definition update (old new : CompetitorRow) : CompetitorRow :=
  {| cr_company_name := cr_company_name old;
     cr_aliases := cr_aliases old;
     cr_total_wins := cr_total_wins new;
     cr_primary_sectors := cr_primary_sectors new;
     cr_pe_relationships := cr_pe_relationships new;
     cr_price_range_min := cr_price_range_min new;
     cr_price_range_max := cr_price_range_max new;
     cr_avg_price_ratio := cr_avg_price_ratio new;
     cr_geographic_focus := cr_geographic_focus old;
     cr_threat_score := cr_threat_score new;
     cr_last_win_date := cr_last_win_date new |}.

Definition upsert : CompetitorRow -> list CompetitorRow -> list CompetitorRow :=
  Py.upsert cr_company_name update.

Definition write_profiles (profiles : list (pystr * CompetitorAgg))
    (table : list CompetitorRow) : list CompetitorRow :=
  Py.write_all cr_company_name update (values (total_wins_max profiles))
    profiles table.

(** [rebuild_competitor_profiles]: the database afterwards and the
    returned [profiles]. *)
Definition rebuild_competitor_profiles (db : Db)
  : Db * list (pystr * CompetitorAgg) :=
  let awards := List.filter selected (award_records db) in
  let profiles := aggregate awards in
  ({| award_records := award_records db;
      competitor_profiles := write_profiles profiles (competitor_profiles db);
      pe_profiles := pe_profiles db |},
   profiles).

(** [SELECT * FROM competitor_profiles WHERE company_name = ?] *)
Definition get_row : pystr -> list CompetitorRow -> option CompetitorRow :=
  Py.select cr_company_name.

End Competitors.

(** ** Subsystem 3b: PE profiles *)

Module PE.

Definition HIGH : pystr := str "HIGH".
Definition MEDIUM : pystr := str "MEDIUM".
Definition LOW : pystr := str "LOW".

Definition new_profile (a : AwardRecord) : PEAgg :=
  {| pa_pe_code := pe_code a;
     pa_awards := 0;
     pa_sectors := [];
     pa_prices := [];
     pa_ratios := [];
     pa_winners := [];
     pa_months := [] |}.

(** The months an award adds to [d["months"]]; [None] when [int]
    raises. *)
Definition award_months (date : pystr) : option (list Z) :=
  if (7 <=? List.length date)%nat
  then option_map (fun m => [m]) (Py.int (Py.slice 5 7 date))
  else Some [].

(** One turn of the loop over [awards]. *)
Definition add_award (pe_data : list (pystr * PEAgg)) (a : AwardRecord)
  : option (list (pystr * PEAgg)) :=
  let pe := pe_name a in
  let d := Py.dict_get_default eqb pe (new_profile a) pe_data in
  match award_months (award_date a) with
  | None => None
  | Some months =>
      Some (Py.dict_set eqb pe
              {| pa_pe_code := pa_pe_code d;
                 pa_awards := pa_awards d + 1;
                 pa_sectors := Py.count_up eqb (sector a) (pa_sectors d);
                 pa_prices := Competitors.append_known (pa_prices d) (contract_price a);
                 pa_ratios := Competitors.append_known (pa_ratios d) (price_ratio a);
                 pa_winners := Py.count_up eqb (winning_company a) (pa_winners d);
                 pa_months := pa_months d ++ months |}
              pe_data)
  end.

Definition aggregate (awards : list AwardRecord) : option (list (pystr * PEAgg)) :=
  List.fold_left
    (fun acc a => match acc with Some d => add_award d a | None => None end)
    awards (Some []).

Definition avg_ratio (d : PEAgg) : Q :=
  match pa_ratios d with
  | [] => 0.93
  | _ => Py.round_nd (Py.sum (pa_ratios d) / Py.len (pa_ratios d)) 4
  end.

Definition sensitivity (avg_r : Q) : pystr :=
  if Py.ltb avg_r 0.88 then HIGH
  else if Py.ltb 0.96 avg_r then LOW
  else MEDIUM.

Definition top_winners (d : PEAgg) : list pystr :=
  List.map fst
    (List.firstn 5 (Py.sorted (fun x : pystr * Z => - snd x)%Z (pa_winners d))).

Definition peak_months (d : PEAgg) : list Z :=
  let month_counts :=
    List.fold_left (fun mc m => Py.count_up Z.eqb m mc) (pa_months d) [] in
  List.firstn 3
    (Py.sorted (fun m => - Py.dict_get_default Z.eqb m 0 month_counts)%Z
       (List.map fst month_counts)).

Definition confidence (d : PEAgg) : Q :=
  Py.min2 1 (inject_Z (pa_awards d) / 20).

(** The values bound to the [INSERT].  ([round] of a mean that has
    become infinite in binary64 raises [OverflowError]; sums stay
    finite here, so a run on such prices completes in the model
    only.) *)
Definition values (name : pystr) (d : PEAgg) : PERow :=
  {| pr_pe_name := name;
     pr_pe_code := pa_pe_code d;
     pr_total_awards := pa_awards d;
     pr_avg_contract_value :=
       match pa_prices d with
       | [] => None
       | _ => Some (Py.round (Py.sum (pa_prices d) / Py.len (pa_prices d)))
       end;
     pr_preferred_sectors := pa_sectors d;
     pr_avg_price_ratio := avg_ratio d;
     pr_price_sensitivity := sensitivity (avg_ratio d);
     pr_top_winners := top_winners d;
     pr_disqualification_patterns := None;
     pr_budget_cycle_months := peak_months d;
     pr_confidence_score := Py.round_nd (confidence d) 3;
     pr_strategic_notes := None |}.

(** [ON CONFLICT(pe_name) DO UPDATE SET ...]: the columns taken from
    the new values; [pe_code] is not among them. *)
Definition update (old new : PERow) : PERow :=
  {| pr_pe_name := pr_pe_name old;
     pr_pe_code := pr_pe_code old;
     pr_total_awards := pr_total_awards new;
     pr_avg_contract_value := pr_avg_contract_value new;
     pr_preferred_sectors := pr_preferred_sectors new;
     pr_avg_price_ratio := pr_avg_price_ratio new;
     pr_price_sensitivity := pr_price_sensitivity new;
     pr_top_winners := pr_top_winners new;
     pr_disqualification_patterns := pr_disqualification_patterns old;
     pr_budget_cycle_months := pr_budget_cycle_months new;
     pr_confidence_score := pr_confidence_score new;
     pr_strategic_notes := pr_strategic_notes old |}.

Definition upsert : PERow -> list PERow -> list PERow :=
  Py.upsert pr_pe_name update.

Definition write_profiles (pe_data : list (pystr * PEAgg)) (table : list PERow)
  : list PERow :=
  Py.write_all pr_pe_name update values pe_data table.

(** [rebuild_pe_profiles]: the database afterwards and the returned
    [pe_data]; [None] when an award date makes [int] raise. *)
Definition rebuild_pe_profiles (db : Db) : option (Db * list (pystr * PEAgg)) :=
  match aggregate (award_records db) with
  | None => None
  | Some pe_data =>
      Some ({| award_records := award_records db;
               competitor_profiles := competitor_profiles db;
               pe_profiles := write_profiles pe_data (pe_profiles db) |},
            pe_data)
  end.

(** [SELECT * FROM pe_profiles WHERE pe_name = ?] *)
Definition get_row : pystr -> list PERow -> option PERow :=
  Py.select pr_pe_name.

End PE.

(** ** Subsystem 4: the Tender Prediction Score *)

Module TPS.

Definition MIN_DATA_FOR_TPS : nat := 50.

Definition TPS_WEIGHTS : list (Factor * Q) :=
  [ (capability_match, 0.25);
    (historical_win_rate, 0.20);
    (pe_favorability, 0.15);
    (price_competitiveness, 0.15);
    (competitor_density, 0.10);
    (compliance_readiness, 0.10);
    (seasonal_timing, 0.05) ].

Definition factor_eqb (a b : Factor) : bool :=
  match a, b with
  | capability_match, capability_match
  | historical_win_rate, historical_win_rate
  | pe_favorability, pe_favorability
  | price_competitiveness, price_competitiveness
  | competitor_density, competitor_density
  | compliance_readiness, compliance_readiness
  | seasonal_timing, seasonal_timing => true
  | _, _ => false
  end.

(** [TPS_WEIGHTS[factor]] *)
Definition weight (f : Factor) : Q := Py.dict_get_default factor_eqb f 0 TPS_WEIGHTS.

(** The message of the data-sufficiency gate. *)
Definition gate_message (total_awards : nat) : pystr :=
  str "TPS requires " ++ Py.repr_nat MIN_DATA_FOR_TPS
  ++ str " award records. Currently: " ++ Py.repr_nat total_awards
  ++ str ". Keep collecting data.".

(** [... FROM award_records WHERE sector = ?] *)
Definition in_sector (sec : pystr) (db : Db) : list AwardRecord :=
  List.filter (fun a => eqb (sector a) sec) (award_records db).

(** The non-NULL [price_ratio] values of a sector. *)
Definition sector_ratios (sec : pystr) (db : Db) : list Q :=
  List.flat_map
    (fun a => match price_ratio a with Some q => [q] | None => [] end)
    (in_sector sec db).

(** 1. Capability match *)
Definition capability (sec : pystr) (company : CompanyProfile) : Q :=
  let company_sectors :=
    match cp_sectors company with Some l => l | None => [] end in
  if mem sec company_sectors then 0.85
  else if List.existsb (fun s => is_substring s sec) company_sectors then 0.60
  else 0.30.

(** 2. Historical win rate *)
Definition historical (sec : pystr) (db : Db) : Q :=
  let total := Z.of_nat (List.length (in_sector sec db)) in
  if (5 <? total)%Z then Py.min2 0.85 (0.40 + inject_Z total / 100)
  else 0.45.

(** 3. PE favorability *)
Definition favorability (pe_row : option PERow) (company : CompanyProfile) : Q :=
  match pe_row with
  | Some row =>
      let company_name :=
        normalize_company_name
          (Some match cp_name company with Some n => n | None => [] end) in
      let base :=
        if mem company_name
             (List.map (fun w => normalize_company_name (Some w))
                (pr_top_winners row))
        then 0.90 else 0.45 in
      base * (0.5 + pr_confidence_score row * 0.5)
  | None => 0.50
  end.

(** 4. Price competitiveness; [None] when the division raises.  The
    test on the mean is made on the exact mean: it agrees with the
    test on the binary64 [AVG] where no sum of ratios cancels or
    underflows, as when every ratio is zero or at least 0.0001. *)
Definition price_score (sec : pystr) (db : Db) (company : CompanyProfile)
  : option Q :=
  let our_typical_ratio :=
    match cp_typical_price_ratio company with Some r => r | None => 0.92 end in
  match sector_ratios sec db with
  | [] => Some 0.60
  | r :: rs =>
      let avg := Py.sum (r :: rs) / Py.len (r :: rs) in
      if Py.truthy (Some avg)
      then
        let width := Py.max_list r rs - Py.min_list r rs in
        let span := if Py.truthy (Some width) then width else 0.1 in
        let diff := Qabs (our_typical_ratio - avg) in
        match Py.div diff span with
        | Some q => Some (Py.max2 0.2 (1.0 - q))
        | None => None
        end
      else Some 0.60
  end.

(** 5. Competitor density: [COUNT(DISTINCT winning_company)] *)
Definition competitor_count (sec : pystr) (db : Db) : Z :=
  Z.of_nat
    (List.length
       (List.nodup (list_eq_dec N.eq_dec)
          (List.map winning_company (in_sector sec db)))).

Definition density (sec : pystr) (db : Db) : Q :=
  let n := competitor_count sec db in
  if (n <=? 3)%Z then 0.85
  else if (n <=? 8)%Z then 0.65
  else if (n <=? 15)%Z then 0.45
  else 0.30.

(** 6. Compliance readiness *)
Definition compliance (company : CompanyProfile) : Q :=
  match cp_compliance_score company with Some s => s | None => 0.7 end.

(** 7. Seasonal timing; [current_month] is [datetime.now().month]. *)
Definition seasonal (pe_row : option PERow) (current_month : Z) : Q :=
  match pe_row with
  | Some row =>
      if List.existsb (Z.eqb current_month) (pr_budget_cycle_months row)
      then 0.85 else 0.50
  | None => 0.60
  end.

(** [sum(scores[factor] * weight for factor, weight in TPS_WEIGHTS.items())] *)
Definition tps_raw (scores : Factor -> Q) : Q :=
  List.fold_left (fun acc fw => acc + scores (fst fw) * snd fw) TPS_WEIGHTS 0.

Definition label_of (tps : Z) : pystr :=
  if (75 <=? tps)%Z then str "HIGH"
  else if (55 <=? tps)%Z then str "MEDIUM"
  else if (35 <=? tps)%Z then str "LOW"
  else str "VERY LOW".

(** U+2014 EM DASH, as in the action texts. *)
Definition em_dash : pystr := [8212%N].

Definition action_of (tps : Z) : pystr :=
  if (75 <=? tps)%Z
  then str "Strongly recommended " ++ em_dash ++ str " bid on this tender"
  else if (55 <=? tps)%Z
  then str "Worth bidding " ++ em_dash
       ++ str " strengthen pricing and compliance"
  else if (35 <=? tps)%Z
  then str "Proceed with caution " ++ em_dash
       ++ str " significant competition"
  else str "Not recommended " ++ em_dash
       ++ str " better opportunities available".

Definition factor_line (scores : Factor -> Q) (f : Factor) : Factor * FactorLine :=
  (f, {| fl_score := Py.round (scores f * 100);
         fl_contribution := Py.round (scores f * weight f * 100) |}).

(** The [scores] dictionary once the seven factors are set. *)
Definition scores_of (sec : pystr) (pe_row : option PERow) (price : Q)
    (company : CompanyProfile) (current_month : Z) (db : Db) (f : Factor) : Q :=
  match f with
  | capability_match => capability sec company
  | historical_win_rate => historical sec db
  | pe_favorability => favorability pe_row company
  | price_competitiveness => price
  | competitor_density => density sec db
  | compliance_readiness => compliance company
  | seasonal_timing => seasonal pe_row current_month
  end.

(** [calculate_tps]; [None] when a division raises. *)
Definition calculate_tps (tender : Tender) (company : CompanyProfile)
    (current_month : Z) (db : Db) : option TpsResult :=
  let total_awards := List.length (award_records db) in
  if (total_awards <? MIN_DATA_FOR_TPS)%nat
  then Some (TpsGated (gate_message total_awards) total_awards)
  else
    let sec := match t_sector tender with Some s => s | None => str "Other" end in
    let pe := match t_procuring_entity tender with Some p => p | None => [] end in
    let pe_row := PE.get_row pe (pe_profiles db) in
    match price_score sec db company with
    | None => None
    | Some price =>
        let scores := scores_of sec pe_row price company current_month db in
        let tps := Py.round (tps_raw scores * 100) in
        Some (TpsScored tps (label_of tps) (action_of tps) total_awards
                (List.map (fun fw => factor_line scores (fst fw)) TPS_WEIGHTS))
    end.

End TPS.

(** ** Notions used to reason about the normalizer *)

Module NormalizerSpec.

(** The alternatives made of word characters only. *)
Definition PURE : list pystr := List.removelast SUFFIXES.

Definition dot : N := 46.

(** The maximal run of word characters at the head of [s], and what
    follows it. *)
Fixpoint word_run (s : pystr) : pystr :=
  match s with
  | c :: r => if is_word c then c :: word_run r else []
  | [] => []
  end.

Fixpoint after_run (s : pystr) : pystr :=
  match s with
  | c :: r => if is_word c then after_run r else s
  | [] => []
  end.

(** Read from the start of a run or from a separator, no maximal run of
    word characters of [s] is one of the [PURE] alternatives. *)
Inductive quiet : pystr -> Prop :=
| quiet_nil : quiet []
| quiet_sep c r : is_word c = false -> quiet r -> quiet (c :: r)
| quiet_run c r :
    is_word c = true -> ~ In (word_run (c :: r)) PURE ->
    quiet (after_run r) -> quiet (c :: r).

(** The scan is not in the middle of a run of word characters. *)
Definition at_edge (prev : option N) (s : pystr) : Prop :=
  wordb prev && wordb (List.hd_error s) = false.

(** ASCII and not an upper-case letter. *)
Definition plain (c : N) : bool := is_ascii c && negb (is_upper c).

(** A word character or U+0020. *)
Definition word_or_blank (c : N) : bool := is_word c || (c =? 32)%N.

Definition spaceb (c : option N) : bool :=
  match c with Some x => is_space x | None => false end.

(** No two whitespace characters in a row. *)
Fixpoint single_spaced (s : pystr) : Prop :=
  match s with
  | [] => True
  | c :: r =>
      (is_space c = true -> spaceb (List.hd_error r) = false)
      /\ single_spaced r
  end.

(** The character before the rest of [s] once [k] characters are
    dropped. *)
Definition prev_after (prev : option N) (k : nat) (s : pystr) : option N :=
  match k with
  | O => prev
  | S j => List.nth_error s j
  end.

Definition is_ascii_str (s : pystr) : Prop :=
  Forall (fun c => is_ascii c = true) s.

(** A name the caller may pass: [None] or an ASCII string. *)
Definition ascii_name (name : option pystr) : Prop :=
  match name with
  | None => True
  | Some s => is_ascii_str s
  end.

(** The normalizer before title-casing. *)
Definition core (name : pystr) : pystr :=
  strip (sub_spaces false (sub_punct (sub_suffixes None 0 (lower name)))).

End NormalizerSpec.

Import NormalizerSpec.

(** ** Notions used in the statements, and sample data *)

Module Spec.

(** A record as it would read with a zero price or ratio stored as
    NULL. *)
Definition zero_as_null (x : option Q) : option Q :=
  match x with
  | Some q => if Qeq_bool q 0 then None else Some q
  | None => None
  end.

Definition award_zero_as_null (a : AwardRecord) : AwardRecord :=
  {| ocid := ocid a;
     tender_number := tender_number a;
     tender_description := tender_description a;
     pe_name := pe_name a;
     pe_code := pe_code a;
     winning_company := winning_company a;
     contract_price := zero_as_null (contract_price a);
     contract_currency := contract_currency a;
     delivery_period := delivery_period a;
     sector := sector a;
     award_date := award_date a;
     source_platform := source_platform a;
     tender_estimate := tender_estimate a;
     price_ratio := zero_as_null (price_ratio a);
     confidence_score := confidence_score a;
     raw_json := raw_json a |}.

Definition db_zero_as_null (db : Db) : Db :=
  {| award_records := List.map award_zero_as_null (award_records db);
     competitor_profiles := competitor_profiles db;
     pe_profiles := pe_profiles db |}.

(** The awards of one buyer, and the price ratios that are known:
    neither NULL nor zero. *)
Definition awards_of (buyer : pystr) (awards : list AwardRecord)
  : list AwardRecord :=
  List.filter (fun a => eqb (pe_name a) buyer) awards.

Definition known (x : option Q) : list Q :=
  match zero_as_null x with
  | Some q => [q]
  | None => []
  end.

Definition known_ratios (awards : list AwardRecord) : list Q :=
  List.flat_map (fun a => known (price_ratio a)) awards.

Definition known_prices (awards : list AwardRecord) : list Q :=
  List.flat_map (fun a => known (contract_price a)) awards.

(** The awards whose winner normalizes to [name]. *)
Definition group_of (name : pystr) (awards : list AwardRecord)
  : list AwardRecord :=
  List.filter
    (fun a => eqb (normalize_company_name (Some (winning_company a))) name)
    awards.

(** The awards counted for the competitor [name]: the stored winner is
    not the text "Unknown" and normalizes to [name]. *)
Definition wins_of (name : pystr) (awards : list AwardRecord)
  : list AwardRecord :=
  group_of name
    (List.filter (fun a => negb (eqb (winning_company a) Unknown)) awards).

Definition mean (l : list Q) : Q := Py.sum l / Py.len l.

(** An award date the month of which can be read: shorter than seven
    characters (then no month is read), or with two ASCII digits at
    positions 5 and 6, as in an ISO date. *)
Definition well_dated (a : AwardRecord) : Prop :=
  (List.length (award_date a) < 7)%nat
  \/ exists d1 d2,
       Py.slice 5 7 (award_date a) = [d1; d2]
       /\ is_digit d1 = true /\ is_digit d2 = true.

(** The sum of [total_wins] over the rebuilt profiles. *)
Definition wins_sum (profiles : list (pystr * CompetitorAgg)) : Z :=
  List.fold_right (fun kv acc => (ca_total_wins (snd kv) + acc)%Z) 0%Z profiles.

(** [lo] is the least and [hi] the greatest element of [l]. *)
Definition least (lo : Q) (l : list Q) : Prop :=
  In lo l /\ forall x, In x l -> lo <= x.
Definition greatest (hi : Q) (l : list Q) : Prop :=
  In hi l /\ forall x, In x l -> x <= hi.

(** The price-competitiveness score in the words of the design: the
    mean, least and greatest ratio of the sector, a zero span replaced
    by 0.1. *)
Definition spec_span (lo hi : Q) : Q :=
  if Qeq_bool (hi - lo) 0 then 0.1 else hi - lo.

Definition spec_price_score (mean lo hi typical : Q) : Q :=
  Qmax 0.2 (1 - Qabs (typical - mean) / spec_span lo hi).

(** The rows of a table whose threat score is 1.0. *)
Definition top_threats (table : list CompetitorRow) : list CompetitorRow :=
  List.filter (fun r => Qeq_bool (cr_threat_score r) 1) table.

End Spec.

Module Samples.

Definition award (id winner buyer sec date : string) (price ratio : option Q)
  : AwardRecord :=
  {| ocid := str id;
     tender_number := str id;
     tender_description := [];
     pe_name := str buyer;
     pe_code := [];
     winning_company := str winner;
     contract_price := price;
     contract_currency := str "TZS";
     delivery_period := [];
     sector := str sec;
     award_date := str date;
     source_platform := str "NeST Tanzania";
     tender_estimate := None;
     price_ratio := ratio;
     confidence_score := 1;
     raw_json := [] |}.

Definition db_of (awards : list AwardRecord) : Db :=
  {| award_records := awards; competitor_profiles := []; pe_profiles := [] |}.

(** Two competitors with one win each. *)
Definition db_tie : Db :=
  db_of [ award "TZ-1" "Alpha Systems Ltd" "Ministry of X" "ICT" "2024-01-10"
            (Some 100) (Some 0.9);
          award "TZ-2" "Beta Works" "Ministry of X" "ICT" "2024-02-10"
            (Some 200) (Some 0.95) ].

(** A winner made of suffix words only. *)
Definition db_suffix_only : Db :=
  db_of [ award "TZ-3" "Co. Ltd" "Ministry of X" "ICT" "2024-03-10"
            (Some 100) (Some 0.9) ].

(** The end-to-end scenario of the design: two ICT awards of one
    buyer with ratios 0.90 and 0.94. *)
Definition db_two_awards : Db :=
  db_of [ award "TZ-4" "Alpha Systems" "Ministry of X" "ICT" "2024-04-10"
            (Some 90) (Some 0.90);
          award "TZ-5" "Beta Works" "Ministry of X" "ICT" "2024-05-10"
            (Some 94) (Some 0.94) ].

(** Ratios whose mean is just below 0.88. *)
Definition sliver_ratios : list Q := [0.8799; 0.88; 0.88].

Definition db_sliver : Db :=
  db_of [ award "TZ-6" "Alpha Systems" "Ministry of X" "ICT" "2024-04-10"
            (Some 90) (Some 0.8799);
          award "TZ-7" "Beta Works" "Ministry of X" "ICT" "2024-05-10"
            (Some 94) (Some 0.88);
          award "TZ-8" "Gamma Group" "Ministry of X" "ICT" "2024-06-10"
            (Some 94) (Some 0.88) ].

(** [n] awards with distinct contract ids. *)
Definition numbered (ratio : option Q) (i : nat) : AwardRecord :=
  {| ocid := str "TZ-N-" ++ Py.repr_nat i;
     tender_number := Py.repr_nat i;
     tender_description := [];
     pe_name := str "Ministry of X";
     pe_code := [];
     winning_company := str "Alpha Systems";
     contract_price := Some 100;
     contract_currency := str "TZS";
     delivery_period := [];
     sector := str "ICT";
     award_date := str "2024-04-10";
     source_platform := str "NeST Tanzania";
     tender_estimate := None;
     price_ratio := ratio;
     confidence_score := 1;
     raw_json := [] |}.

Definition db_numbered (ratio : option Q) (n : nat) : Db :=
  db_of (List.map (numbered ratio) (List.seq 0 n)).

Definition tender_ict : Tender :=
  {| t_sector := Some (str "ICT");
     t_procuring_entity := Some (str "Ministry of X");
     t_title := Some (str "Supply of laptops") |}.

Definition company (compliance : option Q) : CompanyProfile :=
  {| cp_sectors := Some [str "ICT"];
     cp_name := Some (str "Alpha Systems Ltd");
     cp_typical_price_ratio := None;
     cp_compliance_score := compliance |}.

(** A second notice with the contract id of the first award of
    [db_tie]. *)
Definition duplicate : AwardRecord :=
  award "TZ-1" "Gamma Group" "Ministry of Y" "Energy" "2025-01-01"
    (Some 5) None.

(** U+0131, n, c *)
Definition dotless_inc : pystr := [305%N; 110%N; 99%N].

End Samples.

(** ** Invariants used in the proofs *)

Module Inv.
Import Spec.

(** Invariants of the loop of [rebuild_competitor_profiles]. *)
Definition well_formed (profiles : list (pystr * CompetitorAgg)) : Prop :=
  NoDup (List.map fst profiles)
  /\ forall name p, In (name, p) profiles -> (1 <= ca_total_wins p)%Z.

(** What the accumulator of [rebuild_competitor_profiles] holds once
    the awards [seen] are read. *)
Definition reads_wins (seen : list AwardRecord)
    (acc : list (pystr * CompetitorAgg)) : Prop :=
  forall name,
    match Py.dict_get eqb name acc with
    | Some p =>
        ca_prices p = known_prices (group_of name seen)
        /\ ca_ratios p = known_ratios (group_of name seen)
        /\ ca_total_wins p = Z.of_nat (List.length (group_of name seen))
    | None => group_of name seen = []
    end.

(** One turn of the loop of [rebuild_pe_profiles], once an earlier
    turn may have raised. *)
Definition step (acc : option (list (pystr * PEAgg))) (a : AwardRecord) :=
  match acc with Some d => PE.add_award d a | None => None end.

(** What the accumulator of [rebuild_pe_profiles] holds once the
    awards [seen] are read. *)
Definition reads (seen : list AwardRecord) (acc : list (pystr * PEAgg)) : Prop :=
  NoDup (List.map fst acc)
  /\ forall name,
       match Py.dict_get eqb name acc with
       | Some d =>
           pa_ratios d = known_ratios (awards_of name seen)
           /\ pa_awards d = Z.of_nat (List.length (awards_of name seen))
           /\ pa_prices d = known_prices (awards_of name seen)
       | None => awards_of name seen = []
       end.

(** The span [calculate_tps] divides by. *)
Definition code_span (r : Q) (rs : list Q) : Q :=
  if Py.truthy (Some (Py.max_list r rs - Py.min_list r rs))
  then Py.max_list r rs - Py.min_list r rs
  else 0.1.

End Inv.

Import Inv.

(** ** Subsystem 1: sector classification *)

Module Sectors.

Definition SECTOR_KEYWORDS : list (pystr * list pystr) :=
  [ (str "ICT",
     List.map str
       ["software"; "hardware"; "ict"; "information technology"; "computer";
        "network"; "server"; "system"; "digital"; "database"; "erp";
        "fiber"]%string);
    (str "Construction",
     List.map str
       ["construction"; "road"; "building"; "civil"; "bridge";
        "infrastructure"; "rehabilitation"; "water"; "sanitation"; "school";
        "drainage"]%string);
    (str "Medical",
     List.map str
       ["medical"; "pharmaceutical"; "health"; "hospital"; "drug"; "medicine";
        "laboratory"; "equipment"; "clinic"; "vaccine"; "cold chain"]%string);
    (str "Consultancy",
     List.map str
       ["consultancy"; "consulting"; "advisory"; "feasibility"; "study";
        "research"; "evaluation"; "assessment"; "audit"]%string);
    (str "Energy",
     List.map str
       ["energy"; "electricity"; "solar"; "power"; "generator"; "fuel";
        "petroleum"; "gas"; "electrification"]%string);
    (str "Supply/Goods",
     List.map str
       ["supply"; "goods"; "furniture"; "vehicle"; "stationary"; "uniform";
        "food"; "printing"; "laptops"]%string) ].

Definition Other : pystr := str "Other".

(** [sum(1 for k in kw if k in t)] *)
Definition score (t : pystr) (kw : list pystr) : nat :=
  List.length (List.filter (fun k => is_substring k t) kw).

(** [max(scores, key=scores.get)] over a non-empty dictionary whose
    first entry is [first]: the first key with the greatest value. *)
Definition max_key (first : pystr * nat) (rest : list (pystr * nat))
  : pystr * nat :=
  List.fold_left
    (fun best entry => if (snd best <? snd entry)%nat then entry else best)
    rest first.

Definition scores_of (t : pystr) : list (pystr * nat) :=
  List.map (fun skw => (fst skw, score t (snd skw))) SECTOR_KEYWORDS.

Definition classify_sector (text : pystr) : pystr :=
  let t := lower text in
  match scores_of t with
  | [] => Other
  | first :: rest =>
      let best := max_key first rest in
      if (0 <? snd best)%nat then fst best else Other
  end.

End Sectors.

(** ** Subsystem 1: OCDS releases and the scraper *)

Module Ocds.

(** The parts of an OCDS release the parser reads, each with the JSON
    type the OCDS schema gives it; [None] is an absent key. *)
Record Value := {
  v_amount : option Q;
  v_currency : option pystr
}.

Record Supplier := {
  s_name : option pystr
}.

Record Period := {
  p_startDate : option pystr;
  p_endDate : option pystr
}.

Record Award := {
  a_suppliers : option (list Supplier);
  a_value : option Value;
  a_contractPeriod : option Period;
  a_date : option pystr
}.

Record TenderInfo := {
  ti_id : option pystr;
  ti_title : option pystr;
  ti_description : option pystr;
  ti_value : option Value
}.

Record Buyer := {
  b_name : option pystr;
  b_id : option pystr
}.

Record Release := {
  r_ocid : option pystr;
  r_tender : option TenderInfo;
  r_buyer : option Buyer;
  r_awards : option (list Award);
  r_date : option pystr
}.

(** A pagination cursor: the integer the loop starts from, or a token
    of the server. *)
Inductive Cursor :=
| CInt (z : Z)
| CStr (s : pystr).

(** [not c] and [c == d] on cursors. *)
Definition cursor_falsy (c : Cursor) : bool :=
  match c with
  | CInt z => (z =? 0)%Z
  | CStr s => match s with [] => true | _ => false end
  end.

Definition cursor_eqb (c d : Cursor) : bool :=
  match c, d with
  | CInt x, CInt y => (x =? y)%Z
  | CStr x, CStr y => eqb x y
  | _, _ => false
  end.

(** What [fetch_nest_releases] returns: the JSON of a page, or the
    empty dictionary after a request error. *)
Record Page := {
  pg_releases : option (list Release);
  pg_next_cursor : option Cursor;
  pg_nextCursor : option Cursor
}.

Definition empty_page : Page :=
  {| pg_releases := None; pg_next_cursor := None; pg_nextCursor := None |}.

(** [d.get(key, default)] *)
Definition get {A} (x : option A) (default : A) : A :=
  match x with Some a => a | None => default end.

(** [d.get(k1, {}).get(k2)] *)
Definition get2 {A B} (x : option A) (f : A -> option B) : option B :=
  match x with Some a => f a | None => None end.

(** The decimal text of an integer. *)
Definition repr_int (z : Z) : pystr :=
  if (z <? 0)%Z then 45%N :: Py.repr_nat (Z.to_nat (- z))
  else Py.repr_nat (Z.to_nat z).

Definition nonempty (s : option pystr) : bool :=
  match s with
  | Some (_ :: _) => true
  | _ => false
  end.

Section Parse.
(** Two functions of the Python library are taken as given:
    [days_between a b] is
    [(datetime.fromisoformat(b) - datetime.fromisoformat(a)).days], or
    [None] when [fromisoformat] raises; [json_dumps] is
    [json.dumps]. *)
Variable days_between : pystr -> pystr -> option Z.
Variable json_dumps : Release -> pystr.

(** [round(price / estimate, 4)] under its guard. *)
Definition ratio_of (price estimate : option Q) : option Q :=
  match price, estimate with
  | Some p, Some e =>
      if Py.truthy price && Py.truthy estimate && Py.ltb 0 e
      then Some (Py.round_nd (p / e) 4)
      else None
  | _, _ => None
  end.

(** The delivery period; the outer [None] stands for the exception of
    [fromisoformat]. *)
Definition delivery_of (period : option Period) : option pystr :=
  let start := get2 period p_startDate in
  let stop := get2 period p_endDate in
  if nonempty start && nonempty stop
  then
    match days_between (Py.slice 0 10 (get start []))
                       (Py.slice 0 10 (get stop [])) with
    | Some days => Some (repr_int days ++ str " days")
    | None => None
    end
  else Some [].

(** [suppliers[0].get("name", "Unknown") if suppliers else "Unknown"]
    with [suppliers = award.get("suppliers", [{}])] *)
Definition supplier_name (award : Award) : pystr :=
  match a_suppliers award with
  | None => Unknown
  | Some [] => Unknown
  | Some (s :: _) => get (s_name s) Unknown
  end.

Definition winner_of (award : Award) : pystr :=
  normalize_company_name (Some (supplier_name award)).

(** [parse_ocds_release]: [None] when the release has no award, and
    when the dates of the contract period cannot be read (the
    exception is caught). *)
Definition parse_ocds_release (release : Release) : option AwardRecord :=
  let ocid := get (r_ocid release) [] in
  match get (r_awards release) [] with
  | [] => None
  | award :: _ =>
      let price := get2 (a_value award) v_amount in
      let currency := get (get2 (a_value award) v_currency) (str "TZS") in
      let estimate := get2 (get2 (r_tender release) ti_value) v_amount in
      let title := get (get2 (r_tender release) ti_title) [] in
      let raw_text :=
        title ++ str " " ++ get (get2 (r_tender release) ti_description) [] in
      let award_date := get (a_date award) (get (r_date release) []) in
      match delivery_of (a_contractPeriod award) with
      | None => None
      | Some delivery =>
          Some
            {| ocid := ocid;
               tender_number := get (get2 (r_tender release) ti_id) ocid;
               tender_description := Py.slice 0 400 title;
               pe_name := get (get2 (r_buyer release) b_name)
                            (str "Unknown Entity");
               pe_code := get (get2 (r_buyer release) b_id) [];
               winning_company := winner_of award;
               contract_price := price;
               contract_currency := currency;
               delivery_period := delivery;
               sector := Sectors.classify_sector raw_text;
               award_date := Py.slice 0 10 award_date;
               source_platform := str "NeST Tanzania";
               tender_estimate := estimate;
               price_ratio := ratio_of price estimate;
               confidence_score := 0.9;
               raw_json := Py.slice 0 3000 (json_dumps release) |}
      end
  end.

(** [if record:] on what the parser returns. *)
Definition parses (rel : Release) : bool :=
  match parse_ocds_release rel with
  | Some _ => true
  | None => false
  end.

(** The loop [for rel in releases] of [run_platform_scraper]. *)
Definition save_release (state : Db * nat) (rel : Release) : Db * nat :=
  match parse_ocds_release rel with
  | Some record => (save_award_record record (fst state), S (snd state))
  | None => state
  end.

Definition save_releases (releases : list Release) (state : Db * nat)
  : Db * nat :=
  List.fold_left save_release releases state.

(** [data.get("next_cursor") or data.get("nextCursor")] *)
Definition next_cursor (page : Page) : option Cursor :=
  match pg_next_cursor page with
  | Some c => if cursor_falsy c then pg_nextCursor page else Some c
  | None => pg_nextCursor page
  end.

(** [run_platform_scraper]: [fetch n cursor] is what the [n]-th call
    of [fetch_nest_releases] returns at [cursor]; the loop runs for at
    most [fuel] pages, [None] telling that it has not ended by
    then. *)
Fixpoint scrape (fetch : nat -> Cursor -> Page) (fuel : nat) (call : nat)
    (cursor : Cursor) (state : Db * nat) : option (Db * nat) :=
  match fuel with
  | O => None
  | S fuel' =>
      let data := fetch call cursor in
      match get (pg_releases data) [] with
      | [] => Some state
      | releases =>
          let state' := save_releases releases state in
          match next_cursor data with
          | None => Some state'
          | Some next =>
              if cursor_falsy next || cursor_eqb next cursor
              then Some state'
              else scrape fetch fuel' (S call) next state'
          end
      end
  end.

Definition run_platform_scraper (fetch : nat -> Cursor -> Page) (fuel : nat)
    (db : Db) : option (Db * nat) :=
  scrape fetch fuel 0 (CInt 0) (db, O).

End Parse.

End Ocds.

(** ** Query helpers: the pricing benchmark *)

Module Benchmark.

(** [sorted(l)] on numbers: stable, ascending. *)
Fixpoint insert_q (x : Q) (l : list Q) : list Q :=
  match l with
  | [] => [x]
  | y :: r => if Py.ltb y x then y :: insert_q x r else x :: l
  end.

Definition sorted_q (l : list Q) : list Q := List.fold_right insert_q [] l.

(** [x BETWEEN 0.5 AND 1.1] *)
Definition in_band (x : Q) : bool := Qle_bool 0.5 x && Qle_bool x 1.1.

(** What [get_pricing_benchmark] returns; the ["recommended"] text is
    not represented. *)
Record Stats := {
  st_avg_ratio : Q;
  st_median : Q;
  st_p25 : Q;
  st_p75 : Q;
  st_min : Q;
  st_max : Q
}.

Record Result := {
  bm_sector : pystr;
  bm_data_points : nat;
  bm_stats : option Stats
}.

Section Query.
(** [ORDER BY award_date DESC] leaves the order of equal dates to
    SQLite: the ordering of the rows is given. *)
Variable order_by_award_date_desc : list AwardRecord -> list AwardRecord.

(** [SELECT price_ratio ... WHERE sector = ? AND price_ratio BETWEEN 0.5
    AND 1.1 ORDER BY award_date DESC LIMIT 100] *)
Definition benchmark_ratios (sec : pystr) (db : Db) : list Q :=
  List.flat_map
    (fun a => match price_ratio a with Some q => [q] | None => [] end)
    (List.firstn 100
       (order_by_award_date_desc
          (List.filter
             (fun a =>
                eqb (sector a) sec
                && match price_ratio a with
                   | Some q => in_band q
                   | None => false
                   end)
             (award_records db)))).

(** [get_pricing_benchmark]; the outer [None] stands for an
    [IndexError]. *)
Definition get_pricing_benchmark (sec : pystr) (db : Db) : option Result :=
  let ratios := benchmark_ratios sec db in
  match ratios with
  | [] => Some {| bm_sector := sec; bm_data_points := 0; bm_stats := None |}
  | x :: rest =>
      let s := sorted_q ratios in
      let n := List.length s in
      match List.nth_error s (n / 2), List.nth_error s (n / 4),
            List.nth_error s (n * 3 / 4) with
      | Some median, Some p25, Some p75 =>
          Some {| bm_sector := sec;
                  bm_data_points := List.length ratios;
                  bm_stats :=
                    Some {| st_avg_ratio :=
                              Py.round_nd (Py.sum ratios / Py.len ratios) 4;
                            st_median := median;
                            st_p25 := p25;
                            st_p75 := p75;
                            st_min := Py.min_list x rest;
                            st_max := Py.max_list x rest |} |}
      | _, _, _ => None
      end
  end.

End Query.

End Benchmark.

(** ** Notions used in the statements about the store and the scraper *)

Module StoreSpec.

(** [SELECT * FROM award_records WHERE ocid = ?] followed by
    [fetchone]. *)
Definition find_ocid (id : pystr) (db : Db) : option AwardRecord :=
  List.find (fun r => eqb (ocid r) id) (award_records db).

(** The constraint [ocid TEXT UNIQUE]. *)
Definition unique_ocids (db : Db) : Prop :=
  NoDup (List.map ocid (award_records db)).

Definition has_ocid (id : pystr) (db : Db) : bool :=
  List.existsb (fun r => eqb (ocid r) id) (award_records db).

(** The stored winner reads the same once normalized again. *)
Definition settled (a : AwardRecord) : Prop :=
  normalize_company_name (Some (winning_company a)) = winning_company a.

(** The awards whose stored winner is [name]. *)
Definition won_by (name : pystr) (awards : list AwardRecord)
  : list AwardRecord :=
  List.filter (fun a => eqb (winning_company a) name) awards.

End StoreSpec.

Import StoreSpec.

(** ** Notions used in the statements about the scraper, and sample
    releases *)

Module OcdsSpec.
Import Ocds.

(** The store and the counter [after] some turns of the scraper loop,
    started from [before]: records are only appended, each of them
    counted and of the given [origin]; the profile tables are not
    touched. *)
Definition grows (origin : AwardRecord -> Prop) (before after : Db * nat)
  : Prop :=
  exists added,
    award_records (fst after) = award_records (fst before) ++ added
    /\ (snd before + List.length added <= snd after)%nat
    /\ competitor_profiles (fst after) = competitor_profiles (fst before)
    /\ pe_profiles (fst after) = pe_profiles (fst before)
    /\ Forall origin added
    /\ (unique_ocids (fst before) -> unique_ocids (fst after)).

(** The page ends the loop: it has no release, or no cursor to go on
    with. *)
Definition final_page (page : Page) : Prop :=
  get (pg_releases page) [] = [] \/ next_cursor page = None.

(** A release with one award. *)
Definition release (id name title : string) (price estimate : Q) : Release :=
  {| r_ocid := Some (str id);
     r_tender :=
       Some {| ti_id := None;
               ti_title := Some (str title);
               ti_description := None;
               ti_value := Some {| v_amount := Some estimate;
                                   v_currency := None |} |};
     r_buyer := Some {| b_name := Some (str "Ministry of X"); b_id := None |};
     r_awards :=
       Some [ {| a_suppliers := Some [ {| s_name := Some (str name) |} ];
                 a_value := Some {| v_amount := Some price;
                                    v_currency := None |};
                 a_contractPeriod := None;
                 a_date := Some (str "2024-04-10T09:00:00Z") |} ];
     r_date := None |}.

Definition acme : Release :=
  release "ocds-1" "ACME Supplies Ltd." "Supply of laptops" 90 100.

(** A server with one page. *)
Definition one_page (call : nat) (cursor : Cursor) : Page :=
  match call with
  | O => {| pg_releases := Some [acme; acme];
            pg_next_cursor := None;
            pg_nextCursor := None |}
  | S _ => empty_page
  end.

(** Stand-ins for the two library functions. *)
Definition no_days (a b : pystr) : option Z := None.
Definition no_json (r : Release) : pystr := [].

Definition empty_db : Db :=
  {| award_records := []; competitor_profiles := []; pe_profiles := [] |}.

End OcdsSpec.

Import OcdsSpec.

(** ** Notions used in the statements about the rebuilt profiles *)

Module ProfileSpec.
Import Spec.

(** How many elements of [l] have the text [k] in the column [f]. *)
Definition count_of {A} (f : A -> pystr) (k : pystr) (l : list A) : Z :=
  Z.of_nat (List.length (List.filter (fun a => eqb (f a) k) l)).

(** The dictionary [h] counts the values of the column [f] over [l]:
    a key for every value that occurs, bound to the number of its
    occurrences, and no other key. *)
Definition histogram_of {A} (f : A -> pystr) (l : list A)
    (h : list (pystr * Z)) : Prop :=
  NoDup (List.map fst h)
  /\ forall k,
       Py.dict_get eqb k h
       = if (0 <? count_of f k l)%Z then Some (count_of f k l) else None.

(** [d] is the greatest award date of [l] in the order of Python
    strings, or the empty text when no date is greater than it. *)
Definition latest (d : pystr) (l : list AwardRecord) : Prop :=
  (forall a, In a l -> gtb (award_date a) d = false)
  /\ (d = [] \/ exists a, In a l /\ award_date a = d).

(** What the accumulator of [rebuild_competitor_profiles] holds in its
    histograms and its date once the awards [seen] are read. *)
Definition reads_more (seen : list AwardRecord)
    (acc : list (pystr * CompetitorAgg)) : Prop :=
  forall name,
    match Py.dict_get eqb name acc with
    | Some p =>
        ca_company_name p = name
        /\ histogram_of sector (group_of name seen) (ca_primary_sectors p)
        /\ histogram_of pe_name (group_of name seen) (ca_pe_relationships p)
        /\ latest (ca_last_win_date p) (group_of name seen)
    | None => group_of name seen = []
    end.

End ProfileSpec.

Import ProfileSpec.

(** ** Notions used in the statements about the rebuilt PE profiles *)

Module PESpec.
Import Spec.

(** The months the loop of [rebuild_pe_profiles] reads from the dates
    of [awards] (none from a date it cannot read). *)
Definition months_of (awards : list AwardRecord) : list Z :=
  List.flat_map
    (fun a => match PE.award_months (award_date a) with
              | Some months => months
              | None => []
              end)
    awards.

(** How often [m] occurs in [l]. *)
Definition occurrences (m : Z) (l : list Z) : Z :=
  Z.of_nat (List.length (List.filter (Z.eqb m) l)).

(** [top] holds the at most [n] elements of [all] that rank first by
    [count], the greatest count first: no element left out has a
    greater count than one taken, and none is left out while there is
    room. *)
Definition ranked {K} (count : K -> Z) (n : nat) (top all : list K) : Prop :=
  NoDup top
  /\ (List.length top <= n)%nat
  /\ (forall x, In x top -> In x all)
  /\ (forall x y, In x top -> In y all -> ~ In y top -> (count y <= count x)%Z)
  /\ ((List.length top < n)%nat -> forall y, In y all -> In y top)
  /\ StronglySorted (fun x y => (count y <= count x)%Z) top.

(** What the accumulator of [rebuild_pe_profiles] holds in its
    histograms, its months and its code once the awards [seen] are
    read. *)
Definition pe_reads_more (seen : list AwardRecord)
    (acc : list (pystr * PEAgg)) : Prop :=
  forall name,
    match Py.dict_get eqb name acc with
    | Some d =>
        histogram_of sector (awards_of name seen) (pa_sectors d)
        /\ histogram_of winning_company (awards_of name seen) (pa_winners d)
        /\ pa_months d = months_of (awards_of name seen)
        /\ option_map pe_code (List.hd_error (awards_of name seen))
           = Some (pa_pe_code d)
    | None => awards_of name seen = []
    end.

End PESpec.

Import PESpec.

(** ** Facts about strings *)

Module PyStrFacts.

Lemma eqb_eq (a b : pystr) : eqb a b = true <-> a = b.
Proof.
  unfold eqb. destruct (list_eq_dec N.eq_dec a b); split; congruence.
Qed.

Lemma eqb_refl (a : pystr) : eqb a a = true.
Proof. apply eqb_eq. reflexivity. Qed.

Lemma eqb_neq (a b : pystr) : eqb a b = false <-> a <> b.
Proof.
  unfold eqb. destruct (list_eq_dec N.eq_dec a b); split; congruence.
Qed.

End PyStrFacts.

Import PyStrFacts.

Example normalize_abc :
  normalize_company_name (Some (str "ABC Tech Solutions Ltd"))
  = str "Abc Tech Solutions".
Proof. vm_compute. reflexivity. Qed.

Example normalize_tz :
  normalize_company_name (Some (str "t.t.z.z.x & Co. (T.Z.)Ltd"))
  = str "T Z X T Z".
Proof. vm_compute. reflexivity. Qed.

Example int_examples :
  List.map (fun s => Py.int (str s)) [" 07"; "-7"; "1_0"; "1_"; "x1"; ""]%string
  = [Some 7%Z; Some (-7)%Z; Some 10%Z; None; None; None].
Proof. vm_compute. reflexivity. Qed.

(** U+001C is whitespace for [str.strip], not for [int]; U+0085 is
    whitespace for both. *)
Example int_whitespace :
  List.map Py.int [[28; 53]; [133; 53]; [53; 32]; [31; 55]]%N
  = [None; Some 5%Z; Some 5%Z; None].
Proof. vm_compute. reflexivity. Qed.

Example round_examples :
  List.map Py.round [0.5; 1.5; 2.5; 2.6; -0.5; -1.5]
  = [0; 2; 2; 3; 0; -2]%Z.
Proof. vm_compute. reflexivity. Qed.

Example gate_message_49 :
  TPS.gate_message 49
  = str "TPS requires 50 award records. Currently: 49. Keep collecting data.".
Proof. vm_compute. reflexivity. Qed.

Example sorted_is_stable :
  Py.sorted (fun x : pystr * Z => - snd x)%Z
    [(str "a", 1%Z); (str "b", 2%Z); (str "c", 1%Z); (str "d", 2%Z)]
  = [(str "b", 2%Z); (str "d", 2%Z); (str "a", 1%Z); (str "c", 1%Z)].
Proof. vm_compute. reflexivity. Qed.

(** ** Facts about the normalizer *)

Module NormalizerFacts.

Ltac to_prop :=
  unfold plain, word_or_blank, is_word, is_space, is_cased, is_upper, is_lower,
    is_digit, is_ascii, dotless_i, dot in *;
  rewrite ?orb_true_iff, ?andb_true_iff, ?negb_true_iff, ?orb_false_iff,
    ?andb_false_iff, ?N.leb_le, ?N.ltb_lt, ?N.eqb_eq, ?N.leb_gt, ?N.ltb_ge,
    ?N.eqb_neq in *.

Lemma word_not_space c : is_word c = true -> is_space c = false.
Proof.
  intros H. apply not_true_is_false. intros K. to_prop. lia.
Qed.

Lemma space_not_word c : is_space c = true -> is_word c = false.
Proof.
  intros H. destruct (is_word c) eqn:E; [|reflexivity].
  apply word_not_space in E. congruence.
Qed.

Lemma strip_prefix_spec p : forall s rest,
  strip_prefix p s = Some rest <-> s = p ++ rest.
Proof.
  induction p as [|a p IH]; intros s rest; simpl.
  - split; congruence.
  - destruct s as [|b s].
    + split; discriminate.
    + destruct (N.eqb_spec a b) as [->|ne].
      * rewrite IH. split; congruence.
      * split; congruence.
Qed.

Lemma find_all_false {A} (f : A -> bool) l :
  (forall x, In x l -> f x = false) -> List.find f l = None.
Proof.
  induction l as [|a l IH]; intros H; simpl; [reflexivity|].
  rewrite (H a (or_introl eq_refl)). apply IH. intros x Hx. apply H. now right.
Qed.

Lemma SUFFIXES_split : SUFFIXES = PURE ++ [str "t.z."].
Proof. reflexivity. Qed.

Lemma SUFFIXES_head alt :
  In alt SUFFIXES -> exists a p, alt = a :: p /\ is_word a = true.
Proof.
  unfold SUFFIXES. simpl. intros H.
  repeat (destruct H as [<-|H]; [eexists _, _; split; reflexivity|]).
  destruct H.
Qed.

Lemma PURE_words alt :
  In alt PURE -> alt <> [] /\ Forall (fun c => is_word c = true) alt.
Proof.
  unfold PURE, SUFFIXES. simpl. intros H.
  repeat (destruct H as [<-|H];
          [split; [discriminate | repeat constructor]|]).
  destruct H.
Qed.

(** *** Runs of word characters *)

Lemma run_split s : s = word_run s ++ after_run s.
Proof.
  induction s as [|c r IH]; simpl; [reflexivity|].
  destruct (is_word c); simpl; congruence.
Qed.

Lemma after_run_head s : wordb (List.hd_error (after_run s)) = false.
Proof.
  induction s as [|c r IH]; simpl; [reflexivity|].
  destruct (is_word c) eqn:E; simpl; auto.
Qed.

Lemma word_run_words s : Forall (fun c => is_word c = true) (word_run s).
Proof.
  induction s as [|c r IH]; simpl; [constructor|].
  destruct (is_word c) eqn:E; constructor; auto.
Qed.

Lemma run_app w t :
  Forall (fun c => is_word c = true) w -> wordb (List.hd_error t) = false ->
  word_run (w ++ t) = w /\ after_run (w ++ t) = t.
Proof.
  induction 1 as [|c w Hc Hw IH]; intros Ht; simpl.
  - destruct t as [|d t]; simpl in *; [auto|]. rewrite Ht. auto.
  - rewrite Hc. destruct (IH Ht) as [-> ->]. auto.
Qed.

Lemma last_word w d :
  w <> [] -> Forall (fun c => is_word c = true) w -> is_word (List.last w d) = true.
Proof.
  intros Hne Hw. induction Hw as [|c w Hc Hw IH]; [congruence|].
  destruct w as [|c' w]; [exact Hc|]. apply IH. discriminate.
Qed.

(** *** The scan for suffix words *)

Lemma match_at_nonword prev c r :
  is_word c = false -> match_at prev (c :: r) = None.
Proof.
  intros Hc. unfold match_at.
  destruct (boundary prev (hd_error (c :: r))); [|reflexivity].
  replace (find (alt_matches (c :: r)) SUFFIXES) with (@None pystr);
    [reflexivity|].
  symmetry. apply find_all_false. intros alt Hin.
  destruct (SUFFIXES_head _ Hin) as (a & p & -> & Ha).
  unfold alt_matches. simpl. destruct (N.eqb_spec a c); [congruence|reflexivity].
Qed.

Lemma match_at_inside prev c r :
  wordb prev = true -> is_word c = true -> match_at prev (c :: r) = None.
Proof.
  intros Hp Hc. unfold match_at, boundary. simpl. rewrite Hp, Hc. reflexivity.
Qed.

Lemma match_at_Some prev s n :
  match_at prev s = Some n ->
  exists alt rest, In alt SUFFIXES /\ n = List.length alt /\ s = alt ++ rest
    /\ boundary (Some (List.last alt 0%N)) (List.hd_error rest) = true.
Proof.
  unfold match_at. destruct (boundary prev (hd_error s)); [|discriminate].
  destruct (find (alt_matches s) SUFFIXES) as [alt|] eqn:F; [|discriminate].
  simpl. intros [= <-]. apply find_some in F. destruct F as [Hin Hm].
  unfold alt_matches in Hm. destruct (strip_prefix alt s) as [rest|] eqn:P;
    [|discriminate].
  apply strip_prefix_spec in P. exists alt, rest. auto.
Qed.

Lemma match_at_pure_run prev c r :
  wordb prev = false -> is_word c = true -> In (word_run (c :: r)) PURE ->
  match_at prev (c :: r) <> None.
Proof.
  intros Hp Hc Hin. unfold match_at.
  assert (B : boundary prev (hd_error (c :: r)) = true)
    by (unfold boundary; simpl; rewrite Hp, Hc; reflexivity).
  rewrite B.
  destruct (find (alt_matches (c :: r)) SUFFIXES) eqn:F; [discriminate|].
  exfalso.
  pose proof (word_run_words (c :: r)) as Hw.
  assert (Hne : word_run (c :: r) <> []) by (simpl; rewrite Hc; discriminate).
  pose proof (after_run_head (c :: r)) as Ha.
  assert (P : strip_prefix (word_run (c :: r)) (c :: r) = Some (after_run (c :: r)))
    by (apply strip_prefix_spec, run_split).
  remember (word_run (c :: r)) as w. remember (after_run (c :: r)) as t.
  assert (K := find_none _ _ F w).
  rewrite SUFFIXES_split in K. specialize (K (in_or_app _ _ _ (or_introl Hin))).
  unfold alt_matches in K. rewrite P in K. unfold boundary in K.
  rewrite Ha in K. cbn [wordb] in K. rewrite (last_word _ _ Hne Hw) in K.
  discriminate.
Qed.

Lemma sub_suffixes_skip s : forall k prev,
  sub_suffixes prev k s = sub_suffixes (prev_after prev k s) 0 (List.skipn k s).
Proof.
  induction s as [|c r IH]; intros k prev.
  - destruct k; reflexivity.
  - destruct k as [|j]; [reflexivity|].
    cbn [sub_suffixes skipn]. rewrite IH. f_equal.
    destruct j; reflexivity.
Qed.

Lemma prev_after_last p : forall a rest,
  prev_after (Some a) (List.length p) (p ++ rest) = Some (List.last (a :: p) 0%N).
Proof.
  induction p as [|b p IH]; intros a rest; [reflexivity|].
  specialize (IH b rest). cbn [List.length prev_after].
  change (last (a :: b :: p) 0%N) with (last (b :: p) 0%N). rewrite <- IH.
  destruct p; reflexivity.
Qed.

Lemma sub_suffixes_match prev a p rest :
  match_at prev ((a :: p) ++ rest) = Some (List.length (a :: p)) ->
  sub_suffixes prev 0 ((a :: p) ++ rest)
  = sub_suffixes (Some (List.last (a :: p) 0%N)) 0 rest.
Proof.
  intros M. cbn [sub_suffixes app]. cbn [app] in M. rewrite M.
  cbn [List.length]. rewrite sub_suffixes_skip, prev_after_last.
  rewrite List.skipn_app, List.skipn_all, Nat.sub_diag. reflexivity.
Qed.

Lemma run_copy s : forall prev,
  wordb prev = true ->
  exists q, sub_suffixes prev 0 s = word_run s ++ sub_suffixes q 0 (after_run s).
Proof.
  induction s as [|c r IH]; intros prev Hp.
  - exists prev. reflexivity.
  - cbn [word_run after_run]. destruct (is_word c) eqn:Hc.
    + destruct (IH (Some c) Hc) as [q E]. exists q.
      cbn [sub_suffixes]. rewrite (match_at_inside _ _ r Hp Hc), E. reflexivity.
    + exists prev. reflexivity.
Qed.

Lemma sub_suffixes_head q t :
  wordb (List.hd_error t) = false ->
  wordb (List.hd_error (sub_suffixes q 0 t)) = false.
Proof.
  destruct t as [|d t]; intros H; [reflexivity|].
  cbn in H. cbn [sub_suffixes]. rewrite (match_at_nonword _ _ _ H). exact H.
Qed.

Lemma after_run_length s : (List.length (after_run s) <= List.length s)%nat.
Proof.
  induction s as [|c r IH]; simpl; [lia|]. destruct (is_word c); simpl; lia.
Qed.

Lemma after_run_incl s x : In x (after_run s) -> In x s.
Proof.
  induction s as [|c r IH]; simpl; [auto|].
  destruct (is_word c); simpl; auto.
Qed.

Lemma at_edge_nonword q t : wordb (List.hd_error t) = false -> at_edge q t.
Proof. unfold at_edge. intros ->. apply andb_false_r. Qed.

Lemma at_edge_boundary q t : boundary q (List.hd_error t) = true -> at_edge q t.
Proof.
  unfold at_edge, boundary. destruct (wordb q), (wordb (hd_error t)); auto.
Qed.

Lemma quiet_app_run w t :
  Forall (fun c => is_word c = true) w -> wordb (List.hd_error t) = false ->
  w <> [] -> ~ In w PURE -> quiet t -> quiet (w ++ t).
Proof.
  intros Hw Ht Hne Hp Hq. destruct w as [|c w]; [congruence|].
  pose proof (run_app _ _ Hw Ht) as [E1 E2].
  inversion Hw; subst. cbn [app] in *. apply quiet_run; auto.
  - rewrite E1. exact Hp.
  - cbn [after_run] in E2. rewrite H1 in E2. rewrite E2. exact Hq.
Qed.

(** After the first substitution no run of word characters is a
    suffix word. *)
Lemma quiet_sub_suffixes n : forall s prev,
  (List.length s <= n)%nat -> at_edge prev s -> quiet (sub_suffixes prev 0 s).
Proof.
  induction n as [|n IH]; intros s prev Hlen He.
  - destruct s; [constructor|simpl in Hlen; lia].
  - destruct s as [|c r]; [constructor|]. simpl in Hlen.
    destruct (is_word c) eqn:Hc.
    + assert (Hp : wordb prev = false).
      { unfold at_edge in He. cbn in He. rewrite Hc, andb_true_r in He. exact He. }
      destruct (match_at prev (c :: r)) as [k|] eqn:M.
      * destruct (match_at_Some _ _ _ M) as (alt & rest & Hin & -> & E & B).
        destruct (SUFFIXES_head _ Hin) as (a & p & -> & _).
        rewrite E in M |- *. rewrite (sub_suffixes_match _ _ _ _ M).
        apply IH; [|apply at_edge_boundary, B].
        apply (f_equal (@List.length N)) in E. rewrite List.length_app in E.
        simpl in E. lia.
      * cbn [sub_suffixes]. rewrite M.
        destruct (run_copy r (Some c) Hc) as [q ->].
        change (c :: word_run r ++ sub_suffixes q 0 (after_run r))
          with ((c :: word_run r) ++ sub_suffixes q 0 (after_run r)).
        apply quiet_app_run.
        -- constructor; [exact Hc|apply word_run_words].
        -- apply sub_suffixes_head, after_run_head.
        -- discriminate.
        -- intros Hin. apply (match_at_pure_run prev c r Hp Hc); [|exact M].
           cbn [word_run]. rewrite Hc. exact Hin.
        -- apply IH; [|apply at_edge_nonword, after_run_head].
           pose proof (after_run_length r). lia.
    + cbn [sub_suffixes]. rewrite (match_at_nonword _ _ _ Hc).
      apply quiet_sep; [exact Hc|]. apply IH; [lia|].
      unfold at_edge. cbn. rewrite Hc. reflexivity.
Qed.

(** A string without suffix words, and without a dot, is left alone by
    the first substitution. *)
Lemma sub_suffixes_quiet s :
  quiet s -> forall prev, at_edge prev s -> ~ In dot s ->
  sub_suffixes prev 0 s = s.
Proof.
  induction 1 as [|c r Hc Hq IH|c r Hc Hp Hq IH]; intros prev He Hd.
  - reflexivity.
  - cbn [sub_suffixes]. rewrite (match_at_nonword _ _ _ Hc). f_equal.
    apply IH; [|intros K; apply Hd; now right].
    unfold at_edge. cbn. rewrite Hc. reflexivity.
  - assert (M : match_at prev (c :: r) = None).
    { destruct (match_at prev (c :: r)) as [k|] eqn:M; [exfalso|reflexivity].
      destruct (match_at_Some _ _ _ M) as (alt & rest & Hin & -> & E & B).
      rewrite SUFFIXES_split in Hin. apply in_app_or in Hin.
      destruct Hin as [Hin|[<-|[]]].
      - destruct (PURE_words _ Hin) as [Hne Hw].
        unfold boundary in B. cbn [wordb] in B.
        rewrite (last_word _ _ Hne Hw) in B.
        assert (Ht : wordb (hd_error rest) = false)
          by (destruct (wordb (hd_error rest)); [discriminate|reflexivity]).
        destruct (run_app _ _ Hw Ht) as [E1 _]. rewrite <- E in E1.
        apply Hp. rewrite E1. exact Hin.
      - apply Hd. rewrite E. cbn. auto. }
    cbn [sub_suffixes]. rewrite M.
    destruct (run_copy r (Some c) Hc) as [q ->]. f_equal.
    rewrite IH.
    + symmetry. apply run_split.
    + apply at_edge_nonword, after_run_head.
    + intros K. apply Hd. right. apply after_run_incl, K.
Qed.

(** *** The later passes keep the runs of word characters *)

Lemma quiet_inv_nonword c r : is_word c = false -> quiet (c :: r) -> quiet r.
Proof. intros Hc Hq. inversion Hq; subst; [assumption|congruence]. Qed.

Lemma quiet_split c r :
  is_word c = true -> quiet (c :: r) ->
  ~ In (word_run (c :: r)) PURE /\ quiet (after_run r).
Proof. intros Hc Hq. inversion Hq; subst; [congruence|auto]. Qed.

Lemma sub_punct_app w t :
  Forall (fun c => is_word c = true) w -> sub_punct (w ++ t) = w ++ sub_punct t.
Proof.
  induction 1 as [|c w Hc Hw IH]; [reflexivity|].
  cbn [app]. unfold sub_punct in *. cbn [List.map]. rewrite Hc, IH. reflexivity.
Qed.

Lemma sub_punct_head t :
  wordb (List.hd_error t) = false -> wordb (List.hd_error (sub_punct t)) = false.
Proof.
  destruct t as [|d t]; cbn; [auto|]. intros H. rewrite H. cbn.
  destruct (is_space d); [exact H|reflexivity].
Qed.

Lemma sub_spaces_app w t b :
  Forall (fun c => is_word c = true) w -> w <> [] ->
  sub_spaces b (w ++ t) = w ++ sub_spaces false t.
Proof.
  intros Hw. revert b. induction Hw as [|c w Hc Hw IH]; intros b Hne; [congruence|].
  cbn [app sub_spaces]. rewrite (word_not_space _ Hc). f_equal.
  destruct w as [|c' w]; [reflexivity|]. apply IH. discriminate.
Qed.

Lemma sub_spaces_head t :
  wordb (List.hd_error t) = false ->
  wordb (List.hd_error (sub_spaces false t)) = false.
Proof.
  destruct t as [|d t]; intros H; [reflexivity|].
  cbn [sub_spaces]. destruct (is_space d); [reflexivity|exact H].
Qed.

Lemma lstrip_quiet s : quiet s -> quiet (lstrip s).
Proof.
  induction s as [|c r IH]; intros Hq; [constructor|].
  cbn [lstrip]. destruct (is_space c) eqn:Sc; [|exact Hq].
  apply IH. apply (quiet_inv_nonword c); [apply space_not_word, Sc|exact Hq].
Qed.

Lemma rstrip_cons c r : is_space c = false -> rstrip (c :: r) = c :: rstrip r.
Proof. intros H. cbn [rstrip]. rewrite H. destruct (rstrip r); reflexivity. Qed.

Lemma rstrip_app w t :
  Forall (fun c => is_word c = true) w -> rstrip (w ++ t) = w ++ rstrip t.
Proof.
  induction 1 as [|c w Hc Hw IH]; [reflexivity|].
  cbn [app]. rewrite (rstrip_cons _ _ (word_not_space _ Hc)), IH. reflexivity.
Qed.

Lemma rstrip_hd s :
  rstrip s = [] \/ List.hd_error (rstrip s) = List.hd_error s.
Proof.
  destruct s as [|c r]; [now left|]. cbn [rstrip].
  destruct (rstrip r); [destruct (is_space c)|]; auto.
Qed.

Lemma rstrip_head (P : option N -> Prop) s :
  P None -> P (List.hd_error s) -> P (List.hd_error (rstrip s)).
Proof.
  intros H0 H. destruct (rstrip_hd s) as [->| ->]; assumption.
Qed.

Ltac split_run c r Hc :=
  let E := fresh "E" in
  pose proof (run_split (c :: r)) as E;
  cbn [after_run] in E; rewrite Hc in E; rewrite E.

Lemma word_run_cons_words c r :
  is_word c = true -> Forall (fun c => is_word c = true) (word_run (c :: r))
                      /\ word_run (c :: r) <> [].
Proof.
  intros Hc. split; [apply word_run_words|]. cbn. rewrite Hc. discriminate.
Qed.

Lemma sub_punct_quiet s : quiet s -> quiet (sub_punct s).
Proof.
  induction 1 as [|c r Hc Hq IH|c r Hc Hp Hq IH].
  - constructor.
  - unfold sub_punct. cbn [List.map]. rewrite Hc. cbn [orb].
    apply quiet_sep; [|exact IH]. destruct (is_space c); [exact Hc|reflexivity].
  - destruct (word_run_cons_words c r Hc) as [Hw Hne].
    split_run c r Hc. rewrite sub_punct_app by exact Hw.
    apply quiet_app_run; auto. apply sub_punct_head, after_run_head.
Qed.

Lemma sub_spaces_quiet s : quiet s -> forall b, quiet (sub_spaces b s).
Proof.
  induction 1 as [|c r Hc Hq IH|c r Hc Hp Hq IH]; intros b.
  - constructor.
  - cbn [sub_spaces]. destruct (is_space c).
    + destruct b; [apply IH|]. apply quiet_sep; [reflexivity|apply IH].
    + apply quiet_sep; [exact Hc|apply IH].
  - destruct (word_run_cons_words c r Hc) as [Hw Hne].
    split_run c r Hc. rewrite sub_spaces_app by assumption.
    apply quiet_app_run; auto. apply sub_spaces_head, after_run_head.
Qed.

Lemma rstrip_quiet s : quiet s -> quiet (rstrip s).
Proof.
  induction 1 as [|c r Hc Hq IH|c r Hc Hp Hq IH].
  - constructor.
  - cbn [rstrip]. destruct (rstrip r) eqn:E.
    + destruct (is_space c); [constructor|]. apply quiet_sep; [exact Hc|constructor].
    + apply quiet_sep; assumption.
  - destruct (word_run_cons_words c r Hc) as [Hw Hne].
    split_run c r Hc. rewrite rstrip_app by exact Hw.
    apply quiet_app_run; auto.
    apply (rstrip_head (fun o => wordb o = false)); [reflexivity|].
    apply after_run_head.
Qed.

(** *** What each pass leaves behind *)

Section Preserved.
Variable P : N -> Prop.

Lemma sub_suffixes_Forall s :
  Forall P s -> forall prev k, Forall P (sub_suffixes prev k s).
Proof.
  induction 1 as [|c r Hc Hr IH]; intros prev k; [constructor|].
  cbn [sub_suffixes]. destruct k; [|apply IH].
  destruct (match_at prev (c :: r)) as [[|j]|]; auto.
Qed.

Lemma lstrip_Forall s : Forall P s -> Forall P (lstrip s).
Proof.
  induction 1 as [|c r Hc Hr IH]; [constructor|].
  cbn [lstrip]. destruct (is_space c); auto.
Qed.

Lemma rstrip_Forall s : Forall P s -> Forall P (rstrip s).
Proof.
  induction 1 as [|c r Hc Hr IH]; [constructor|].
  cbn [rstrip]. destruct (rstrip r); [destruct (is_space c)|]; auto.
Qed.

Hypothesis P_blank : P 32%N.

Lemma sub_punct_Forall s : Forall P s -> Forall P (sub_punct s).
Proof.
  induction 1 as [|c r Hc Hr IH]; [constructor|].
  unfold sub_punct. cbn [List.map].
  constructor; [destruct (is_word c || is_space c); assumption|exact IH].
Qed.

Lemma sub_spaces_Forall s : Forall P s -> forall b, Forall P (sub_spaces b s).
Proof.
  induction 1 as [|c r Hc Hr IH]; intros b; [constructor|].
  cbn [sub_spaces]. destruct (is_space c); [destruct b|]; auto.
Qed.

End Preserved.

Lemma sub_punct_classes s :
  Forall (fun c => is_word c || is_space c = true) (sub_punct s).
Proof.
  induction s as [|c r IH]; [constructor|].
  unfold sub_punct. cbn [List.map]. constructor; [|exact IH].
  destruct (is_word c || is_space c) eqn:E; [exact E|reflexivity].
Qed.

Lemma sub_spaces_classes s :
  Forall (fun c => is_word c || is_space c = true) s ->
  forall b, Forall (fun c => word_or_blank c = true) (sub_spaces b s).
Proof.
  induction 1 as [|c r Hc Hr IH]; intros b; [constructor|].
  cbn [sub_spaces]. destruct (is_space c) eqn:Sc.
  - destruct b; [apply IH|]. constructor; [reflexivity|apply IH].
  - constructor; [|apply IH]. unfold word_or_blank. cbn beta in Hc.
    destruct (is_word c); [reflexivity|]. cbn in Hc. congruence.
Qed.

Lemma blank_of_space c :
  word_or_blank c = true -> is_space c = true -> c = 32%N.
Proof.
  unfold word_or_blank. intros H Sc. apply space_not_word in Sc.
  rewrite Sc in H. cbn in H. apply N.eqb_eq, H.
Qed.

Lemma sub_punct_id s :
  Forall (fun c => word_or_blank c = true) s -> sub_punct s = s.
Proof.
  induction 1 as [|c r Hc Hr IH]; [reflexivity|].
  unfold sub_punct in *. cbn [List.map]. rewrite IH. f_equal.
  unfold word_or_blank in Hc. destruct (is_word c); [reflexivity|].
  cbn in Hc. apply N.eqb_eq in Hc. subst. reflexivity.
Qed.

Lemma sub_spaces_single s : forall b,
  single_spaced (sub_spaces b s)
  /\ (b = true -> spaceb (List.hd_error (sub_spaces b s)) = false).
Proof.
  induction s as [|c r IH]; intros b; [cbn; auto|].
  cbn [sub_spaces]. destruct (is_space c) eqn:Sc.
  - destruct (IH true) as [H1 H2]. destruct b; [auto|].
    split; [|discriminate]. cbn [single_spaced]. auto.
  - destruct (IH false) as [H1 _]. split; [|intros _; exact Sc].
    cbn [single_spaced]. split; [congruence|exact H1].
Qed.

Lemma lstrip_single s : single_spaced s -> single_spaced (lstrip s).
Proof.
  induction s as [|c r IH]; [auto|]. intros H.
  cbn [lstrip]. destruct (is_space c); [apply IH, H|exact H].
Qed.

Lemma rstrip_single s : single_spaced s -> single_spaced (rstrip s).
Proof.
  induction s as [|c r IH]; [auto|]. intros [H1 H2].
  cbn [rstrip]. specialize (IH H2). destruct (rstrip r) as [|d r'] eqn:E.
  - destruct (is_space c); cbn; auto.
  - rewrite <- E in *. cbn [single_spaced]. split; [|exact IH].
    intros Sc. apply (rstrip_head (fun o => spaceb o = false)); auto.
Qed.

Lemma sub_spaces_id s :
  Forall (fun c => word_or_blank c = true) s -> single_spaced s ->
  forall b, (b = true -> spaceb (List.hd_error s) = false) -> sub_spaces b s = s.
Proof.
  induction 1 as [|c r Hc Hr IH]; intros Hs b Hb; [reflexivity|].
  destruct Hs as [H1 H2]. cbn [sub_spaces]. destruct (is_space c) eqn:Sc.
  - destruct b; [specialize (Hb eq_refl); cbn in Hb; congruence|].
    rewrite (blank_of_space _ Hc Sc). f_equal. apply IH; auto.
  - f_equal. apply IH; [exact H2|discriminate].
Qed.

Lemma lstrip_head s : spaceb (List.hd_error (lstrip s)) = false.
Proof.
  induction s as [|c r IH]; [reflexivity|].
  cbn [lstrip]. destruct (is_space c) eqn:Sc; [exact IH|exact Sc].
Qed.

Lemma lstrip_id s : spaceb (List.hd_error s) = false -> lstrip s = s.
Proof. destruct s as [|c r]; [reflexivity|]. cbn. intros ->. reflexivity. Qed.

Lemma rstrip_idem s : rstrip (rstrip s) = rstrip s.
Proof.
  induction s as [|c r IH]; [reflexivity|].
  cbn [rstrip]. destruct (rstrip r) as [|d r'] eqn:E.
  - destruct (is_space c) eqn:Sc; [reflexivity|]. cbn. rewrite Sc. reflexivity.
  - cbn [rstrip]. cbn [rstrip] in IH. rewrite IH. reflexivity.
Qed.

Lemma strip_idem s : strip (strip s) = strip s.
Proof.
  unfold strip. rewrite (lstrip_id (rstrip (lstrip s))), rstrip_idem;
    [reflexivity|].
  apply (rstrip_head (fun o => spaceb o = false)); [reflexivity|].
  apply lstrip_head.
Qed.

(** *** Case mappings on ASCII *)

Lemma to_lower_plain c : is_ascii c = true -> plain (to_lower c) = true.
Proof.
  intros H. unfold to_lower. destruct (is_upper c) eqn:U.
  - to_prop. lia.
  - unfold plain. rewrite H, U. reflexivity.
Qed.

Lemma lower_plain s :
  is_ascii_str s -> Forall (fun c => plain c = true) (lower s).
Proof.
  induction 1 as [|c r Hc Hr IH]; [constructor|].
  constructor; [apply to_lower_plain, Hc|exact IH].
Qed.

Lemma plain_lower c : plain c = true -> to_lower c = c.
Proof.
  unfold plain, to_lower. intros H. apply andb_true_iff in H.
  destruct H as [_ H]. apply negb_true_iff in H. rewrite H. reflexivity.
Qed.

Lemma plain_title c : plain c = true -> to_lower (to_title c) = c.
Proof.
  intros H. unfold to_title. destruct (is_lower c) eqn:L.
  - unfold to_lower. replace (is_upper (c - 32)) with true.
    + to_prop. lia.
    + symmetry. to_prop. lia.
  - destruct (N.eqb_spec c dotless_i) as [->|_]; [discriminate|].
    apply plain_lower, H.
Qed.

Lemma lower_title s :
  Forall (fun c => plain c = true) s -> forall b, lower (title_from b s) = s.
Proof.
  induction 1 as [|c r Hc Hr IH]; intros b; [reflexivity|].
  cbn [title_from lower List.map]. fold (lower (title_from (is_cased c) r)).
  rewrite IH. f_equal. destruct b; [|apply plain_title, Hc].
  rewrite !(plain_lower c Hc). reflexivity.
Qed.

(** *** The normalizer as a whole *)

Lemma normalize_some (s : pystr) :
  s <> [] ->
  normalize_company_name (Some s)
  = match title (core s) with [] => Unknown | _ => title (core s) end.
Proof. destruct s; [congruence|reflexivity]. Qed.

Lemma core_plain s : is_ascii_str s -> Forall (fun c => plain c = true) (core s).
Proof.
  intros H. unfold core, strip.
  apply rstrip_Forall, lstrip_Forall, sub_spaces_Forall; [reflexivity|].
  apply sub_punct_Forall; [reflexivity|].
  apply sub_suffixes_Forall, lower_plain, H.
Qed.

Lemma core_classes s : Forall (fun c => word_or_blank c = true) (core s).
Proof.
  unfold core, strip.
  apply rstrip_Forall, lstrip_Forall, sub_spaces_classes, sub_punct_classes.
Qed.

Lemma core_quiet s : quiet (core s).
Proof.
  unfold core, strip.
  apply rstrip_quiet, lstrip_quiet, sub_spaces_quiet, sub_punct_quiet.
  apply (quiet_sub_suffixes (List.length (lower s))); [lia|reflexivity].
Qed.

Lemma core_single s : single_spaced (core s).
Proof.
  unfold core, strip. apply rstrip_single, lstrip_single, sub_spaces_single.
Qed.

Lemma core_no_dot s : ~ In dot (core s).
Proof.
  intros H. pose proof (core_classes s) as K.
  rewrite Forall_forall in K. apply K in H. discriminate.
Qed.

Lemma core_fixed s : is_ascii_str s -> core (title (core s)) = core s.
Proof.
  intros H. unfold core at 1. unfold title.
  rewrite (lower_title _ (core_plain s H)).
  rewrite (sub_suffixes_quiet _ (core_quiet s)) by
    (try reflexivity; apply core_no_dot).
  rewrite (sub_punct_id _ (core_classes s)).
  rewrite (sub_spaces_id _ (core_classes s) (core_single s)) by discriminate.
  unfold core. apply strip_idem.
Qed.

Lemma normalize_Unknown : normalize_company_name (Some Unknown) = Unknown.
Proof. vm_compute. reflexivity. Qed.

Lemma normalize_idempotent_on_ascii (s : pystr) :
  is_ascii_str s ->
  normalize_company_name (Some (normalize_company_name (Some s)))
  = normalize_company_name (Some s).
Proof.
  intros H. destruct s as [|c s]; [apply normalize_Unknown|].
  rewrite (normalize_some (c :: s)) by discriminate.
  destruct (title (core (c :: s))) as [|d y] eqn:E; [apply normalize_Unknown|].
  rewrite normalize_some by discriminate.
  rewrite <- E, (core_fixed _ H), E. reflexivity.
Qed.

End NormalizerFacts.

(** ** Facts about numbers and containers *)

Module PyFacts.

Lemma ltb_lt x y : Py.ltb x y = true <-> x < y.
Proof.
  unfold Py.ltb. rewrite negb_true_iff. split.
  - intros H. apply Qnot_le_lt. intros K. apply Qle_bool_iff in K. congruence.
  - intros H. destruct (Qle_bool y x) eqn:E; [|reflexivity].
    apply Qle_bool_iff in E. exfalso. apply (Qlt_not_le _ _ H E).
Qed.

Lemma ltb_ge x y : Py.ltb x y = false <-> y <= x.
Proof.
  unfold Py.ltb. rewrite negb_false_iff. apply Qle_bool_iff.
Qed.

Lemma min2_spec a b : Py.min2 a b <= a /\ Py.min2 a b <= b
                      /\ (Py.min2 a b = a \/ Py.min2 a b = b).
Proof.
  unfold Py.min2. destruct (Py.ltb b a) eqn:E.
  - apply ltb_lt in E. repeat split; [lra|lra|auto].
  - apply ltb_ge in E. repeat split; [lra|lra|auto].
Qed.

Lemma max2_spec a b : a <= Py.max2 a b /\ b <= Py.max2 a b
                      /\ (Py.max2 a b = a \/ Py.max2 a b = b).
Proof.
  unfold Py.max2. destruct (Py.ltb a b) eqn:E.
  - apply ltb_lt in E. repeat split; [lra|lra|auto].
  - apply ltb_ge in E. repeat split; [lra|lra|auto].
Qed.

Lemma min_list_spec l : forall x,
  In (Py.min_list x l) (x :: l) /\ forall y, In y (x :: l) -> Py.min_list x l <= y.
Proof.
  induction l as [|a l IH]; intros x; unfold Py.min_list in *; cbn [fold_left].
  - split; [now left|]. intros y [<-|[]]. lra.
  - destruct (IH (Py.min2 x a)) as [H1 H2].
    destruct (min2_spec x a) as (Hx & Ha & Hm). split.
    + destruct H1 as [H1|H1]; [|now right; right].
      rewrite <- H1. destruct Hm as [-> | ->]; [now left|now right; left].
    + intros y [<-|[<-|Hy]].
      * eapply Qle_trans; [apply H2; now left|exact Hx].
      * eapply Qle_trans; [apply H2; now left|exact Ha].
      * apply H2. now right.
Qed.

Lemma max_list_spec l : forall x,
  In (Py.max_list x l) (x :: l) /\ forall y, In y (x :: l) -> y <= Py.max_list x l.
Proof.
  induction l as [|a l IH]; intros x; unfold Py.max_list in *; cbn [fold_left].
  - split; [now left|]. intros y [<-|[]]. lra.
  - destruct (IH (Py.max2 x a)) as [H1 H2].
    destruct (max2_spec x a) as (Hx & Ha & Hm). split.
    + destruct H1 as [H1|H1]; [|now right; right].
      rewrite <- H1. destruct Hm as [-> | ->]; [now left|now right; left].
    + intros y [<-|[<-|Hy]].
      * eapply Qle_trans; [exact Hx|apply H2; now left].
      * eapply Qle_trans; [exact Ha|apply H2; now left].
      * apply H2. now right.
Qed.

(** [round] stays between the integers that bound its argument. *)
Lemma round_bounds (a b : Z) (x : Q) :
  inject_Z a <= x -> x <= inject_Z b -> (a <= Py.round x <= b)%Z.
Proof.
  intros Ha Hb.
  assert (Fa : (a <= Qfloor x)%Z).
  { rewrite <- (Qfloor_Z a). apply Qfloor_resp_le, Ha. }
  assert (Fb : (Qfloor x <= b)%Z).
  { rewrite <- (Qfloor_Z b). apply Qfloor_resp_le, Hb. }
  unfold Py.round.
  destruct (Qcompare (x - inject_Z (Qfloor x)) (1 # 2)) eqn:C.
  - apply Qeq_alt in C.
    assert (Qfloor x <> b).
    { intros E. rewrite E in C. lra. }
    destruct (Z.even (Qfloor x)); lia.
  - lia.
  - apply Qgt_alt in C.
    assert (Qfloor x <> b).
    { intros E. rewrite E in C. lra. }
    lia.
Qed.

Lemma round_nd_unit (x : Q) (n : nat) :
  0 <= x <= 1 -> 0 <= Py.round_nd x n <= 1.
Proof.
  intros [H0 H1]. unfold Py.round_nd.
  set (s := (10 ^ Z.of_nat n)%Z).
  assert (Hs : (0 < s)%Z) by (apply Z.pow_pos_nonneg; lia).
  assert (Hq : 0 < inject_Z s).
  { change 0 with (inject_Z 0). rewrite <- Zlt_Qlt. exact Hs. }
  destruct (round_bounds 0 s (x * inject_Z s)) as [R0 R1].
  - change (inject_Z 0) with 0. apply Qmult_le_0_compat; lra.
  - rewrite <- (Qmult_1_l (inject_Z s)) at 2.
    apply Qmult_le_compat_r; lra.
  - rewrite Zle_Qle in R0, R1. change (inject_Z 0) with 0 in R0. split.
    + apply Qle_shift_div_l; [exact Hq|]. lra.
    + apply Qle_shift_div_r; [exact Hq|]. lra.
Qed.

Lemma round_nd_one (x : Q) (n : nat) : x == 1 -> Py.round_nd x n == 1.
Proof.
  intros H. unfold Py.round_nd.
  set (s := (10 ^ Z.of_nat n)%Z).
  assert (Hs : (0 < s)%Z) by (apply Z.pow_pos_nonneg; lia).
  assert (Hq : 0 < inject_Z s).
  { change 0 with (inject_Z 0). rewrite <- Zlt_Qlt. exact Hs. }
  destruct (round_bounds s s (x * inject_Z s)) as [R0 R1].
  - rewrite H. lra.
  - rewrite H. lra.
  - assert (E : Py.round (x * inject_Z s) = s) by lia.
    rewrite E. field. lra.
Qed.

(** One-sided bounds. *)
Lemma round_ge (a : Z) (x : Q) : inject_Z a <= x -> (a <= Py.round x)%Z.
Proof.
  intros Ha.
  assert (Fa : (a <= Qfloor x)%Z).
  { rewrite <- (Qfloor_Z a). apply Qfloor_resp_le, Ha. }
  unfold Py.round.
  destruct (Qcompare (x - inject_Z (Qfloor x)) (1 # 2));
    [destruct (Z.even (Qfloor x))| |]; lia.
Qed.

Lemma round_le (b : Z) (x : Q) : x <= inject_Z b -> (Py.round x <= b)%Z.
Proof.
  intros Hb.
  assert (Fb : (Qfloor x <= b)%Z).
  { rewrite <- (Qfloor_Z b). apply Qfloor_resp_le, Hb. }
  unfold Py.round.
  destruct (Qcompare (x - inject_Z (Qfloor x)) (1 # 2)) eqn:C.
  - apply Qeq_alt in C.
    assert (Qfloor x <> b).
    { intros E. rewrite E in C. lra. }
    destruct (Z.even (Qfloor x)); lia.
  - lia.
  - apply Qgt_alt in C.
    assert (Qfloor x <> b).
    { intros E. rewrite E in C. lra. }
    lia.
Qed.

(** Rounding to four decimals does not cross a number with four
    decimals. *)
Lemma round_nd_ge (lo : Z) (x : Q) :
  inject_Z lo / 10000 <= x -> inject_Z lo / 10000 <= Py.round_nd x 4.
Proof.
  intros H. unfold Py.round_nd.
  change (inject_Z (10 ^ Z.of_nat 4)) with 10000.
  assert (R : (lo <= Py.round (x * 10000))%Z).
  { apply round_ge.
    assert (K : inject_Z lo / 10000 * 10000 == inject_Z lo) by (field; lra).
    rewrite <- K. apply Qmult_le_compat_r; [exact H|discriminate]. }
  rewrite Zle_Qle in R.
  apply Qle_shift_div_l; [reflexivity|].
  assert (K : inject_Z lo / 10000 * 10000 == inject_Z lo) by (field; lra).
  rewrite K. exact R.
Qed.

Lemma round_nd_le (hi : Z) (x : Q) :
  x <= inject_Z hi / 10000 -> Py.round_nd x 4 <= inject_Z hi / 10000.
Proof.
  intros H. unfold Py.round_nd.
  change (inject_Z (10 ^ Z.of_nat 4)) with 10000.
  assert (K : inject_Z hi / 10000 * 10000 == inject_Z hi) by (field; lra).
  assert (R : (Py.round (x * 10000) <= hi)%Z).
  { apply round_le. rewrite <- K.
    apply Qmult_le_compat_r; [exact H|discriminate]. }
  rewrite Zle_Qle in R.
  apply Qle_shift_div_r; [reflexivity|].
  rewrite K. exact R.
Qed.

(** The sum and the mean of numbers between two bounds. *)
Lemma sum_between a b l : forall acc,
  Forall (fun q => a <= q <= b) l ->
  acc + a * Py.len l <= List.fold_left Qplus l acc
  /\ List.fold_left Qplus l acc <= acc + b * Py.len l.
Proof.
  unfold Py.len.
  induction l as [|x l IH]; intros acc H; cbn [fold_left List.length].
  - change (inject_Z (Z.of_nat 0)) with 0. split; lra.
  - inversion H as [|? ? Hx Hl]; subst.
    destruct (IH (acc + x) Hl) as [I1 I2].
    rewrite Nat2Z.inj_succ, <- Z.add_1_r, inject_Z_plus.
    change (inject_Z 1) with 1.
    set (n := inject_Z (Z.of_nat (List.length l))) in *. clearbody n.
    split; lra.
Qed.

Lemma mean_between a b x l :
  Forall (fun q => a <= q <= b) (x :: l) ->
  a <= Py.sum (x :: l) / Py.len (x :: l) <= b.
Proof.
  intros H. unfold Py.sum.
  destruct (sum_between a b (x :: l) 0 H) as [H1 H2].
  assert (Hn : 0 < Py.len (x :: l)).
  { unfold Py.len. change 0 with (inject_Z 0). rewrite <- Zlt_Qlt.
    cbn [List.length]. lia. }
  set (n := Py.len (x :: l)) in *. clearbody n.
  set (s := fold_left Qplus (x :: l) 0) in *. clearbody s.
  split.
  - apply Qle_shift_div_l; [exact Hn|]. lra.
  - apply Qle_shift_div_r; [exact Hn|]. lra.
Qed.

(** The mean of numbers of a band rounded to four decimals. *)
Lemma rounded_mean_between (lo hi : Z) x l :
  Forall (fun q => inject_Z lo / 10000 <= q <= inject_Z hi / 10000) (x :: l) ->
  inject_Z lo / 10000 <= Py.round_nd (Py.sum (x :: l) / Py.len (x :: l)) 4
  /\ Py.round_nd (Py.sum (x :: l) / Py.len (x :: l)) 4 <= inject_Z hi / 10000.
Proof.
  intros H. destruct (mean_between _ _ x l H) as [H1 H2].
  split; [apply round_nd_ge, H1|apply round_nd_le, H2].
Qed.

(** *** Dictionaries *)

Section DictFacts.
Context {V : Type}.
Implicit Types (d : list (pystr * V)) (k : pystr) (v : V).

Lemma dict_set_not_nil k v d : Py.dict_set eqb k v d <> [].
Proof. destruct d as [|[k' v'] d]; cbn; [|destruct (eqb k k')]; discriminate. Qed.

Lemma dict_get_In k v d : Py.dict_get eqb k d = Some v -> In (k, v) d.
Proof.
  induction d as [|[k' v'] d IH]; cbn; [discriminate|].
  destruct (eqb k k') eqn:E.
  - apply PyStrFacts.eqb_eq in E. intros [= <-]. left. congruence.
  - auto.
Qed.

Lemma dict_set_In k v d k0 v0 :
  In (k0, v0) (Py.dict_set eqb k v d) ->
  (k0 = k /\ v0 = v) \/ In (k0, v0) d.
Proof.
  induction d as [|[k' v'] d IH]; cbn.
  - intros [[= <- <-]|[]]. auto.
  - destruct (eqb k k') eqn:E; cbn.
    + intros [[= <- <-]|H]; auto.
    + intros [H|H]; auto. destruct (IH H); auto.
Qed.

Lemma dict_set_keys k v d :
  NoDup (List.map fst d) -> NoDup (List.map fst (Py.dict_set eqb k v d)).
Proof.
  induction d as [|[k' v'] d IH]; cbn; intros H.
  - constructor; [intros []|constructor].
  - inversion H as [|? ? Hn Hd]; subst. destruct (eqb k k') eqn:E; cbn.
    + apply PyStrFacts.eqb_eq in E. subst. constructor; assumption.
    + constructor; [|apply IH, Hd]. intros K. apply in_map_iff in K.
      destruct K as ([k0 v0] & E0 & K). cbn in E0. subst.
      apply dict_set_In in K. destruct K as [[-> _]|K].
      * rewrite PyStrFacts.eqb_refl in E. discriminate.
      * apply Hn. apply in_map_iff. exists (k', v0). auto.
Qed.

Lemma dict_In_get k v d :
  NoDup (List.map fst d) -> In (k, v) d -> Py.dict_get eqb k d = Some v.
Proof.
  induction d as [|[k' v'] d IH]; cbn; intros Hnd Hin; [destruct Hin|].
  inversion Hnd as [|? ? Hn Hd]; subst.
  destruct Hin as [[= -> ->]|Hin].
  - rewrite PyStrFacts.eqb_refl. reflexivity.
  - destruct (eqb k k') eqn:E; [|apply IH; assumption].
    apply PyStrFacts.eqb_eq in E. subst k'. exfalso. apply Hn.
    apply in_map_iff. exists (k, v). auto.
Qed.

Lemma dict_get_set_same k v d :
  Py.dict_get eqb k (Py.dict_set eqb k v d) = Some v.
Proof.
  induction d as [|[k' v'] d IH]; cbn.
  - rewrite PyStrFacts.eqb_refl. reflexivity.
  - destruct (eqb k k') eqn:E; cbn.
    + rewrite PyStrFacts.eqb_refl. reflexivity.
    + rewrite E. exact IH.
Qed.

Lemma dict_get_set_other k k0 v d :
  k0 <> k -> Py.dict_get eqb k0 (Py.dict_set eqb k v d) = Py.dict_get eqb k0 d.
Proof.
  intros Hne. apply PyStrFacts.eqb_neq in Hne.
  induction d as [|[k' v'] d IH]; cbn.
  - rewrite Hne. reflexivity.
  - destruct (eqb k k') eqn:E; cbn.
    + apply PyStrFacts.eqb_eq in E. subst k'. rewrite Hne. reflexivity.
    + rewrite IH. reflexivity.
Qed.

(** A measure summed over a dictionary, when one entry is set. *)
Lemma dict_set_total (m : V -> Z) k v default d :
  m default = 0%Z ->
  List.fold_right (fun kv acc => (m (snd kv) + acc)%Z) 0%Z
    (Py.dict_set eqb k v d)
  = (List.fold_right (fun kv acc => (m (snd kv) + acc)%Z) 0%Z d
     - m (Py.dict_get_default eqb k default d) + m v)%Z.
Proof.
  intros H0. unfold Py.dict_get_default.
  induction d as [|[k' v'] d IH]; cbn.
  - lia.
  - destruct (eqb k k'); cbn; lia.
Qed.

End DictFacts.

(** *** Tables *)

Section TableFacts.
Context {R : Type} (key : R -> pystr) (update : R -> R -> R).
Hypothesis update_key : forall old new, key (update old new) = key old.

Lemma select_upsert_other name new table :
  key new <> name ->
  Py.select key name (Py.upsert key update new table)
  = Py.select key name table.
Proof.
  intros Hne. unfold Py.select.
  induction table as [|old rest IH]; cbn.
  - destruct (eqb name (key new)) eqn:E; [|reflexivity].
    apply PyStrFacts.eqb_eq in E. congruence.
  - destruct (eqb (key new) (key old)) eqn:E; cbn.
    + rewrite update_key. apply PyStrFacts.eqb_eq in E. rewrite <- E.
      replace (eqb name (key new)) with false; [reflexivity|].
      symmetry. apply PyStrFacts.eqb_neq. congruence.
    + rewrite IH. reflexivity.
Qed.

(** After an upsert the row of that key is the new one, or the old
    one updated. *)
Lemma select_upsert_same new table :
  exists row,
    Py.select key (key new) (Py.upsert key update new table) = Some row
    /\ (row = new \/ exists old, row = update old new).
Proof.
  unfold Py.select. induction table as [|old rest IH]; cbn.
  - rewrite PyStrFacts.eqb_refl. eauto.
  - destruct (eqb (key new) (key old)) eqn:E; cbn.
    + rewrite update_key, E. eauto.
    + rewrite E. exact IH.
Qed.

(** Writing a dictionary with distinct keys row by row. *)
Section Writes.
Context {A : Type} (row_of : pystr -> A -> R).
Hypothesis row_key : forall k a, key (row_of k a) = k.

Lemma select_writes_other (entries : list (pystr * A)) :
  forall table name,
    ~ In name (List.map fst entries) ->
    Py.select key name (Py.write_all key update row_of entries table)
    = Py.select key name table.
Proof.
  induction entries as [|[k a] entries IH]; intros table name Hn;
    [reflexivity|].
  unfold Py.write_all in *. cbn [fold_left].
  rewrite IH by (intros K; apply Hn; now right).
  cbn [fst snd]. apply select_upsert_other.
  rewrite row_key. intros ->. apply Hn. now left.
Qed.

Lemma select_after_writes (entries : list (pystr * A)) :
  forall table k a,
    NoDup (List.map fst entries) -> In (k, a) entries ->
    exists row,
      Py.select key k (Py.write_all key update row_of entries table) = Some row
      /\ (row = row_of k a \/ exists old, row = update old (row_of k a)).
Proof.
  induction entries as [|[k' a'] entries IH]; intros table k a Hnd Hin;
    [destruct Hin|].
  cbn in Hnd. inversion Hnd as [|? ? Hn Hd]; subst.
  destruct Hin as [[= -> ->]|Hin];
    [|unfold Py.write_all in *; cbn [fold_left]; apply IH; assumption].
  change (Py.write_all key update row_of ((k, a) :: entries) table)
    with (Py.write_all key update row_of entries
            (Py.upsert key update (row_of k a) table)).
  rewrite select_writes_other by exact Hn.
  destruct (select_upsert_same (row_of k a) table) as (row & Hs & Hrow).
  rewrite row_key in Hs. eauto.
Qed.

End Writes.

End TableFacts.

End PyFacts.

(** ** The name normalizer: idempotence *)

Module NormalizerClaims.
Import NormalizerFacts Samples.

(** C4 as stated fails: the name U+0131 "nc" normalizes to "Inc" (the
    title case of the dotless i is the ASCII capital I), and "Inc"
    is a suffix word, so a second pass gives "Unknown". *)
Lemma normalize_not_idempotent_dotless_i :
  normalize_company_name (Some dotless_inc) = str "Inc"
  /\ normalize_company_name (Some (normalize_company_name (Some dotless_inc)))
     = Unknown
  /\ normalize_company_name (Some (normalize_company_name (Some dotless_inc)))
     <> normalize_company_name (Some dotless_inc).
Proof. vm_compute. repeat split. discriminate. Qed.

(** C4, amended: on ASCII names the normalizer is idempotent, that is
    [normalize (normalize x) = normalize x], and the empty string and
    [None] both give the sentinel "Unknown". *)
Theorem normalize_idempotent_ascii (x : option pystr) :
  ascii_name x ->
  normalize_company_name (Some (normalize_company_name x))
  = normalize_company_name x
  /\ normalize_company_name (Some []) = Unknown
  /\ normalize_company_name None = Unknown.
Proof.
  intros H. split; [|split; reflexivity].
  destruct x as [s|]; [|apply normalize_Unknown].
  apply normalize_idempotent_on_ascii, H.
Qed.

Lemma normalize_idempotent_ascii_witness :
  ascii_name (Some (str "ABC Tech Solutions Ltd"))
  /\ normalize_company_name
       (Some (normalize_company_name (Some (str "ABC Tech Solutions Ltd"))))
     = normalize_company_name (Some (str "ABC Tech Solutions Ltd")).
Proof.
  assert (H : ascii_name (Some (str "ABC Tech Solutions Ltd")))
    by (cbn; repeat constructor).
  split; [exact H|].
  exact (proj1 (normalize_idempotent_ascii (Some (str "ABC Tech Solutions Ltd")) H)).
Defined.

End NormalizerClaims.

(** ** The award-record store: duplicates *)

Module StoreClaims.
Import Samples.

Lemma save_new_appends rec db :
  List.existsb (same_ocid rec) (award_records db) = false ->
  award_records (save_award_record rec db) = award_records db ++ [rec].
Proof. intros H. unfold save_award_record. rewrite H. reflexivity. Qed.

(** C9: saving a record whose contract id is already stored leaves the
    database as it is: every stored row keeps its fields and the
    number of rows does not change. *)
Theorem save_duplicate_is_noop (rec : AwardRecord) (db : Db) :
  (exists r, In r (award_records db) /\ ocid r = ocid rec) ->
  save_award_record rec db = db
  /\ award_records (save_award_record rec db) = award_records db
  /\ List.length (award_records (save_award_record rec db))
     = List.length (award_records db).
Proof.
  intros (r & Hin & Hid).
  assert (E : save_award_record rec db = db).
  { unfold save_award_record.
    replace (existsb (same_ocid rec) (award_records db)) with true;
      [reflexivity|].
    symmetry. apply existsb_exists. exists r. split; [exact Hin|].
    unfold same_ocid. rewrite Hid. apply PyStrFacts.eqb_refl. }
  rewrite E. auto.
Qed.

Lemma save_duplicate_is_noop_witness :
  save_award_record duplicate db_tie = db_tie
  /\ winning_company duplicate <> str "Alpha Systems Ltd".
Proof.
  split; [|vm_compute; discriminate].
  apply (save_duplicate_is_noop duplicate db_tie).
  eexists. split; [left; reflexivity|reflexivity].
Defined.

End StoreClaims.

(** ** Competitor profiles *)

Module CompetitorFacts.
Import Competitors Spec PyFacts.

Lemma append_known_spec l x : Competitors.append_known l x = l ++ known x.
Proof.
  unfold Competitors.append_known, known, zero_as_null, Py.truthy.
  destruct x as [q|]; [|symmetry; apply app_nil_r].
  destruct (Qeq_bool q 0); cbn; [symmetry; apply app_nil_r|reflexivity].
Qed.

Lemma append_known_zero_as_null l x :
  Competitors.append_known l (zero_as_null x) = Competitors.append_known l x.
Proof.
  rewrite !append_known_spec. f_equal. unfold known, zero_as_null.
  destruct x as [q|]; [|reflexivity].
  destruct (Qeq_bool q 0) eqn:E; [reflexivity|]. rewrite E. reflexivity.
Qed.

Lemma aggregate_snoc l a : aggregate (l ++ [a]) = add_award (aggregate l) a.
Proof. unfold aggregate. rewrite fold_left_app. reflexivity. Qed.

Lemma wins_sum_add_award profiles a :
  wins_sum (add_award profiles a) = (wins_sum profiles + 1)%Z.
Proof.
  unfold add_award, wins_sum.
  set (name := normalize_company_name (Some (winning_company a))).
  rewrite (dict_set_total ca_total_wins name _ (new_profile name)) by reflexivity.
  cbn [ca_total_wins]. lia.
Qed.

Lemma wins_sum_fold awards : forall acc,
  wins_sum (List.fold_left add_award awards acc)
  = (wins_sum acc + Z.of_nat (List.length awards))%Z.
Proof.
  induction awards as [|a l IH]; intros acc; cbn [fold_left List.length].
  - lia.
  - rewrite IH, wins_sum_add_award. lia.
Qed.

Lemma add_award_well_formed profiles a :
  well_formed profiles -> well_formed (add_award profiles a).
Proof.
  intros [Hk Hw]. unfold add_award.
  set (name := normalize_company_name (Some (winning_company a))).
  split; [apply dict_set_keys, Hk|].
  intros k p Hin. apply dict_set_In in Hin. destruct Hin as [[_ ->]|Hin];
    [|eapply Hw, Hin].
  cbn [ca_total_wins]. unfold Py.dict_get_default.
  destruct (Py.dict_get eqb name profiles) as [q|] eqn:G.
  - apply dict_get_In in G. apply Hw in G. lia.
  - cbn. lia.
Qed.

Lemma aggregate_well_formed awards : well_formed (aggregate awards).
Proof.
  unfold aggregate.
  assert (H : well_formed []) by (split; [constructor|intros ? ? []]).
  revert H. generalize (@nil (pystr * CompetitorAgg)) as acc.
  induction awards as [|a l IH]; intros acc H; cbn [fold_left]; [exact H|].
  apply IH, add_award_well_formed, H.
Qed.

Lemma add_award_reads_wins seen acc a :
  reads_wins seen acc -> reads_wins (seen ++ [a]) (add_award acc a).
Proof.
  unfold reads_wins, add_award, group_of. intros Hr name.
  set (key := normalize_company_name (Some (winning_company a))).
  rewrite filter_app. cbn [filter]. fold key.
  destruct (eqb key name) eqn:E.
  - apply PyStrFacts.eqb_eq in E. subst name.
    rewrite dict_get_set_same. cbn [ca_prices ca_ratios ca_total_wins].
    unfold known_ratios, known_prices.
    rewrite !flat_map_app, length_app. cbn [flat_map List.length].
    rewrite !app_nil_r, !append_known_spec. specialize (Hr key).
    unfold Py.dict_get_default.
    destruct (Py.dict_get eqb key acc) as [p|].
    + destruct Hr as (-> & -> & ->). repeat split; try reflexivity; lia.
    + rewrite Hr. cbn. repeat split; reflexivity.
  - apply PyStrFacts.eqb_neq in E.
    rewrite dict_get_set_other by congruence. rewrite app_nil_r. apply Hr.
Qed.

Lemma fold_reads_wins l : forall seen acc,
  reads_wins seen acc -> reads_wins (seen ++ l) (List.fold_left add_award l acc).
Proof.
  induction l as [|a l IH]; intros seen acc Hr; cbn [fold_left].
  - rewrite app_nil_r. exact Hr.
  - replace (seen ++ a :: l) with ((seen ++ [a]) ++ l)
      by (rewrite <- app_assoc; reflexivity).
    apply IH, add_award_reads_wins, Hr.
Qed.

Lemma aggregate_reads_wins awards : reads_wins awards (aggregate awards).
Proof.
  apply (fold_reads_wins awards [] []). intros name. reflexivity.
Qed.

Lemma aggregate_not_nil awards : awards <> [] -> aggregate awards <> [].
Proof.
  intros H. destruct (exists_last H) as (l & a & ->).
  rewrite aggregate_snoc. unfold add_award. apply dict_set_not_nil.
Qed.

Lemma fold_max_spec ws : forall w,
  In (List.fold_left Z.max ws w) (w :: ws)
  /\ forall y, In y (w :: ws) -> (y <= List.fold_left Z.max ws w)%Z.
Proof.
  induction ws as [|x ws IH]; intros w; cbn [fold_left].
  - split; [now left|]. intros y [<-|[]]. lia.
  - destruct (IH (Z.max w x)) as [H1 H2]. split.
    + destruct H1 as [H1|H1]; [|now right; right].
      rewrite <- H1. destruct (Z.max_spec w x) as [[_ ->]|[_ ->]];
        [now right; left|now left].
    + intros y [<-|[<-|Hy]].
      * specialize (H2 _ (or_introl eq_refl)). lia.
      * specialize (H2 _ (or_introl eq_refl)). lia.
      * apply H2. now right.
Qed.

(** [total_wins_max] is the largest win count, and some profile has
    it. *)
Lemma total_wins_max_spec profiles :
  profiles <> [] ->
  (forall name p, In (name, p) profiles ->
     (ca_total_wins p <= total_wins_max profiles)%Z)
  /\ exists name p, In (name, p) profiles
                    /\ ca_total_wins p = total_wins_max profiles.
Proof.
  intros Hne. unfold total_wins_max.
  destruct profiles as [|[k0 p0] rest]; [congruence|].
  cbn [List.map snd].
  destruct (fold_max_spec (List.map (fun kv => ca_total_wins (snd kv)) rest)
              (ca_total_wins p0)) as [Hin Hmax].
  split.
  - intros name p H. apply Hmax.
    change (ca_total_wins p0 :: List.map (fun kv => ca_total_wins (snd kv)) rest)
      with (List.map (fun kv => ca_total_wins (snd kv)) ((k0, p0) :: rest)).
    apply in_map_iff. exists (name, p). auto.
  - destruct Hin as [Hin|Hin].
    + exists k0, p0. split; [now left|exact Hin].
    + apply in_map_iff in Hin. destruct Hin as ([k p] & E & Hin).
      exists k, p. split; [now right|exact E].
Qed.

Lemma threat_unit wins_max p :
  (1 <= ca_total_wins p <= wins_max)%Z -> 0 <= threat wins_max p <= 1.
Proof.
  intros [H1 H2]. unfold threat.
  assert (Hm : 0 < inject_Z wins_max).
  { change 0 with (inject_Z 0). rewrite <- Zlt_Qlt. lia. }
  assert (Hn : 0 <= inject_Z (ca_total_wins p)).
  { change 0 with (inject_Z 0). rewrite <- Zle_Qle. lia. }
  assert (Hq : 0 <= inject_Z (ca_total_wins p) / inject_Z wins_max).
  { apply Qle_shift_div_l; [exact Hm|]. lra. }
  destruct (min2_spec 1 (inject_Z (ca_total_wins p) / inject_Z wins_max))
    as (Ha & _ & [E|E]); rewrite E in *; lra.
Qed.

Lemma threat_top wins_max p :
  (1 <= wins_max)%Z -> ca_total_wins p = wins_max -> threat wins_max p == 1.
Proof.
  intros H1 E0. unfold threat. rewrite E0.
  assert (Hm : 0 < inject_Z wins_max).
  { change 0 with (inject_Z 0). rewrite <- Zlt_Qlt. lia. }
  assert (E : inject_Z wins_max / inject_Z wins_max == 1) by (field; lra).
  destruct (min2_spec 1 (inject_Z wins_max / inject_Z wins_max))
    as (_ & _ & [-> | ->]); [reflexivity|exact E].
Qed.

(** The row of a rebuilt profile after the run. *)
Lemma competitor_rebuilt_row db name p :
  In (name, p) (snd (rebuild_competitor_profiles db)) ->
  exists row,
    get_row name (competitor_profiles (fst (rebuild_competitor_profiles db)))
    = Some row
    /\ cr_total_wins row = ca_total_wins p
    /\ cr_threat_score row
       = Py.round_nd
           (threat (total_wins_max (snd (rebuild_competitor_profiles db))) p) 3.
Proof.
  cbn [rebuild_competitor_profiles fst snd competitor_profiles]. intros Hin.
  set (profiles := aggregate (filter selected (award_records db))) in *.
  destruct (aggregate_well_formed (filter selected (award_records db)))
    as [Hk _]. fold profiles in Hk.
  destruct (select_after_writes cr_company_name update
              (fun old new => eq_refl)
              (values (total_wins_max profiles)) (fun k a => eq_refl)
              profiles (competitor_profiles db) name p Hk Hin)
    as (row & Hs & Hrow).
  exists row. split; [exact Hs|].
  destruct Hrow as [->|[old ->]]; split; reflexivity.
Qed.

End CompetitorFacts.

Module CompetitorClaims.
Import Competitors Spec PyFacts CompetitorFacts Samples.

(** C5: after a rebuild the [total_wins] of the rebuilt profiles add up
    to the number of award records whose winner is not "Unknown". *)
Theorem total_wins_sum_is_award_count (db : Db) :
  wins_sum (snd (rebuild_competitor_profiles db))
  = Z.of_nat
      (List.length
         (List.filter (fun a => negb (eqb (winning_company a) Unknown))
            (award_records db))).
Proof.
  cbn [rebuild_competitor_profiles snd]. unfold aggregate.
  rewrite wins_sum_fold. reflexivity.
Qed.

(** C6 fails on the code: the stored name "Co. Ltd" is not the text
    "Unknown", so the query keeps the record; the normalizer then
    resolves it to "Unknown", and the rebuild produces a profile keyed
    "Unknown" with one win, in the returned profiles and in the
    table. *)
Theorem suffix_only_winner_yields_unknown_profile :
  List.map winning_company (award_records db_suffix_only) = [str "Co. Ltd"]
  /\ normalize_company_name (Some (str "Co. Ltd")) = Unknown
  /\ List.map (fun kv => (fst kv, ca_total_wins (snd kv)))
       (snd (rebuild_competitor_profiles db_suffix_only))
     = [(Unknown, 1%Z)]
  /\ option_map cr_total_wins
       (get_row Unknown
          (competitor_profiles (fst (rebuild_competitor_profiles db_suffix_only))))
     = Some 1%Z.
Proof. vm_compute. repeat split. Qed.

(** C1 as stated fails: with two competitors of one win each, both
    rebuilt rows carry the threat score 1.0. *)
Lemma tie_gives_two_top_threats :
  (exists a, In a (award_records db_tie) /\ winning_company a <> Unknown)
  /\ List.length
       (top_threats
          (competitor_profiles (fst (rebuild_competitor_profiles db_tie))))
     = 2%nat.
Proof.
  split; [|vm_compute; reflexivity].
  eexists. split; [left; reflexivity|]. vm_compute. discriminate.
Qed.

(** C1, amended: after a rebuild on a store with at least one award
    whose winner is not "Unknown", the threat score of every rebuilt
    profile lies in [0,1]; no profile has more wins than
    [total_wins_max]; every profile whose win count equals that maximum
    has the threat score 1.0, and there is such a profile. *)
Theorem threat_scores_after_rebuild (db : Db) :
  (exists a, In a (award_records db) /\ winning_company a <> Unknown) ->
  let db' := fst (rebuild_competitor_profiles db) in
  let profiles := snd (rebuild_competitor_profiles db) in
  (forall name p, In (name, p) profiles ->
     exists row,
       get_row name (competitor_profiles db') = Some row
       /\ 0 <= cr_threat_score row <= 1
       /\ (ca_total_wins p <= total_wins_max profiles)%Z
       /\ (ca_total_wins p = total_wins_max profiles ->
           cr_threat_score row == 1))
  /\ (exists name p, In (name, p) profiles
                     /\ ca_total_wins p = total_wins_max profiles).
Proof.
  intros (a & Hin & Hw) db' profiles.
  assert (Hne : profiles <> []).
  { apply aggregate_not_nil. intros E.
    assert (K : In a (filter selected (award_records db))).
    { apply filter_In. split; [exact Hin|]. unfold selected.
      apply negb_true_iff, PyStrFacts.eqb_neq, Hw. }
    rewrite E in K. destruct K. }
  destruct (total_wins_max_spec profiles Hne) as [Hmax Htop].
  split; [|exact Htop].
  intros name p Hp.
  destruct (competitor_rebuilt_row db name p Hp) as (row & Hs & _ & Ht).
  fold profiles in Ht. fold db' in Hs.
  exists row. split; [exact Hs|].
  assert (H1 : (1 <= ca_total_wins p)%Z).
  { eapply (proj2 (aggregate_well_formed (filter selected (award_records db)))).
    exact Hp. }
  specialize (Hmax _ _ Hp). rewrite Ht. split; [|split; [exact Hmax|]].
  - apply round_nd_unit, threat_unit. lia.
  - intros E. apply round_nd_one, threat_top; [lia|exact E].
Qed.

Lemma threat_scores_after_rebuild_witness :
  exists row,
    get_row (str "Alpha Systems")
      (competitor_profiles (fst (rebuild_competitor_profiles db_tie)))
    = Some row
    /\ 0 <= cr_threat_score row <= 1.
Proof.
  assert (H : exists a, In a (award_records db_tie)
                        /\ winning_company a <> Unknown).
  { eexists. split; [left; reflexivity|]. vm_compute. discriminate. }
  destruct (proj1 (threat_scores_after_rebuild db_tie H) (str "Alpha Systems")
              (Py.dict_get_default eqb (str "Alpha Systems")
                 (new_profile [])
                 (snd (rebuild_competitor_profiles db_tie))))
    as (row & Hs & Hb & _).
  - vm_compute. left. reflexivity.
  - exists row. split; [exact Hs|exact Hb].
Defined.

End CompetitorClaims.

(** ** PE profiles *)

Module PEFacts.
Import PE Spec PyFacts CompetitorFacts.

Lemma fold_step_None l : List.fold_left step l None = None.
Proof. induction l as [|a l IH]; [reflexivity|exact IH]. Qed.

Lemma add_award_reads seen acc a acc' :
  reads seen acc -> add_award acc a = Some acc' -> reads (seen ++ [a]) acc'.
Proof.
  intros [Hk Hr]. unfold add_award.
  destruct (award_months (award_date a)) as [months|]; [|discriminate].
  intros [= <-]. split; [apply dict_set_keys, Hk|].
  intros name. unfold awards_of in *. rewrite filter_app. cbn [filter].
  destruct (eqb (pe_name a) name) eqn:E.
  - apply PyStrFacts.eqb_eq in E. subst name.
    rewrite dict_get_set_same. cbn [pa_ratios pa_awards pa_prices].
    unfold known_ratios, known_prices.
    rewrite !flat_map_app, length_app. cbn [flat_map List.length].
    rewrite !app_nil_r, !append_known_spec. specialize (Hr (pe_name a)).
    unfold Py.dict_get_default.
    destruct (Py.dict_get eqb (pe_name a) acc) as [d|].
    + destruct Hr as (-> & -> & ->). repeat split; try reflexivity; lia.
    + rewrite Hr. cbn. repeat split; reflexivity.
  - apply PyStrFacts.eqb_neq in E.
    rewrite dict_get_set_other by congruence. rewrite app_nil_r. apply Hr.
Qed.

Lemma fold_reads l : forall seen acc pe_data,
  reads seen acc -> List.fold_left step l (Some acc) = Some pe_data ->
  reads (seen ++ l) pe_data.
Proof.
  induction l as [|a l IH]; intros seen acc pe_data Hr; cbn [fold_left].
  - intros [= <-]. rewrite app_nil_r. exact Hr.
  - cbn [step]. destruct (add_award acc a) as [acc'|] eqn:E.
    + intros H. replace (seen ++ a :: l) with ((seen ++ [a]) ++ l)
        by (rewrite <- app_assoc; reflexivity).
      eapply IH; [|exact H]. eapply add_award_reads; eassumption.
    + rewrite fold_step_None. discriminate.
Qed.

Lemma aggregate_reads awards pe_data :
  aggregate awards = Some pe_data -> reads awards pe_data.
Proof.
  intros H. apply (fold_reads awards [] []); [|exact H].
  split; [constructor|]. intros name. reflexivity.
Qed.

(** The row of a buyer after the run. *)
Lemma pe_rebuilt_row db db' pe_data name d :
  rebuild_pe_profiles db = Some (db', pe_data) -> In (name, d) pe_data ->
  exists row,
    get_row name (pe_profiles db') = Some row
    /\ pr_total_awards row = pa_awards d
    /\ pr_avg_price_ratio row = avg_ratio d
    /\ pr_price_sensitivity row = sensitivity (avg_ratio d).
Proof.
  unfold rebuild_pe_profiles.
  destruct (aggregate (award_records db)) as [data|] eqn:A; [|discriminate].
  intros [= <- <-] Hin. cbn [pe_profiles].
  destruct (aggregate_reads _ _ A) as [Hk _].
  destruct (select_after_writes pr_pe_name update (fun old new => eq_refl)
              values (fun k a => eq_refl)
              data (pe_profiles db) name d Hk Hin)
    as (row & Hs & Hrow).
  exists row. split; [exact Hs|].
  destruct Hrow as [->|[old ->]]; repeat split; reflexivity.
Qed.

Lemma digit_cases d :
  is_digit d = true ->
  In d [48; 49; 50; 51; 52; 53; 54; 55; 56; 57]%N.
Proof.
  unfold is_digit. rewrite andb_true_iff, !N.leb_le. intros [H1 H2].
  assert (H : (d = 48 \/ d = 49 \/ d = 50 \/ d = 51 \/ d = 52 \/ d = 53
               \/ d = 54 \/ d = 55 \/ d = 56 \/ d = 57)%N) by lia.
  cbn. intuition auto.
Qed.

Lemma int_two_digits d1 d2 :
  is_digit d1 = true -> is_digit d2 = true -> Py.int [d1; d2] <> None.
Proof.
  intros H1 H2. apply digit_cases in H1, H2. cbn in H1, H2.
  repeat (destruct H1 as [<-|H1]);
    repeat (destruct H2 as [<-|H2]);
    try contradiction; vm_compute; discriminate.
Qed.

Lemma well_dated_months a :
  well_dated a -> award_months (award_date a) <> None.
Proof.
  unfold award_months. intros [H|(d1 & d2 & E & H1 & H2)].
  - replace (7 <=? List.length (award_date a))%nat with false;
      [discriminate|].
    symmetry. apply Nat.leb_gt. exact H.
  - destruct (7 <=? List.length (award_date a))%nat; [|discriminate].
    rewrite E. pose proof (int_two_digits d1 d2 H1 H2) as K.
    destruct (Py.int [d1; d2]); [discriminate|congruence].
Qed.

(** With readable dates the loop does not raise. *)
Lemma fold_step_Some awards :
  Forall well_dated awards -> forall acc,
  exists pe_data, List.fold_left step awards (Some acc) = Some pe_data.
Proof.
  induction 1 as [|a l Ha Hl IH]; intros acc; cbn [fold_left].
  - eauto.
  - cbn [step]. unfold add_award.
    destruct (award_months (award_date a)) as [months|] eqn:E;
      [apply IH|].
    exfalso. exact (well_dated_months a Ha E).
Qed.

Lemma rebuild_returns db :
  Forall well_dated (award_records db) ->
  exists db' pe_data, rebuild_pe_profiles db = Some (db', pe_data).
Proof.
  intros H. unfold rebuild_pe_profiles, aggregate.
  destruct (fold_step_Some _ H []) as [pe_data E].
  change (fold_left step (award_records db) (Some [])) with
    (fold_left
       (fun acc a => match acc with Some d => add_award d a | None => None end)
       (award_records db) (Some [])) in E.
  rewrite E. eauto.
Qed.

Lemma sensitivity_spec avg_r :
  (avg_r < 0.88 -> sensitivity avg_r = HIGH)
  /\ (0.96 < avg_r -> sensitivity avg_r = LOW)
  /\ (0.88 <= avg_r <= 0.96 -> sensitivity avg_r = MEDIUM).
Proof.
  unfold sensitivity.
  destruct (Py.ltb avg_r 0.88) eqn:E1; [apply ltb_lt in E1|apply ltb_ge in E1];
    (destruct (Py.ltb 0.96 avg_r) eqn:E2;
     [apply ltb_lt in E2|apply ltb_ge in E2]);
    repeat split; intros; try reflexivity; lra.
Qed.

End PEFacts.

Module PEClaims.
Import PE Spec PyFacts PEFacts Samples.

(** C7 as stated fails: three awards of one buyer with ratios 0.8799,
    0.88 and 0.88 have a mean below 0.88, yet the label is MEDIUM,
    because the label is computed from the mean rounded to four
    decimals, which is 0.88. *)
Lemma mean_below_threshold_labelled_medium :
  exists db' pe_data row,
    rebuild_pe_profiles db_sliver = Some (db', pe_data)
    /\ get_row (str "Ministry of X") (pe_profiles db') = Some row
    /\ known_ratios (awards_of (str "Ministry of X") (award_records db_sliver))
       = sliver_ratios
    /\ mean sliver_ratios < 0.88
    /\ pr_price_sensitivity row = MEDIUM
    /\ pr_price_sensitivity row <> HIGH.
Proof.
  eexists _, _, _. split; [vm_compute; reflexivity|].
  split; [vm_compute; reflexivity|].
  split; [vm_compute; reflexivity|].
  split; [vm_compute; reflexivity|].
  split; [reflexivity|discriminate].
Qed.

(** C7, amended: on a store with ASCII award dates, when the PE
    rebuild completes, the row of every buyer with an award whose
    known price ratios are not negative holds the number of the
    buyer's awards and an average price ratio that is 0.93 when no
    ratio is known and otherwise the mean of the known ratios rounded
    to four decimals: it lies in every band between two numbers of
    four decimals (up to 2) that holds all known ratios.  The label is
    HIGH when the stored average is below 0.88, LOW when it is above
    0.96 and MEDIUM otherwise; so it is HIGH when the mean is at most
    0.8799, MEDIUM when the mean lies in [0.88, 0.96] and LOW when the
    mean is at least 0.9601, and in between the rounding decides.  In
    particular two awards of one buyer with ratios 0.90 and 0.94 give
    the average 0.92, the label MEDIUM and two awards. *)
Theorem pe_price_sensitivity (db db' : Db) (pe_data : list (pystr * PEAgg))
  (buyer : pystr)
  (Hrun : rebuild_pe_profiles db = Some (db', pe_data))
  (Hdates : Forall (fun a => is_ascii_str (award_date a)) (award_records db))
  (Hawards : awards_of buyer (award_records db) <> [])
  (Hratios :
     Forall (fun r => 0 <= r)
       (known_ratios (awards_of buyer (award_records db)))) :
  let ratios := known_ratios (awards_of buyer (award_records db)) in
  (exists row,
     get_row buyer (pe_profiles db') = Some row
     /\ pr_total_awards row
        = Z.of_nat (List.length (awards_of buyer (award_records db)))
     /\ (ratios = [] -> pr_avg_price_ratio row = 0.93)
     /\ (forall lo hi : Z,
           ratios <> [] -> (hi <= 20000)%Z ->
           Forall (fun r => inject_Z lo / 10000 <= r <= inject_Z hi / 10000)
             ratios ->
           inject_Z lo / 10000 <= pr_avg_price_ratio row
           /\ pr_avg_price_ratio row <= inject_Z hi / 10000)
     /\ (pr_avg_price_ratio row < 0.88 -> pr_price_sensitivity row = HIGH)
     /\ (0.96 < pr_avg_price_ratio row -> pr_price_sensitivity row = LOW)
     /\ (0.88 <= pr_avg_price_ratio row <= 0.96 ->
         pr_price_sensitivity row = MEDIUM)
     /\ (ratios <> [] -> mean ratios <= 0.8799 ->
         pr_price_sensitivity row = HIGH)
     /\ (ratios <> [] -> 0.88 <= mean ratios <= 0.96 ->
         pr_price_sensitivity row = MEDIUM)
     /\ (ratios <> [] -> 0.9601 <= mean ratios ->
         pr_price_sensitivity row = LOW))
  /\ (exists db2 data2 row2,
        rebuild_pe_profiles db_two_awards = Some (db2, data2)
        /\ get_row (str "Ministry of X") (pe_profiles db2) = Some row2
        /\ pr_avg_price_ratio row2 == 0.92
        /\ pr_price_sensitivity row2 = MEDIUM
        /\ pr_total_awards row2 = 2%Z).
Proof.
  cbn zeta. split.
  - assert (A : aggregate (award_records db) = Some pe_data).
    { unfold rebuild_pe_profiles in Hrun.
      destruct (aggregate (award_records db)); [|discriminate].
      injection Hrun as _ ->. reflexivity. }
    destruct (aggregate_reads _ _ A) as [_ Hreads].
    specialize (Hreads buyer).
    destruct (Py.dict_get eqb buyer pe_data) as [d|] eqn:G; [|contradiction].
    destruct Hreads as (Er & Hn & _).
    destruct (pe_rebuilt_row db db' pe_data buyer d Hrun (dict_get_In _ _ _ G))
      as (row & Hs & Ht & Ha & Hl).
    exists row. split; [exact Hs|].
    split; [rewrite Ht; exact Hn|].
    destruct (sensitivity_spec (pr_avg_price_ratio row)) as (S1 & S2 & S3).
    rewrite <- Ha in Hl. rewrite <- Hl in S1, S2, S3.
    assert (Hv : forall x l,
               known_ratios (awards_of buyer (award_records db)) = x :: l ->
               pr_avg_price_ratio row = Py.round_nd (mean (x :: l)) 4).
    { intros x l E. rewrite Ha. unfold avg_ratio, mean. rewrite Er, E.
      reflexivity. }
    split; [intros E; rewrite Ha; unfold avg_ratio; rewrite Er, E; reflexivity|].
    split.
    { intros lo hi Hne _ Hband.
      destruct (known_ratios (awards_of buyer (award_records db)))
        as [|x l] eqn:E; [contradiction|].
      rewrite (Hv x l eq_refl). unfold mean.
      apply rounded_mean_between, Hband. }
    split; [exact S1|]. split; [exact S2|]. split; [exact S3|].
    split; [|split].
    + intros Hne Hm. apply S1.
      destruct (known_ratios (awards_of buyer (award_records db)))
        as [|x l] eqn:E; [contradiction|].
      rewrite (Hv x l eq_refl).
      apply (Qle_lt_trans _ (inject_Z 8799 / 10000)); [|reflexivity].
      apply round_nd_le. exact Hm.
    + intros Hne [Hm1 Hm2]. apply S3.
      destruct (known_ratios (awards_of buyer (award_records db)))
        as [|x l] eqn:E; [contradiction|].
      rewrite (Hv x l eq_refl). split.
      * apply (Qle_trans _ (inject_Z 8800 / 10000)); [discriminate|].
        apply round_nd_ge.
        apply (Qle_trans _ 0.88); [discriminate|exact Hm1].
      * apply (Qle_trans _ (inject_Z 9600 / 10000)); [|discriminate].
        apply round_nd_le.
        apply (Qle_trans _ 0.96); [exact Hm2|discriminate].
    + intros Hne Hm. apply S2.
      destruct (known_ratios (awards_of buyer (award_records db)))
        as [|x l] eqn:E; [contradiction|].
      rewrite (Hv x l eq_refl).
      apply (Qlt_le_trans _ (inject_Z 9601 / 10000)); [reflexivity|].
      apply round_nd_ge. exact Hm.
  - eexists _, _, _. split; [vm_compute; reflexivity|].
    split; [vm_compute; reflexivity|].
    split; [vm_compute; reflexivity|].
    split; reflexivity.
Qed.

Lemma pe_price_sensitivity_witness :
  exists db' pe_data row,
    rebuild_pe_profiles db_two_awards = Some (db', pe_data)
    /\ get_row (str "Ministry of X") (pe_profiles db') = Some row
    /\ pr_total_awards row = 2%Z
    /\ pr_price_sensitivity row = MEDIUM.
Proof.
  destruct (rebuild_pe_profiles db_two_awards) as [[db' pe_data]|] eqn:E;
    [|vm_compute in E; discriminate].
  assert (Hd : Forall (fun a => is_ascii_str (award_date a))
                 (award_records db_two_awards))
    by (repeat constructor).
  assert (Hb : awards_of (str "Ministry of X") (award_records db_two_awards)
               <> []) by (vm_compute; discriminate).
  assert (Hr : Forall (fun r => 0 <= r)
                 (known_ratios
                    (awards_of (str "Ministry of X")
                       (award_records db_two_awards))))
    by (repeat constructor; discriminate).
  destruct (proj1 (pe_price_sensitivity db_two_awards db' pe_data
                     (str "Ministry of X") E Hd Hb Hr))
    as (row & Hs & Ht & _ & _ & _ & _ & _ & _ & Hm & _).
  exists db', pe_data, row. split; [reflexivity|]. split; [exact Hs|].
  split; [exact Ht|].
  apply Hm; [vm_compute; discriminate|].
  split; vm_compute; discriminate.
Defined.

End PEClaims.

(** ** Zero prices and ratios in the two rebuilds *)

Module ZeroClaims.
Import Spec PyFacts CompetitorFacts PEFacts.

Lemma competitor_add_award_zero profiles a :
  Competitors.add_award profiles (award_zero_as_null a)
  = Competitors.add_award profiles a.
Proof.
  unfold Competitors.add_award. cbn [award_zero_as_null winning_company sector
    pe_name contract_price price_ratio award_date].
  rewrite !append_known_zero_as_null. reflexivity.
Qed.

Lemma competitor_aggregate_zero awards :
  Competitors.aggregate
    (List.filter Competitors.selected (List.map award_zero_as_null awards))
  = Competitors.aggregate (List.filter Competitors.selected awards).
Proof.
  unfold Competitors.aggregate.
  generalize (@nil (pystr * CompetitorAgg)) as acc.
  induction awards as [|a l IH]; intros acc; [reflexivity|].
  cbn [List.map filter].
  change (Competitors.selected (award_zero_as_null a))
    with (Competitors.selected a).
  destruct (Competitors.selected a); cbn [fold_left]; [|apply IH].
  rewrite competitor_add_award_zero. apply IH.
Qed.

Lemma pe_add_award_zero pe_data a :
  PE.add_award pe_data (award_zero_as_null a) = PE.add_award pe_data a.
Proof.
  unfold PE.add_award. cbn [award_zero_as_null winning_company sector
    pe_name contract_price price_ratio award_date].
  rewrite !append_known_zero_as_null. reflexivity.
Qed.

Lemma pe_aggregate_zero awards :
  PE.aggregate (List.map award_zero_as_null awards) = PE.aggregate awards.
Proof.
  unfold PE.aggregate.
  generalize (Some (@nil (pystr * PEAgg))) as acc.
  induction awards as [|a l IH]; intros acc; [reflexivity|].
  cbn [List.map fold_left]. rewrite IH. f_equal.
  destruct acc; [apply pe_add_award_zero|reflexivity].
Qed.

Lemma known_nonzero x : Forall (fun q => ~ q == 0) (known x).
Proof.
  unfold known, zero_as_null. destruct x as [q|]; [|constructor].
  destruct (Qeq_bool q 0) eqn:E; constructor; [|constructor].
  apply Qeq_bool_neq, E.
Qed.

Lemma competitor_lists db :
  Forall
    (fun kv =>
       ca_prices (snd kv) = known_prices (wins_of (fst kv) (award_records db))
       /\ ca_ratios (snd kv)
          = known_ratios (wins_of (fst kv) (award_records db)))
    (snd (Competitors.rebuild_competitor_profiles db)).
Proof.
  apply Forall_forall. intros [name p] Hin. cbn [fst snd] in *.
  set (awards := filter Competitors.selected (award_records db)) in *.
  pose proof (aggregate_reads_wins awards name) as H.
  rewrite (dict_In_get name p _ (proj1 (aggregate_well_formed awards)) Hin) in H.
  destruct H as (Hp & Hr & _). split; assumption.
Qed.

Lemma pe_lists db :
  match PE.rebuild_pe_profiles db with
  | Some (_, pe_data) =>
      Forall
        (fun kv =>
           pa_prices (snd kv)
           = known_prices (awards_of (fst kv) (award_records db))
           /\ pa_ratios (snd kv)
              = known_ratios (awards_of (fst kv) (award_records db)))
        pe_data
  | None => True
  end.
Proof.
  unfold PE.rebuild_pe_profiles.
  destruct (PE.aggregate (award_records db)) as [pe_data|] eqn:A; [|exact I].
  apply Forall_forall. intros [name d] Hin. cbn [fst snd].
  destruct (aggregate_reads _ _ A) as [Hk H]. specialize (H name).
  rewrite (dict_In_get name d _ Hk Hin) in H.
  destruct H as (Hr & _ & Hp). split; assumption.
Qed.

(** C10: in both rebuilds the price list of a profile holds the
    contract prices of its awards that are neither NULL nor zero, and
    the ratio list the price ratios that are neither NULL nor zero; and
    both rebuilds read a zero as they read a missing value: with every
    zero price and ratio replaced by NULL in the store, the returned
    aggregates and the written tables (price range, average contract
    value, average price ratio and price sensitivity included) are the
    same. *)
Theorem zero_price_and_ratio_read_as_missing (db : Db) :
  Forall
    (fun kv =>
       ca_prices (snd kv) = known_prices (wins_of (fst kv) (award_records db))
       /\ ca_ratios (snd kv)
          = known_ratios (wins_of (fst kv) (award_records db)))
    (snd (Competitors.rebuild_competitor_profiles db))
  /\ match PE.rebuild_pe_profiles db with
     | Some (_, pe_data) =>
         Forall
           (fun kv =>
              pa_prices (snd kv)
              = known_prices (awards_of (fst kv) (award_records db))
              /\ pa_ratios (snd kv)
                 = known_ratios (awards_of (fst kv) (award_records db)))
           pe_data
     | None => True
     end
  /\ Forall (fun q => ~ q == 0) (known_prices (award_records db))
  /\ Forall (fun q => ~ q == 0) (known_ratios (award_records db))
  /\ snd (Competitors.rebuild_competitor_profiles (db_zero_as_null db))
     = snd (Competitors.rebuild_competitor_profiles db)
  /\ competitor_profiles
       (fst (Competitors.rebuild_competitor_profiles (db_zero_as_null db)))
     = competitor_profiles (fst (Competitors.rebuild_competitor_profiles db))
  /\ option_map snd (PE.rebuild_pe_profiles (db_zero_as_null db))
     = option_map snd (PE.rebuild_pe_profiles db)
  /\ option_map (fun r => pe_profiles (fst r))
       (PE.rebuild_pe_profiles (db_zero_as_null db))
     = option_map (fun r => pe_profiles (fst r)) (PE.rebuild_pe_profiles db).
Proof.
  split; [apply competitor_lists|]. split; [apply pe_lists|].
  split; [apply Forall_flat_map, Forall_forall; intros; apply known_nonzero|].
  split; [apply Forall_flat_map, Forall_forall; intros; apply known_nonzero|].
  unfold Competitors.rebuild_competitor_profiles, PE.rebuild_pe_profiles.
  cbn [fst snd db_zero_as_null award_records competitor_profiles pe_profiles].
  rewrite competitor_aggregate_zero, pe_aggregate_zero.
  repeat split; destruct (PE.aggregate (award_records db)); reflexivity.
Qed.

(** A zero price or ratio adds nothing to the lists. *)
Lemma zero_is_not_appended l q :
  q == 0 -> Competitors.append_known l (Some q) = l.
Proof.
  intros H. unfold Competitors.append_known, Py.truthy.
  rewrite (Qeq_eq_bool _ _ H). reflexivity.
Qed.

End ZeroClaims.

(** ** The Tender Prediction Score *)

Module TPSFacts.
Import TPS Spec PyFacts.

Lemma tps_raw_unit (scores : Factor -> Q) :
  (forall f, 0 <= scores f <= 1) -> 0 <= tps_raw scores <= 1.
Proof.
  intros H. unfold tps_raw, TPS_WEIGHTS. cbn [fold_left fst snd].
  pose proof (H capability_match). pose proof (H historical_win_rate).
  pose proof (H pe_favorability). pose proof (H price_competitiveness).
  pose proof (H competitor_density). pose proof (H compliance_readiness).
  pose proof (H seasonal_timing). lra.
Qed.

Lemma max2_Qmax a b : Py.max2 a b == Qmax a b.
Proof.
  apply Q.max_unicity. unfold Py.max2.
  destruct (Py.ltb a b) eqn:E; [apply ltb_lt in E|apply ltb_ge in E].
  - left. split; [exact E|reflexivity].
  - right. split; [exact E|reflexivity].
Qed.

Lemma capability_unit sec company : 0 <= capability sec company <= 1.
Proof.
  unfold capability. destruct (mem sec _); [lra|].
  destruct (existsb _ _); lra.
Qed.

Lemma historical_unit sec db : 0 <= historical sec db <= 1.
Proof.
  unfold historical.
  set (total := Z.of_nat (List.length (in_sector sec db))).
  assert (Ht : 0 <= inject_Z total).
  { change 0 with (inject_Z 0). rewrite <- Zle_Qle. unfold total. lia. }
  destruct (5 <? total)%Z; [|lra].
  assert (Hd : 0 <= inject_Z total / 100)
    by (apply Qle_shift_div_l; [reflexivity|lra]).
  set (y := inject_Z total / 100) in *. clearbody y.
  destruct (min2_spec 0.85 (0.40 + y)) as (Ha & Hb & [E|E]);
    rewrite E in *; lra.
Qed.

Lemma favorability_unit pe_row company :
  (forall row, pe_row = Some row -> 0 <= pr_confidence_score row <= 1) ->
  0 <= favorability pe_row company <= 1.
Proof.
  intros H. unfold favorability. destruct pe_row as [row|]; [|lra].
  specialize (H row eq_refl). destruct (mem _ _); lra.
Qed.

Lemma density_unit sec db : 0 <= density sec db <= 1.
Proof.
  unfold density. repeat (match goal with |- context [if ?c then _ else _] =>
                            destruct c end); lra.
Qed.

Lemma seasonal_unit pe_row month : 0 <= seasonal pe_row month <= 1.
Proof.
  unfold seasonal. destruct pe_row; [destruct (existsb _ _)|]; lra.
Qed.

Lemma code_span_pos r rs : 0 < code_span r rs.
Proof.
  unfold code_span, Py.truthy.
  destruct (min_list_spec rs r) as [Hi Hmin].
  destruct (max_list_spec rs r) as [_ Hmax].
  specialize (Hmax _ Hi).
  destruct (Qeq_bool (Py.max_list r rs - Py.min_list r rs) 0) eqn:E; cbn.
  - lra.
  - apply Qeq_bool_neq in E. lra.
Qed.

(** What [price_score] returns, case by case. *)
Lemma price_score_cases sec db company :
  let typical :=
    match cp_typical_price_ratio company with Some r => r | None => 0.92 end in
  match sector_ratios sec db with
  | [] => price_score sec db company = Some 0.60
  | r :: rs =>
      if Qeq_bool (mean (r :: rs)) 0
      then price_score sec db company = Some 0.60
      else price_score sec db company
           = Some (Py.max2 0.2
                     (1.0 - Qabs (typical - mean (r :: rs)) / code_span r rs))
  end.
Proof.
  intros typical. unfold price_score. fold typical.
  destruct (sector_ratios sec db) as [|r rs]; [reflexivity|].
  fold (mean (r :: rs)).
  change (Py.truthy (Some (mean (r :: rs))))
    with (negb (Qeq_bool (mean (r :: rs)) 0)).
  destruct (Qeq_bool (mean (r :: rs)) 0); cbn [negb]; [reflexivity|].
  fold (code_span r rs). unfold Py.div.
  destruct (Qeq_bool (code_span r rs) 0) eqn:E; [|reflexivity].
  apply Qeq_bool_eq in E. pose proof (code_span_pos r rs). lra.
Qed.

Lemma price_score_unit sec db company :
  exists v, price_score sec db company = Some v /\ 0 <= v <= 1.
Proof.
  pose proof (price_score_cases sec db company) as H. cbv zeta in H.
  destruct (sector_ratios sec db) as [|r rs].
  - rewrite H. eexists. split; [reflexivity|lra].
  - destruct (Qeq_bool (mean (r :: rs)) 0).
    + rewrite H. eexists. split; [reflexivity|lra].
    + rewrite H. eexists. split; [reflexivity|].
      set (typical := match cp_typical_price_ratio company with
                      | Some r0 => r0 | None => 0.92 end).
      assert (Hq : 0 <= Qabs (typical - mean (r :: rs)) / code_span r rs).
      { apply Qle_shift_div_l; [apply code_span_pos|].
        rewrite Qmult_0_l. apply Qabs_nonneg. }
      destruct (max2_spec 0.2
                  (1.0 - Qabs (typical - mean (r :: rs)) / code_span r rs))
        as (Ha & _ & [E|E]); rewrite E in *; lra.
Qed.

Lemma least_unique l lo lo' : least lo l -> least lo' l -> lo == lo'.
Proof.
  intros [H1 H2] [H3 H4]. apply Qle_antisym; auto.
Qed.

Lemma greatest_unique l hi hi' : greatest hi l -> greatest hi' l -> hi == hi'.
Proof.
  intros [H1 H2] [H3 H4]. apply Qle_antisym; auto.
Qed.

Lemma code_span_spec r rs lo hi :
  least lo (r :: rs) -> greatest hi (r :: rs) ->
  code_span r rs == spec_span lo hi.
Proof.
  intros Hlo Hhi.
  assert (E1 : Py.min_list r rs == lo)
    by (apply (least_unique (r :: rs)); [apply min_list_spec|exact Hlo]).
  assert (E2 : Py.max_list r rs == hi)
    by (apply (greatest_unique (r :: rs)); [apply max_list_spec|exact Hhi]).
  unfold code_span, spec_span, Py.truthy.
  assert (E : Py.max_list r rs - Py.min_list r rs == hi - lo)
    by (rewrite E1, E2; reflexivity).
  rewrite (Qeqb_comp _ _ E 0 0 (Qeq_refl 0)).
  destruct (Qeq_bool (hi - lo) 0); cbn [negb]; [reflexivity|exact E].
Qed.

Lemma gate_open db :
  (MIN_DATA_FOR_TPS <= List.length (award_records db))%nat ->
  (List.length (award_records db) <? MIN_DATA_FOR_TPS)%nat = false.
Proof. intros H. apply Nat.ltb_ge. exact H. Qed.

End TPSFacts.

Module TPSClaims.
Import TPS Spec PyFacts TPSFacts Samples.

(** C3: for factor scores in [0,1] the weighted sum lies in [0,1];
    the seven weights add up to 1; and the labels HIGH (at least 75),
    MEDIUM (at least 55), LOW (at least 35) and VERY LOW (below 35)
    split the integers, so also [0,100], without gap or overlap. *)
Theorem tps_weight_closure (scores : Factor -> Q) (tps : Z) :
  (forall f, 0 <= scores f <= 1) ->
  0 <= tps_raw scores <= 1
  /\ Py.sum (List.map snd TPS_WEIGHTS) == 1
  /\ (label_of tps = str "HIGH" <-> (75 <= tps)%Z)
  /\ (label_of tps = str "MEDIUM" <-> (55 <= tps < 75)%Z)
  /\ (label_of tps = str "LOW" <-> (35 <= tps < 55)%Z)
  /\ (label_of tps = str "VERY LOW" <-> (tps < 35)%Z).
Proof.
  intros H. split; [apply tps_raw_unit, H|]. split; [reflexivity|].
  unfold label_of.
  destruct (Z.leb_spec 75 tps); [|destruct (Z.leb_spec 55 tps);
                                   [|destruct (Z.leb_spec 35 tps)]];
    repeat match goal with
           | |- _ /\ _ => split
           | |- _ <-> _ => split
           end;
    intros K;
    first [lia | reflexivity | exfalso; vm_compute in K; discriminate K].
Qed.

Lemma tps_weight_closure_witness :
  0 <= tps_raw (fun _ => 1 # 2) <= 1 /\ label_of 60 = str "MEDIUM".
Proof.
  assert (H : forall f : Factor, 0 <= (fun _ : Factor => 1 # 2) f <= 1)
    by (intros f; split; discriminate).
  destruct (tps_weight_closure (fun _ => 1 # 2) 60 H) as (Hr & _ & _ & Hm & _).
  split; [exact Hr|]. apply Hm. lia.
Defined.

(** C2 as stated fails: with 50 stored records and a caller-supplied
    compliance score of 10 the score is 169. *)
Lemma tps_above_100_for_large_compliance :
  List.length (award_records (db_numbered (Some 0.9) 50)) = 50%nat
  /\ option_map tps_of
       (calculate_tps tender_ict (company (Some 10)) 4
          (db_numbered (Some 0.9) 50))
     = Some (Some 169%Z)
  /\ ~ (0 <= 169 <= 100)%Z.
Proof. split; [reflexivity|]. split; [vm_compute; reflexivity|lia]. Qed.

(** C2, amended: with fewer than 50 stored award records
    [calculate_tps] returns a null score with the message that states
    the required and the current count; with 50 or more, provided the
    caller's compliance score and the confidence of the buyer's profile
    (when there is one) lie in [0,1], it returns an integer score in
    [0,100]. *)
Theorem tps_gate_and_range (tender : Tender) (company : CompanyProfile)
    (month : Z) (db : Db) :
  let n := List.length (award_records db) in
  let buyer :=
    match t_procuring_entity tender with Some p => p | None => [] end in
  ((n < 50)%nat ->
   calculate_tps tender company month db
   = Some (TpsGated
             (str "TPS requires 50 award records. Currently: "
              ++ Py.repr_nat n ++ str ". Keep collecting data.") n)
   /\ option_map tps_of (calculate_tps tender company month db) = Some None)
  /\ ((50 <= n)%nat ->
      (forall s, cp_compliance_score company = Some s -> 0 <= s <= 1) ->
      (forall row, PE.get_row buyer (pe_profiles db) = Some row ->
                   0 <= pr_confidence_score row <= 1) ->
      exists r tps,
        calculate_tps tender company month db = Some r
        /\ tps_of r = Some tps /\ (0 <= tps <= 100)%Z).
Proof.
  intros n buyer. split.
  - intros Hn. unfold calculate_tps. fold n.
    replace (n <? MIN_DATA_FOR_TPS)%nat with true
      by (symmetry; apply Nat.ltb_lt; exact Hn).
    split; reflexivity.
  - intros Hn Hc Hp. unfold calculate_tps.
    rewrite (gate_open db Hn). fold buyer.
    set (sec := match t_sector tender with Some s => s | None => str "Other" end).
    destruct (price_score_unit sec db company) as (price & -> & Hprice).
    eexists _, _. split; [reflexivity|]. split; [reflexivity|].
    set (scores := scores_of sec (PE.get_row buyer (pe_profiles db)) price
                     company month db).
    assert (Hs : forall f, 0 <= scores f <= 1).
    { intros f. unfold scores. destruct f; cbn [scores_of].
      - apply capability_unit.
      - apply historical_unit.
      - apply favorability_unit, Hp.
      - exact Hprice.
      - apply density_unit.
      - unfold compliance. destruct (cp_compliance_score company) as [s|];
          [apply Hc; reflexivity|lra].
      - apply seasonal_unit. }
    pose proof (tps_raw_unit scores Hs) as [H0 H1].
    apply round_bounds.
    + change (inject_Z 0) with 0. apply Qmult_le_0_compat; lra.
    + change (inject_Z 100) with (1 * 100). apply Qmult_le_compat_r; lra.
Qed.

Lemma tps_gate_and_range_witness :
  option_map tps_of (calculate_tps tender_ict (company None) 4 (db_of []))
  = Some None
  /\ exists r tps,
       calculate_tps tender_ict (company None) 4 (db_numbered (Some 0.9) 50)
       = Some r
       /\ tps_of r = Some tps /\ (0 <= tps <= 100)%Z.
Proof.
  split.
  - apply (proj1 (tps_gate_and_range tender_ict (company None) 4 (db_of []))).
    cbn. lia.
  - apply (proj2 (tps_gate_and_range tender_ict (company None) 4
                    (db_numbered (Some 0.9) 50))).
    + cbn. lia.
    + intros s H. discriminate H.
    + intros row H. discriminate H.
Defined.

(** C8 as stated fails: fifty awards of the sector all have the price
    ratio 0, so ratio statistics exist (mean, least and greatest are
    0), and the design's formula gives 0.2, yet the factor is the flat
    0.60, since the test on the mean treats 0 as missing. *)
Lemma zero_mean_ratio_gets_flat_score :
  sector_ratios (str "ICT") (db_numbered (Some 0) 50) <> []
  /\ least 0 (sector_ratios (str "ICT") (db_numbered (Some 0) 50))
  /\ greatest 0 (sector_ratios (str "ICT") (db_numbered (Some 0) 50))
  /\ mean (sector_ratios (str "ICT") (db_numbered (Some 0) 50)) == 0
  /\ price_score (str "ICT") (db_numbered (Some 0) 50) (company None)
     = Some 0.60
  /\ spec_price_score 0 0 0 0.92 == 0.2
  /\ ~ 0.60 == spec_price_score 0 0 0 0.92
  /\ option_map
       (fun r => match r with
                 | TpsScored _ _ _ _ lines =>
                     List.map (fun l => fl_score (snd l))
                       (List.filter
                          (fun l => factor_eqb (fst l) price_competitiveness)
                          lines)
                 | TpsGated _ _ => []
                 end)
       (calculate_tps tender_ict (company None) 4 (db_numbered (Some 0) 50))
     = Some [60%Z].
Proof.
  split; [vm_compute; discriminate|].
  split.
  { split; [vm_compute; left; reflexivity|].
    intros x Hx. vm_compute in Hx.
    repeat (destruct Hx as [<-|Hx]; [discriminate|]). destruct Hx. }
  split.
  { split; [vm_compute; left; reflexivity|].
    intros x Hx. vm_compute in Hx.
    repeat (destruct Hx as [<-|Hx]; [discriminate|]). destruct Hx. }
  split; [vm_compute; reflexivity|].
  split; [vm_compute; reflexivity|].
  split; [vm_compute; reflexivity|].
  split; [vm_compute; discriminate|].
  vm_compute. reflexivity.
Qed.

(** C8, amended: for a sector whose stored price ratios are each zero
    or at least 0.0001 (one unit of the four decimals the parser
    keeps; a negative ratio, which a negative amount gives, is left
    out), the factor is the flat 0.60 when the sector has no price
    ratio, and so it is when the mean of its ratios is zero;
    otherwise the factor is max(0.2, 1 - |typical - mean| / span),
    where span is the greatest minus the least ratio of the sector, or
    0.1 when that difference is zero, so that the divisor is never
    zero and the division never fails. *)
Theorem price_competitiveness_formula (sec : pystr) (db : Db)
    (company : CompanyProfile)
    (Hratios :
       Forall (fun r => r == 0 \/ 0.0001 <= r) (sector_ratios sec db)) :
  let ratios := sector_ratios sec db in
  let typical :=
    match cp_typical_price_ratio company with Some r => r | None => 0.92 end in
  (ratios = [] -> price_score sec db company = Some 0.60)
  /\ (ratios <> [] -> mean ratios == 0 ->
      price_score sec db company = Some 0.60)
  /\ (ratios <> [] -> ~ mean ratios == 0 ->
      forall lo hi, least lo ratios -> greatest hi ratios ->
        ~ spec_span lo hi == 0
        /\ exists v, price_score sec db company = Some v
                     /\ v == spec_price_score (mean ratios) lo hi typical).
Proof.
  intros ratios typical.
  pose proof (price_score_cases sec db company) as H. cbv zeta in H.
  fold ratios typical in H. destruct ratios as [|r rs].
  - split; [auto|]. split; intros K; congruence.
  - split; [discriminate|]. split.
    + intros _ E. rewrite (Qeq_eq_bool _ _ E) in H. exact H.
    + intros _ E lo hi Hlo Hhi.
      destruct (Qeq_bool (mean (r :: rs)) 0) eqn:B;
        [apply Qeq_bool_eq in B; contradiction|].
      pose proof (code_span_spec r rs lo hi Hlo Hhi) as Es.
      pose proof (code_span_pos r rs) as Hpos.
      split; [rewrite <- Es; lra|].
      eexists. split; [exact H|].
      rewrite max2_Qmax. unfold spec_price_score.
      apply Q.max_compat; [reflexivity|].
      rewrite Es. unfold Qminus. apply Qplus_comp; reflexivity.
Qed.

Lemma price_competitiveness_formula_witness :
  exists v,
    price_score (str "ICT") (db_numbered (Some 0.9) 50) (company None) = Some v
    /\ v == spec_price_score 0.9 0.9 0.9 0.92.
Proof.
  assert (Hr : Forall (fun r => r == 0 \/ 0.0001 <= r)
                 (sector_ratios (str "ICT") (db_numbered (Some 0.9) 50))).
  { apply Forall_forall. intros x Hx. vm_compute in Hx.
    repeat (destruct Hx as [<-|Hx]; [right; discriminate|]). destruct Hx. }
  destruct (proj2 (proj2 (price_competitiveness_formula (str "ICT")
                            (db_numbered (Some 0.9) 50) (company None) Hr)))
    with (lo := 0.9) (hi := 0.9) as (_ & v & Hv & Ev).
  - vm_compute. discriminate.
  - vm_compute. discriminate.
  - split; [vm_compute; left; reflexivity|].
    intros x Hx. vm_compute in Hx.
    repeat (destruct Hx as [<-|Hx]; [discriminate|]). destruct Hx.
  - split; [vm_compute; left; reflexivity|].
    intros x Hx. vm_compute in Hx.
    repeat (destruct Hx as [<-|Hx]; [discriminate|]). destruct Hx.
  - exists v. split; [exact Hv|].
    rewrite Ev. vm_compute. reflexivity.
Defined.

End TPSClaims.

(** ** Sector classification *)

Module SectorFacts.
Import Sectors.

Lemma max_key_ge rest : forall first,
  (snd first <= snd (max_key first rest))%nat.
Proof.
  unfold max_key.
  induction rest as [|y rest IH]; intros a; cbn [fold_left]; [lia|].
  destruct (Nat.ltb_spec (snd a) (snd y)).
  - specialize (IH y). lia.
  - apply IH.
Qed.

Lemma max_key_cons first x rest :
  max_key first (x :: rest)
  = max_key (if (snd first <? snd x)%nat then x else first) rest.
Proof. reflexivity. Qed.

(** [max_key] returns the first entry with the greatest value. *)
Lemma max_key_spec rest : forall first,
  exists before after,
    first :: rest = before ++ max_key first rest :: after
    /\ (forall e, In e before -> (snd e < snd (max_key first rest))%nat)
    /\ (forall e, In e after -> (snd e <= snd (max_key first rest))%nat).
Proof.
  induction rest as [|x rest IH]; intros first.
  - exists [], []. split; [reflexivity|]. split; intros e [].
  - rewrite max_key_cons.
    destruct (Nat.ltb_spec (snd first) (snd x)) as [Hlt|Hge].
    + destruct (IH x) as (before & after & E & Hb & Ha).
      exists (first :: before), after. rewrite E at 1.
      split; [reflexivity|]. split; [|exact Ha].
      intros e [<-|He]; [|apply Hb, He].
      pose proof (max_key_ge rest x). lia.
    + destruct (IH first) as (before & after & E & Hb & Ha).
      destruct before as [|b before].
      * injection E as E1 E2. exists [], (x :: after).
        split; [cbn; rewrite <- E1; do 2 f_equal; exact E2|].
        split; [intros e []|].
        intros e [<-|He]; [|apply Ha, He]. rewrite <- E1. exact Hge.
      * injection E as E1 E2. subst b.
        exists (first :: x :: before), after.
        split; [cbn; do 2 f_equal; exact E2|].
        split; [|exact Ha].
        pose proof (Hb first (or_introl eq_refl)) as Hf.
        intros e [<-|[<-|He]]; [exact Hf|lia|].
        apply Hb. right. exact He.
Qed.

Lemma score_zero t kw :
  score t kw = O <-> forall k, In k kw -> is_substring k t = false.
Proof.
  unfold score. induction kw as [|k kw IH]; cbn [filter].
  - split; [intros _ k []|reflexivity].
  - destruct (is_substring k t) eqn:E; cbn [length].
    + split; [discriminate|]. intros H.
      specialize (H k (or_introl eq_refl)). congruence.
    + rewrite IH. split.
      * intros H x [<-|Hx]; [exact E|apply H, Hx].
      * intros H x Hx. apply H. right. exact Hx.
Qed.

(** The choice made over an arbitrary keyword table. *)
Lemma choose_spec (table : list (pystr * list pystr)) t :
  let result :=
    match map (fun skw => (fst skw, score t (snd skw))) table with
    | [] => Other
    | first :: rest =>
        let best := max_key first rest in
        if (0 <? snd best)%nat then fst best else Other
    end in
  (result = Other /\ forall e, In e table -> score t (snd e) = O)
  \/ exists before kw after,
       table = before ++ (result, kw) :: after
       /\ (0 < score t kw)%nat
       /\ (forall e, In e before -> (score t (snd e) < score t kw)%nat)
       /\ (forall e, In e after -> (score t (snd e) <= score t kw)%nat).
Proof.
  set (g := fun skw : pystr * list pystr => (fst skw, score t (snd skw))).
  destruct (map g table) as [|first rest] eqn:E; cbn zeta.
  - left. split; [reflexivity|].
    destruct table; [intros e []|discriminate].
  - destruct (max_key_spec rest first) as (before & after & D & Hb & Ha).
    rewrite <- E in D.
    apply map_eq_app in D. destruct D as (l1 & l2 & D1 & D2 & D3).
    apply map_eq_cons in D3. destruct D3 as (x & l3 & D3 & D4 & D5).
    subst l2 table.
    destruct (Nat.ltb_spec 0 (snd (max_key first rest))) as [Hpos|Hzero].
    + right. exists l1, (snd x), l3.
      rewrite <- D4 in *. cbn [g fst snd] in *.
      split; [destruct x; reflexivity|]. split; [exact Hpos|].
      split.
      * intros e He. apply (Hb (g e)). rewrite <- D2.
        apply in_map, He.
      * intros e He. apply (Ha (g e)). rewrite <- D5.
        apply in_map, He.
    + left. split; [reflexivity|].
      rewrite <- D4 in *. cbn [g fst snd] in *.
      intros e He. apply in_app_or in He.
      destruct He as [He|[<-|He]].
      * specialize (Hb (g e)). rewrite <- D2 in Hb.
        specialize (Hb (in_map g _ _ He)). cbn [g snd] in Hb. lia.
      * lia.
      * specialize (Ha (g e)). rewrite <- D5 in Ha.
        specialize (Ha (in_map g _ _ He)). cbn [g snd] in Ha. lia.
Qed.

Lemma Other_is_no_sector : mem Other (map fst SECTOR_KEYWORDS) = false.
Proof. reflexivity. Qed.

Lemma sector_not_Other kw : ~ In (Other, kw) SECTOR_KEYWORDS.
Proof.
  intros H. apply (in_map fst) in H. cbn [fst] in H.
  pose proof Other_is_no_sector as K. unfold mem in K.
  assert (existsb (eqb Other) (map fst SECTOR_KEYWORDS) = true)
    by (apply existsb_exists; exists Other; split;
        [exact H|apply PyStrFacts.eqb_refl]).
  congruence.
Qed.

Lemma classify_sector_choice text :
  classify_sector text
  = match map (fun skw => (fst skw, score (lower text) (snd skw)))
            SECTOR_KEYWORDS with
    | [] => Other
    | first :: rest =>
        let best := max_key first rest in
        if (0 <? snd best)%nat then fst best else Other
    end.
Proof. reflexivity. Qed.

Lemma classify_sector_known text :
  classify_sector text = Other
  \/ In (classify_sector text) (map fst SECTOR_KEYWORDS).
Proof.
  pose proof (choose_spec SECTOR_KEYWORDS (lower text)) as H.
  cbn zeta in H. rewrite <- classify_sector_choice in H.
  destruct H as [[E _]|(before & kw & after & D & _)]; [left; exact E|].
  right. apply (in_map fst _ (classify_sector text, kw)).
  rewrite D. apply in_or_app. right. now left.
Qed.

End SectorFacts.

Module SectorProps.
Import Sectors NormalizerSpec SectorFacts.

(** X1 ([classify_sector]).  For every ASCII text the result is
    ["Other"] or one of the six sector names of [SECTOR_KEYWORDS], and
    it is ["Other"] exactly when no keyword of any sector occurs in
    the lower-cased text. *)
Theorem classify_sector_other_iff_no_keyword (text : pystr)
  (Hascii : is_ascii_str text) :
  (classify_sector text = Other
   \/ In (classify_sector text) (map fst SECTOR_KEYWORDS))
  /\ (classify_sector text = Other
      <-> forall sector kw k,
            In (sector, kw) SECTOR_KEYWORDS -> In k kw ->
            is_substring k (lower text) = false).
Proof.
  pose proof (choose_spec SECTOR_KEYWORDS (lower text)) as H.
  cbn zeta in H. fold (scores_of (lower text)) in H.
  change (match scores_of (lower text) with
          | [] => Other
          | first :: rest =>
              if (0 <? snd (max_key first rest))%nat
              then fst (max_key first rest) else Other
          end) with (classify_sector text) in H.
  destruct H as [[E Hz]|(before & kw & after & D & Hpos & _)].
  - split; [left; exact E|]. split; [|intros _; exact E].
    intros _ sector kw k Hs Hk.
    specialize (Hz _ Hs). cbn [snd] in Hz.
    exact (proj1 (score_zero _ _) Hz k Hk).
  - assert (Hin : In (classify_sector text, kw) SECTOR_KEYWORDS)
      by (rewrite D; apply in_or_app; right; left; reflexivity).
    split; [right; exact (in_map fst _ _ Hin)|]. split.
    + intros E. rewrite E in Hin. destruct (sector_not_Other _ Hin).
    + intros Hno. exfalso.
      assert (Z : score (lower text) kw = O)
        by (apply score_zero; intros k Hk; exact (Hno _ _ _ Hin Hk)).
      lia.
Qed.

Lemma classify_sector_other_iff_no_keyword_witness :
  is_ascii_str (str "Supply of Laptops") /\
  In (classify_sector (str "Supply of Laptops")) (map fst SECTOR_KEYWORDS).
Proof.
  assert (H : is_ascii_str (str "Supply of Laptops"))
    by (repeat constructor).
  split; [exact H|].
  destruct (classify_sector_other_iff_no_keyword _ H) as [[E|I] _];
    [vm_compute in E; discriminate|exact I].
Defined.

(** X2 ([classify_sector]).  When the result is a sector, it is the
    first sector of [SECTOR_KEYWORDS] with the greatest number of
    keywords occurring in the lower-cased text: every sector listed
    before it has strictly fewer hits, every sector after it at most
    as many. *)
Theorem classify_sector_first_maximal (text : pystr)
  (Hascii : is_ascii_str text)
  (Hsector : classify_sector text <> Other) :
  exists before kw after,
    SECTOR_KEYWORDS = before ++ (classify_sector text, kw) :: after
    /\ (0 < score (lower text) kw)%nat
    /\ (forall e, In e before ->
          (score (lower text) (snd e) < score (lower text) kw)%nat)
    /\ (forall e, In e after ->
          (score (lower text) (snd e) <= score (lower text) kw)%nat).
Proof.
  pose proof (choose_spec SECTOR_KEYWORDS (lower text)) as H.
  cbn zeta in H. fold (scores_of (lower text)) in H.
  change (match scores_of (lower text) with
          | [] => Other
          | first :: rest =>
              if (0 <? snd (max_key first rest))%nat
              then fst (max_key first rest) else Other
          end) with (classify_sector text) in H.
  destruct H as [[E _]|H]; [contradiction|exact H].
Qed.

Lemma classify_sector_first_maximal_witness :
  exists before kw after,
    SECTOR_KEYWORDS
    = before ++ (classify_sector (str "Hospital software audit"), kw) :: after
    /\ (0 < score (lower (str "Hospital software audit")) kw)%nat.
Proof.
  assert (H : is_ascii_str (str "Hospital software audit"))
    by (repeat constructor).
  assert (N : classify_sector (str "Hospital software audit") <> Other)
    by (vm_compute; discriminate).
  destruct (classify_sector_first_maximal _ H N)
    as (before & kw & after & D & Hpos & _).
  exists before, kw, after. split; [exact D|exact Hpos].
Defined.

End SectorProps.

(** ** More about the normalizer: the shape of its results *)

Module NormalizerShape.
Import NormalizerFacts.

(** Title-casing a plain character keeps its class. *)
Lemma title_char c b :
  plain c = true ->
  let c' := if b : bool then to_lower c else to_title c in
  is_space c' = is_space c
  /\ (word_or_blank c = true -> word_or_blank c' = true)
  /\ is_ascii c' = true.
Proof.
  intros H. cbn zeta. destruct b.
  - rewrite (plain_lower c H). repeat split; [auto|].
    unfold plain in H. apply andb_true_iff in H. apply H.
  - unfold to_title. destruct (is_lower c) eqn:L.
    + assert (K : (97 <= c <= 122)%N) by (to_prop; lia).
      assert (U : is_upper (c - 32) = true) by (to_prop; lia).
      split; [|split].
      * rewrite (word_not_space (c - 32)), (word_not_space c);
          [reflexivity| |]; unfold is_word; [rewrite L|rewrite U];
          rewrite ?orb_true_r; reflexivity.
      * intros _. unfold word_or_blank, is_word. rewrite U. reflexivity.
      * to_prop. lia.
    + destruct (N.eqb_spec c dotless_i) as [->|_]; [discriminate|].
      repeat split; [auto|].
      unfold plain in H. apply andb_true_iff in H. apply H.
Qed.

Lemma title_Forall s :
  Forall (fun c => plain c = true) s ->
  Forall (fun c => word_or_blank c = true) s ->
  forall b,
    Forall (fun c => word_or_blank c = true) (title_from b s)
    /\ is_ascii_str (title_from b s).
Proof.
  induction 1 as [|c r Hc Hr IH]; intros Hw b; [split; constructor|].
  inversion Hw as [|? ? Wc Wr]; subst.
  destruct (IH Wr (is_cased c)) as [I1 I2].
  destruct (title_char c b Hc) as (_ & T1 & T2).
  cbn [title_from]. split; constructor; auto.
Qed.

Lemma title_hd s :
  Forall (fun c => plain c = true) s -> forall b,
  spaceb (hd_error (title_from b s)) = spaceb (hd_error s).
Proof.
  intros H b. destruct H as [|c r Hc Hr]; [reflexivity|].
  cbn [title_from hd_error spaceb]. apply (title_char c b Hc).
Qed.

Lemma title_single s :
  Forall (fun c => plain c = true) s -> forall b,
  single_spaced s -> single_spaced (title_from b s).
Proof.
  induction 1 as [|c r Hc Hr IH]; intros b; [auto|].
  intros [H1 H2]. cbn [title_from single_spaced]. split.
  - rewrite (title_hd r Hr).
    destruct (title_char c b Hc) as (-> & _). exact H1.
  - apply IH, H2.
Qed.

Lemma title_nil s b : title_from b s = [] -> s = [].
Proof. destruct s; [reflexivity|discriminate]. Qed.

Lemma rstrip_title s :
  Forall (fun c => plain c = true) s -> forall b,
  rstrip (title_from b s) = title_from b (rstrip s).
Proof.
  induction 1 as [|c r Hc Hr IH]; intros b; [reflexivity|].
  cbn [title_from rstrip]. rewrite IH.
  destruct (title_char c b Hc) as (Sc & _).
  destruct (rstrip r) as [|d r'] eqn:E.
  - cbn [title_from]. cbv zeta in Sc. rewrite Sc.
    destruct (is_space c); reflexivity.
  - reflexivity.
Qed.

Lemma core_hd s : spaceb (hd_error (core s)) = false.
Proof.
  unfold core, strip.
  apply (rstrip_head (fun o => spaceb o = false)); [reflexivity|].
  apply lstrip_head.
Qed.

Lemma core_rstrip s : rstrip (core s) = core s.
Proof. unfold core, strip. apply rstrip_idem. Qed.

Lemma strip_title_core s :
  is_ascii_str s -> strip (title (core s)) = title (core s).
Proof.
  intros H. unfold strip, title.
  rewrite lstrip_id
    by (rewrite (title_hd _ (core_plain s H)); apply core_hd).
  rewrite (rstrip_title _ (core_plain s H)), core_rstrip. reflexivity.
Qed.

(** *** A suffix word after a space *)

Lemma strip_prefix_app alt : forall s t,
  ~ In 32%N alt ->
  strip_prefix alt (s ++ 32%N :: t)
  = option_map (fun rest => rest ++ 32%N :: t) (strip_prefix alt s).
Proof.
  induction alt as [|a p IH]; intros s t Hno; [reflexivity|].
  destruct s as [|b s]; cbn [strip_prefix app option_map].
  - destruct (N.eqb_spec a 32) as [->|_]; [|reflexivity].
    destruct Hno. now left.
  - destruct (a =? b)%N; [|reflexivity].
    apply IH. intros K. apply Hno. now right.
Qed.

Lemma SUFFIXES_no_blank alt : In alt SUFFIXES -> ~ In 32%N alt.
Proof.
  intros H K.
  assert (E : forallb (fun a => negb (existsb (N.eqb 32) a)) SUFFIXES = true)
    by reflexivity.
  rewrite forallb_forall in E. specialize (E _ H).
  apply negb_true_iff in E.
  assert (existsb (N.eqb 32) alt = true)
    by (apply existsb_exists; exists 32%N; split; [exact K|reflexivity]).
  congruence.
Qed.

Lemma alt_matches_app s t alt :
  In alt SUFFIXES ->
  alt_matches (s ++ 32%N :: t) alt = alt_matches s alt.
Proof.
  intros H. unfold alt_matches.
  rewrite (strip_prefix_app alt s t (SUFFIXES_no_blank alt H)).
  destruct (strip_prefix alt s) as [rest|]; [|reflexivity].
  cbn [option_map]. destruct rest; reflexivity.
Qed.

Lemma find_ext_in {A} (f g : A -> bool) l :
  (forall x, In x l -> f x = g x) -> find f l = find g l.
Proof.
  induction l as [|a l IH]; intros H; [reflexivity|].
  cbn [find]. rewrite (H a (or_introl eq_refl)).
  destruct (g a); [reflexivity|].
  apply IH. intros x Hx. apply H. now right.
Qed.

Lemma match_at_app prev c r t :
  match_at prev ((c :: r) ++ 32%N :: t) = match_at prev (c :: r).
Proof.
  unfold match_at. cbn [app hd_error].
  destruct (boundary prev (Some c)); [|reflexivity].
  f_equal. apply find_ext_in. intros alt H.
  apply (alt_matches_app (c :: r) t alt H).
Qed.

Lemma match_at_length prev s n :
  match_at prev s = Some n -> (n <= List.length s)%nat.
Proof.
  intros H. apply match_at_Some in H.
  destruct H as (alt & rest & _ & -> & -> & _).
  rewrite length_app. lia.
Qed.

(** The scan treats the text before a space and the text after it
    separately. *)
Lemma sub_suffixes_app s t : forall prev k,
  (k <= List.length s)%nat ->
  sub_suffixes prev k (s ++ 32%N :: t)
  = sub_suffixes prev k s ++ 32%N :: sub_suffixes (Some 32%N) 0 t.
Proof.
  induction s as [|c r IH]; intros prev k Hk.
  - assert (k = O) by (cbn in Hk; lia). subst k.
    cbn [app sub_suffixes].
    rewrite match_at_nonword by reflexivity. reflexivity.
  - cbn [List.length] in Hk. destruct k as [|k].
    + change ((c :: r) ++ 32%N :: t) with (c :: (r ++ 32%N :: t)).
      cbn [sub_suffixes].
      change (c :: (r ++ 32%N :: t)) with ((c :: r) ++ 32%N :: t).
      rewrite match_at_app.
      destruct (match_at prev (c :: r)) as [[|n]|] eqn:M.
      * rewrite IH by lia. reflexivity.
      * apply match_at_length in M. cbn [List.length] in M.
        rewrite IH by lia. reflexivity.
      * rewrite IH by lia. reflexivity.
    + cbn [app sub_suffixes]. apply IH. lia.
Qed.

Lemma PURE_vanish w :
  In w PURE -> sub_suffixes (Some 32%N) 0 w = [].
Proof.
  unfold PURE, SUFFIXES. cbn [List.map removelast].
  intros H.
  repeat (destruct H as [<-|H]; [vm_compute; reflexivity|]).
  destruct H.
Qed.

Lemma sub_spaces_snoc s : forall b,
  sub_spaces b (s ++ [32%N]) = sub_spaces b s
  \/ sub_spaces b (s ++ [32%N]) = sub_spaces b s ++ [32%N].
Proof.
  induction s as [|c r IH]; intros b.
  - destruct b; [left|right]; reflexivity.
  - cbn [app sub_spaces]. destruct (is_space c).
    + destruct b; destruct (IH true) as [-> | ->]; auto.
    + destruct (IH false) as [-> | ->]; auto.
Qed.

Lemma rstrip_snoc s : rstrip (s ++ [32%N]) = rstrip s.
Proof.
  induction s as [|c r IH]; [reflexivity|].
  cbn [app rstrip]. rewrite IH. reflexivity.
Qed.

Lemma strip_snoc s : strip (s ++ [32%N]) = strip s.
Proof.
  unfold strip. induction s as [|c r IH]; [reflexivity|].
  cbn [app lstrip]. destruct (is_space c); [exact IH|].
  apply (rstrip_snoc (c :: r)).
Qed.

Lemma core_suffix_word s w :
  In (lower w) PURE -> core (s ++ 32%N :: w) = core s.
Proof.
  intros H. unfold core, lower. rewrite map_app. cbn [List.map].
  fold (lower s) (lower w). change (to_lower 32) with 32%N.
  rewrite sub_suffixes_app by lia. rewrite (PURE_vanish _ H).
  unfold sub_punct. rewrite map_app. cbn [List.map].
  fold (sub_punct (sub_suffixes None 0 (lower s))).
  change (if is_word 32 || is_space 32 then 32%N else 32%N) with 32%N.
  destruct (sub_spaces_snoc (sub_punct (sub_suffixes None 0 (lower s))) false)
    as [-> | ->]; [reflexivity|apply strip_snoc].
Qed.

(** *** A suffix word before a space *)

Lemma match_at_prev p q s :
  wordb p = wordb q -> match_at p s = match_at q s.
Proof. unfold match_at, boundary. intros ->. reflexivity. Qed.

Lemma sub_suffixes_prev p q s :
  wordb p = wordb q -> sub_suffixes p 0 s = sub_suffixes q 0 s.
Proof.
  intros H. destruct s as [|c r]; [reflexivity|].
  cbn [sub_suffixes]. rewrite (match_at_prev p q _ H). reflexivity.
Qed.

Lemma PURE_prefix_match w t :
  In w PURE -> match_at None (w ++ 32%N :: t) = Some (List.length w).
Proof.
  unfold PURE, SUFFIXES. cbn [List.map removelast].
  intros H.
  assert (K : forall c r, w = c :: r ->
              match_at None (w ++ 32%N :: t) = match_at None w).
  { intros c r ->. apply match_at_app. }
  repeat (destruct H as [<-|H];
          [rewrite (K _ _ eq_refl); vm_compute; reflexivity|]).
  destruct H.
Qed.

Lemma sub_suffixes_prefix_word w t :
  In w PURE ->
  sub_suffixes None 0 (w ++ 32%N :: t) = 32%N :: sub_suffixes None 0 t.
Proof.
  intros H. pose proof (PURE_prefix_match w t H) as M.
  destruct (PURE_words w H) as [Hne _].
  destruct w as [|a p]; [congruence|].
  rewrite (sub_suffixes_match None a p (32%N :: t) M).
  cbn [sub_suffixes]. rewrite match_at_nonword by reflexivity.
  f_equal. apply sub_suffixes_prev. reflexivity.
Qed.

Lemma core_prefix_word s w :
  In (lower w) PURE -> core (w ++ 32%N :: s) = core s.
Proof.
  intros H. unfold core, lower. rewrite map_app. cbn [List.map].
  fold (lower s) (lower w). change (to_lower 32) with 32%N.
  rewrite (sub_suffixes_prefix_word _ _ H).
  unfold sub_punct. cbn [List.map].
  fold (sub_punct (sub_suffixes None 0 (lower s))).
  change (if is_word 32 || is_space 32 then 32%N else 32%N) with 32%N.
  cbn [sub_spaces]. change (is_space 32) with true. cbn match.
  unfold strip. cbn [lstrip]. change (is_space 32) with true. cbn match.
  f_equal.
  destruct (sub_punct (sub_suffixes None 0 (lower s))) as [|c r];
    [reflexivity|].
  cbn [sub_spaces]. destruct (is_space c); reflexivity.
Qed.

Lemma normalize_core (s : pystr) :
  normalize_company_name (Some s)
  = match title (core s) with [] => Unknown | _ => title (core s) end.
Proof. destruct s; reflexivity. Qed.

End NormalizerShape.

Module NormalizerProps.
Import NormalizerFacts NormalizerShape.

(** X3 ([normalize_company_name]).  For [None] and for every ASCII
    name the result is a clean key: it is never empty, it is ASCII and
    made of word characters (letters, digits, underscore) and single
    blanks only, it neither starts nor ends with a blank, and none of
    its words, lower-cased, is one of the suffix words the first
    pattern removes. *)
Theorem normalize_gives_clean_key (name : option pystr)
  (Hascii : ascii_name name) :
  let key := normalize_company_name name in
  key <> []
  /\ is_ascii_str key
  /\ Forall (fun c => word_or_blank c = true) key
  /\ single_spaced key
  /\ strip key = key
  /\ quiet (lower key).
Proof.
  assert (U : let key := Unknown in
              key <> [] /\ is_ascii_str key
              /\ Forall (fun c => word_or_blank c = true) key
              /\ single_spaced key /\ strip key = key /\ quiet (lower key)).
  { cbn zeta. split; [discriminate|]. split; [repeat constructor|].
    split; [repeat constructor|]. split; [cbn; intuition discriminate|].
    split; [reflexivity|].
    apply quiet_run; [reflexivity| |constructor].
    intros K. vm_compute in K. intuition discriminate. }
  destruct name as [s|]; [|exact U].
  cbn [ascii_name] in Hascii. cbn zeta.
  rewrite normalize_core.
  destruct (title (core s)) as [|c y] eqn:E; [exact U|].
  rewrite <- E.
  destruct (title_Forall _ (core_plain s Hascii) (core_classes s) false)
    as [T1 T2].
  split; [rewrite E; discriminate|]. split; [exact T2|].
  split; [exact T1|].
  split; [apply title_single; [apply core_plain, Hascii|apply core_single]|].
  split; [apply strip_title_core, Hascii|].
  unfold title. rewrite (lower_title _ (core_plain s Hascii)).
  apply core_quiet.
Qed.

Lemma normalize_gives_clean_key_witness :
  ascii_name (Some (str "  acme-tech (T) Ltd. ")) /\
  strip (normalize_company_name (Some (str "  acme-tech (T) Ltd. ")))
  = normalize_company_name (Some (str "  acme-tech (T) Ltd. ")).
Proof.
  assert (H : ascii_name (Some (str "  acme-tech (T) Ltd. ")))
    by (repeat constructor).
  split; [exact H|].
  exact (proj1 (proj2 (proj2 (proj2 (proj2
           (normalize_gives_clean_key _ H)))))).
Defined.

(** X4 ([normalize_company_name]).  A suffix word (ltd, limited, co,
    company, corporation, corp, inc, llc, plc, pvt, private, tanzania,
    tz: in any letter case) written after a blank at the end of an
    ASCII name, or before a blank at its start, does not change the
    result: "Acme Ltd", "LIMITED Acme" and "Acme" share one key. *)
Theorem normalize_ignores_suffix_word (name word : pystr)
  (Hascii : is_ascii_str name)
  (Hword : In (lower word) PURE) :
  normalize_company_name (Some (name ++ str " " ++ word))
  = normalize_company_name (Some name)
  /\ normalize_company_name (Some (word ++ str " " ++ name))
     = normalize_company_name (Some name).
Proof.
  rewrite !normalize_core.
  change (name ++ str " " ++ word) with (name ++ 32%N :: word).
  change (word ++ str " " ++ name) with (word ++ 32%N :: name).
  rewrite (core_suffix_word name word Hword).
  rewrite (core_prefix_word name word Hword).
  split; reflexivity.
Qed.

Lemma normalize_ignores_suffix_word_witness :
  normalize_company_name (Some (str "Acme Supplies" ++ str " " ++ str "LTD"))
  = normalize_company_name (Some (str "Acme Supplies")).
Proof.
  refine (proj1 (normalize_ignores_suffix_word
                   (str "Acme Supplies") (str "LTD") _ _)).
  - repeat constructor.
  - vm_compute. tauto.
Defined.

End NormalizerProps.

(** ** The store under repeated saves, the parser and the scraper *)

Module StoreFacts.

Lemma has_ocid_same_ocid rec db :
  List.existsb (same_ocid rec) (award_records db) = has_ocid (ocid rec) db.
Proof. reflexivity. Qed.

Lemma has_ocid_In id db :
  has_ocid id db = true <-> In id (List.map ocid (award_records db)).
Proof.
  unfold has_ocid. rewrite existsb_exists, in_map_iff. split.
  - intros (r & Hr & E). apply PyStrFacts.eqb_eq in E. eauto.
  - intros (r & E & Hr). exists r. split; [exact Hr|].
    rewrite E. apply PyStrFacts.eqb_refl.
Qed.

Lemma save_cases rec db :
  (has_ocid (ocid rec) db = true /\ save_award_record rec db = db)
  \/ (has_ocid (ocid rec) db = false
      /\ award_records (save_award_record rec db) = award_records db ++ [rec]
      /\ competitor_profiles (save_award_record rec db) = competitor_profiles db
      /\ pe_profiles (save_award_record rec db) = pe_profiles db).
Proof.
  unfold save_award_record. rewrite has_ocid_same_ocid.
  destruct (has_ocid (ocid rec) db); [left|right]; repeat split.
Qed.

Lemma has_ocid_save id rec db :
  has_ocid id (save_award_record rec db)
  = has_ocid id db || eqb (ocid rec) id && negb (has_ocid (ocid rec) db).
Proof.
  destruct (save_cases rec db) as [[H ->]|(H & E & _)].
  - rewrite H, andb_false_r, orb_false_r. reflexivity.
  - unfold has_ocid at 1. rewrite E, existsb_app. cbn [existsb].
    rewrite H, orb_false_r, andb_true_r. reflexivity.
Qed.

Lemma has_ocid_saved rec db :
  has_ocid (ocid rec) (save_award_record rec db) = true.
Proof.
  rewrite has_ocid_save, PyStrFacts.eqb_refl.
  destruct (has_ocid (ocid rec) db); reflexivity.
Qed.

Lemma has_ocid_kept id rec db :
  has_ocid id db = true -> has_ocid id (save_award_record rec db) = true.
Proof. intros H. rewrite has_ocid_save, H. reflexivity. Qed.

Lemma find_app_l {A} (f : A -> bool) l l' x :
  find f l = Some x -> find f (l ++ l') = Some x.
Proof.
  induction l as [|a l IH]; cbn; [discriminate|].
  destruct (f a); auto.
Qed.

Lemma find_app_r {A} (f : A -> bool) l l' :
  find f l = None -> find f (l ++ l') = find f l'.
Proof.
  induction l as [|a l IH]; cbn; [reflexivity|].
  destruct (f a); [discriminate|auto].
Qed.

Lemma find_none_has id db : find_ocid id db = None <-> has_ocid id db = false.
Proof.
  unfold find_ocid, has_ocid. induction (award_records db) as [|a l IH]; cbn.
  - tauto.
  - destruct (eqb (ocid a) id); cbn; [split; discriminate|exact IH].
Qed.

End StoreFacts.

Module OcdsFacts.
Import Ocds StoreFacts.

Section WithLibrary.
Variable days_between : pystr -> pystr -> option Z.
Variable json_dumps : Release -> pystr.

Abbreviation parse := (parse_ocds_release days_between json_dumps).
Abbreviation save_release := (save_release days_between json_dumps).
Abbreviation save_releases := (save_releases days_between json_dumps).
Abbreviation scrape := (scrape days_between json_dumps).

Lemma save_releases_cons rel rels state :
  save_releases (rel :: rels) state
  = save_releases rels (save_release state rel).
Proof. reflexivity. Qed.

Lemma save_release_cases state rel :
  (parse rel = None /\ save_release state rel = state)
  \/ exists rec,
       parse rel = Some rec
       /\ save_release state rel
          = (save_award_record rec (fst state), S (snd state)).
Proof.
  unfold Ocds.save_release.
  destruct (parse rel) as [rec|]; [right; exists rec|left]; split; reflexivity.
Qed.

(** The counter goes up with every release that parses. *)
Lemma save_releases_count rels : forall state,
  snd (save_releases rels state)
  = (snd state + List.length (List.filter (parses days_between json_dumps) rels))%nat.
Proof.
  induction rels as [|rel rels IH]; intros state.
  - cbn. lia.
  - rewrite save_releases_cons, IH. cbn [filter]. unfold parses.
    destruct (save_release_cases state rel) as [[E ->]|(rec & E & ->)];
      rewrite E; cbn [snd List.length]; lia.
Qed.

(** The store does not depend on the counter. *)
Lemma save_releases_store rels : forall db n m,
  fst (save_releases rels (db, n)) = fst (save_releases rels (db, m)).
Proof.
  induction rels as [|rel rels IH]; intros db n m; [reflexivity|].
  rewrite !save_releases_cons.
  destruct (save_release_cases (db, n) rel) as [[E ->]|(rec & E & ->)];
    destruct (save_release_cases (db, m) rel) as [[E' ->]|(rec' & E' & ->)];
    try congruence.
  - apply IH.
  - assert (rec' = rec) by congruence. subst. apply IH.
Qed.

Lemma save_releases_keeps id rels : forall state,
  has_ocid id (fst state) = true ->
  has_ocid id (fst (save_releases rels state)) = true.
Proof.
  induction rels as [|rel rels IH]; intros state H; [exact H|].
  rewrite save_releases_cons. apply IH.
  destruct (save_release_cases state rel) as [[_ ->]|(rec & _ & ->)];
    [exact H|].
  apply has_ocid_kept, H.
Qed.

Lemma save_releases_stores rels : forall state rel rec,
  In rel rels -> parse rel = Some rec ->
  has_ocid (ocid rec) (fst (save_releases rels state)) = true.
Proof.
  induction rels as [|r rels IH]; intros state rel rec Hin E;
    [destruct Hin|destruct Hin as [<-|Hin]].
  - rewrite save_releases_cons. apply save_releases_keeps.
    destruct (save_release_cases state r) as [[E' _]|(rec' & E' & ->)];
      [congruence|].
    assert (rec' = rec) by congruence. subst. apply has_ocid_saved.
  - rewrite save_releases_cons. apply (IH _ rel rec Hin E).
Qed.

Lemma save_releases_noop rels : forall db n,
  (forall rel rec, In rel rels -> parse rel = Some rec ->
     has_ocid (ocid rec) db = true) ->
  fst (save_releases rels (db, n)) = db.
Proof.
  induction rels as [|r rels IH]; intros db n H; [reflexivity|].
  rewrite save_releases_cons.
  destruct (save_release_cases (db, n) r) as [[_ ->]|(rec & E & ->)].
  - apply IH. intros rel rec Hin. apply H. now right.
  - cbn [fst snd].
    destruct (save_cases rec db) as [[_ ->]|(K & _)].
    + apply IH. intros rel rec' Hin. apply H. now right.
    + rewrite (H r rec (or_introl eq_refl) E) in K. discriminate.
Qed.

End WithLibrary.

End OcdsFacts.

Module ScraperFacts.
Import Ocds StoreFacts OcdsFacts.

Lemma unique_ocids_save rec db :
  unique_ocids db -> unique_ocids (save_award_record rec db).
Proof.
  intros H. destruct (save_cases rec db) as [[_ ->]|(K & E & _)]; [exact H|].
  unfold unique_ocids. rewrite E, map_app. cbn [List.map].
  apply NoDup_app; [exact H|repeat constructor; intros []|].
  intros id Hin [<-|[]].
  apply has_ocid_In in Hin. congruence.
Qed.

Section Grows.
Variable origin : AwardRecord -> Prop.

Lemma grows_refl state : grows origin state state.
Proof.
  exists []. rewrite app_nil_r. cbn [List.length].
  repeat split; [lia|constructor|auto].
Qed.

Lemma grows_trans a b c :
  grows origin a b -> grows origin b c -> grows origin a c.
Proof.
  intros (l1 & A1 & A2 & A3 & A4 & A5 & A6) (l2 & B1 & B2 & B3 & B4 & B5 & B6).
  exists (l1 ++ l2). rewrite B1, A1, app_assoc, length_app.
  repeat split; [lia|congruence|congruence|apply Forall_app; auto|auto].
Qed.

Lemma grows_save rec state :
  origin rec ->
  grows origin state (save_award_record rec (fst state), S (snd state)).
Proof.
  intros Ho. cbn [fst snd].
  destruct (save_cases rec (fst state)) as [[_ ->]|(_ & E1 & E2 & E3)].
  - exists []. rewrite app_nil_r. cbn [List.length fst snd].
    repeat split; [lia|constructor|auto].
  - exists [rec]. cbn [List.length fst snd].
    repeat split; [exact E1|lia|exact E2|exact E3|repeat constructor; exact Ho|].
    apply unique_ocids_save.
Qed.

Lemma grows_weaken (origin' : AwardRecord -> Prop) a b :
  (forall rec, origin rec -> origin' rec) ->
  grows origin a b -> grows origin' a b.
Proof.
  intros Hw (l & A1 & A2 & A3 & A4 & A5 & A6).
  exists l. repeat split; auto.
  rewrite Forall_forall in *. auto.
Qed.

End Grows.

Section WithLibrary.
Variable days_between : pystr -> pystr -> option Z.
Variable json_dumps : Release -> pystr.

Abbreviation parse := (parse_ocds_release days_between json_dumps).
Abbreviation save_releases := (Ocds.save_releases days_between json_dumps).
Abbreviation scrape := (Ocds.scrape days_between json_dumps).

Lemma save_releases_grows rels : forall state,
  grows (fun rec => exists rel, In rel rels /\ parse rel = Some rec)
    state (save_releases rels state).
Proof.
  induction rels as [|rel rels IH]; intros state; [apply grows_refl|].
  rewrite save_releases_cons.
  apply (grows_trans _ _ (Ocds.save_release days_between json_dumps state rel)).
  - destruct (save_release_cases days_between json_dumps state rel)
      as [[_ ->]|(rec & E & ->)]; [apply grows_refl|].
    apply grows_save. exists rel. split; [now left|exact E].
  - eapply grows_weaken; [|apply IH].
    intros rec (r & Hr & E). exists r. split; [now right|exact E].
Qed.

Lemma scrape_grows fetch fuel : forall call cursor state result,
  scrape fetch fuel call cursor state = Some result ->
  grows (fun rec => exists n c rel,
           In rel (get (pg_releases (fetch n c)) [])
           /\ parse rel = Some rec)
    state result.
Proof.
  induction fuel as [|fuel IH]; intros call cursor state result H;
    [discriminate|].
  cbn [Ocds.scrape] in H.
  destruct (get (pg_releases (fetch call cursor)) []) as [|rel rels] eqn:P.
  - injection H as <-. apply grows_refl.
  - assert (G : grows (fun rec => exists n c rel,
                         In rel (get (pg_releases (fetch n c)) [])
                         /\ parse rel = Some rec)
                  state (save_releases (rel :: rels) state)).
    { eapply grows_weaken; [|apply save_releases_grows].
      intros rec (r & Hr & E). exists call, cursor, r.
      rewrite P. split; assumption. }
    destruct (next_cursor (fetch call cursor)) as [next|].
    + destruct (cursor_falsy next || cursor_eqb next cursor).
      * injection H as <-. exact G.
      * eapply grows_trans; [exact G|]. eapply IH, H.
    + injection H as <-. exact G.
Qed.

Lemma scrape_ends fetch n : forall k call fuel cursor state,
  (call + k = n)%nat -> (k < fuel)%nat ->
  (forall c, final_page (fetch n c)) ->
  exists result, scrape fetch fuel call cursor state = Some result.
Proof.
  induction k as [|k IH]; intros call fuel cursor state E Hf Hend;
    (destruct fuel as [|fuel]; [lia|]); cbn [Ocds.scrape].
  - replace call with n by lia.
    destruct (Hend cursor) as [-> | ->]; [eauto|].
    destruct (get (pg_releases (fetch n cursor)) []); eauto.
  - destruct (get (pg_releases (fetch call cursor)) []); [eauto|].
    destruct (next_cursor (fetch call cursor)) as [next|]; [|eauto].
    destruct (cursor_falsy next || cursor_eqb next cursor); [eauto|].
    apply IH; [lia|lia|exact Hend].
Qed.

End WithLibrary.

End ScraperFacts.

Module StoreProps.
Import StoreFacts ScraperFacts Samples.

(** X5 ([save_award_record]).  On a table whose [ocid]s are distinct,
    a save keeps them distinct; afterwards the row found under the
    record's [ocid] is the one that was there first (the new record
    only when there was none), the rows found under any other [ocid]
    are as before, and the two profile tables are untouched. *)
Theorem save_keeps_first_record (rec : AwardRecord) (db : Db)
  (Hunique : unique_ocids db) :
  unique_ocids (save_award_record rec db)
  /\ find_ocid (ocid rec) (save_award_record rec db)
     = Some match find_ocid (ocid rec) db with
            | Some first => first
            | None => rec
            end
  /\ (forall id, id <> ocid rec ->
        find_ocid id (save_award_record rec db) = find_ocid id db)
  /\ competitor_profiles (save_award_record rec db) = competitor_profiles db
  /\ pe_profiles (save_award_record rec db) = pe_profiles db.
Proof.
  split; [apply unique_ocids_save, Hunique|].
  destruct (save_cases rec db) as [[H ->]|(H & E & E2 & E3)].
  - repeat split.
    destruct (find_ocid (ocid rec) db) eqn:F; [reflexivity|].
    apply find_none_has in F. congruence.
  - split; [|split; [|split; assumption]].
    + apply find_none_has in H. rewrite H.
      unfold find_ocid in *. rewrite E, (find_app_r _ _ _ H).
      cbn [find]. rewrite PyStrFacts.eqb_refl. reflexivity.
    + intros id Hne. unfold find_ocid. rewrite E.
      destruct (find (fun r => eqb (ocid r) id) (award_records db)) eqn:F.
      * apply find_app_l, F.
      * rewrite (find_app_r _ _ _ F). cbn [find].
        replace (eqb (ocid rec) id) with false; [reflexivity|].
        symmetry. apply PyStrFacts.eqb_neq. congruence.
Qed.

Lemma save_keeps_first_record_witness :
  unique_ocids db_two_awards /\
  find_ocid (str "TZ-4")
    (save_award_record
       (award "TZ-4" "Gamma Group" "Ministry of Y" "ICT" "2024-09-01"
          None None)
       db_two_awards)
  = Some (award "TZ-4" "Alpha Systems" "Ministry of X" "ICT" "2024-04-10"
            (Some 90) (Some 0.90)).
Proof.
  assert (H : unique_ocids db_two_awards).
  { repeat constructor; cbn; intuition discriminate. }
  split; [exact H|].
  exact (proj1 (proj2 (save_keeps_first_record
           (award "TZ-4" "Gamma Group" "Ministry of Y" "ICT" "2024-09-01"
              None None) db_two_awards H))).
Defined.

End StoreProps.

(** ** The parser and the scraper: what a caller can rely on *)

Module ParserFacts.
Import Ocds.

Lemma slice_length i j s : (List.length (Py.slice i j s) <= j - i)%nat.
Proof. unfold Py.slice. apply firstn_le_length. Qed.

Lemma ratio_of_spec price estimate r :
  ratio_of price estimate = Some r
  <-> exists p e,
        price = Some p /\ estimate = Some e
        /\ ~ p == 0 /\ 0 < e /\ r = Py.round_nd (p / e) 4.
Proof.
  unfold ratio_of. split.
  - destruct price as [p|]; [|discriminate].
    destruct estimate as [e|]; [|discriminate].
    destruct (Py.truthy (Some p)) eqn:Tp; [|discriminate].
    destruct (Py.truthy (Some e)) eqn:Te; [|discriminate].
    destruct (Py.ltb 0 e) eqn:L; [|discriminate].
    cbn [andb]. intros [= <-]. exists p, e.
    repeat split; [|apply PyFacts.ltb_lt, L].
    intros K. apply Qeq_bool_iff in K.
    cbn [Py.truthy] in Tp. rewrite K in Tp. discriminate.
  - intros (p & e & -> & -> & Hp & He & ->).
    assert (Tp : Py.truthy (Some p) = true).
    { cbn [Py.truthy]. destruct (Qeq_bool p 0) eqn:K; [|reflexivity].
      apply Qeq_bool_iff in K. contradiction. }
    assert (Te : Py.truthy (Some e) = true).
    { cbn [Py.truthy]. destruct (Qeq_bool e 0) eqn:K; [|reflexivity].
      apply Qeq_bool_iff in K. rewrite K in He.
      destruct (Qlt_irrefl _ He). }
    rewrite Tp, Te, (proj2 (PyFacts.ltb_lt 0 e) He). reflexivity.
Qed.

Lemma ratio_of_guard price estimate :
  ratio_of price estimate <> None
  <-> exists p e,
        price = Some p /\ estimate = Some e /\ ~ p == 0 /\ 0 < e.
Proof.
  split.
  - destruct (ratio_of price estimate) as [r|] eqn:E; [|congruence].
    intros _. apply ratio_of_spec in E.
    destruct E as (p & e & H1 & H2 & H3 & H4 & _).
    exists p, e. repeat split; assumption.
  - intros (p & e & H1 & H2 & H3 & H4).
    assert (E : ratio_of price estimate = Some (Py.round_nd (p / e) 4))
      by (apply ratio_of_spec; exists p, e; repeat split; assumption).
    rewrite E. discriminate.
Qed.

(** The stored ratio is on the same side of a number with four
    decimals as the quotient. *)
Lemma ratio_of_sides p e r (k : Z) :
  ratio_of (Some p) (Some e) = Some r ->
  (inject_Z k / 10000 <= p / e -> inject_Z k / 10000 <= r)
  /\ (p / e <= inject_Z k / 10000 -> r <= inject_Z k / 10000).
Proof.
  intros E. apply ratio_of_spec in E.
  destruct E as (p' & e' & [= <-] & [= <-] & _ & _ & ->).
  split; [apply PyFacts.round_nd_ge|apply PyFacts.round_nd_le].
Qed.

End ParserFacts.

Module ScraperProps.
Import Ocds StoreFacts OcdsFacts ScraperFacts ParserFacts Sectors.

(** X6 ([parse_ocds_release]).  A record parsed from a release whose
    first supplier name is ASCII has a winner that the normalizer
    leaves as it is and a sector of the taxonomy; it has a price ratio
    exactly when the price is not zero and the estimate is positive,
    and this ratio, the quotient rounded to four decimals, is on the
    same side as the quotient of every number of four decimals
    between -2 and 2 (so it is at most 1 when the price is at most
    the estimate, and not negative when the price is not).  The texts
    cut by the parser stay within their bounds. *)
Theorem parsed_record_is_settled
  (days_between : pystr -> pystr -> option Z)
  (json_dumps : Release -> pystr)
  (rel : Release) (rec : AwardRecord)
  (Hname : forall award,
      List.hd_error (get (r_awards rel) []) = Some award ->
      is_ascii_str (supplier_name award))
  (Hparse : parse_ocds_release days_between json_dumps rel = Some rec) :
  settled rec
  /\ (sector rec = Other \/ In (sector rec) (List.map fst SECTOR_KEYWORDS))
  /\ (price_ratio rec <> None
      <-> exists p e,
            contract_price rec = Some p /\ tender_estimate rec = Some e
            /\ ~ p == 0 /\ 0 < e)
  /\ (forall p e r (k : Z),
        contract_price rec = Some p -> tender_estimate rec = Some e ->
        price_ratio rec = Some r -> (-20000 <= k <= 20000)%Z ->
        (inject_Z k / 10000 <= p / e -> inject_Z k / 10000 <= r)
        /\ (p / e <= inject_Z k / 10000 -> r <= inject_Z k / 10000))
  /\ (List.length (tender_description rec) <= 400)%nat
  /\ (List.length (award_date rec) <= 10)%nat
  /\ (List.length (raw_json rec) <= 3000)%nat.
Proof.
  unfold parse_ocds_release in Hparse.
  destruct (get (r_awards rel) []) as [|award rest]; [discriminate|].
  destruct (delivery_of days_between (a_contractPeriod award));
    [|discriminate].
  injection Hparse as <-.
  unfold settled. cbn [winning_company sector price_ratio contract_price
    tender_estimate tender_description award_date raw_json].
  split; [|split; [|split; [|split; [|split; [|split]]]]].
  - unfold winner_of.
    apply NormalizerFacts.normalize_idempotent_on_ascii.
    apply Hname. reflexivity.
  - apply SectorFacts.classify_sector_known.
  - apply ratio_of_guard.
  - intros q0 e0 r0 k Hq He Hr _. rewrite Hq, He in Hr.
    apply (ratio_of_sides q0 e0 r0 k Hr).
  - apply (slice_length 0 400).
  - apply (slice_length 0 10).
  - apply (slice_length 0 3000).
Qed.

Lemma parsed_record_is_settled_witness :
  exists rec,
    parse_ocds_release no_days no_json acme = Some rec
    /\ settled rec
    /\ winning_company rec = str "Acme Supplies"
    /\ sector rec = str "Supply/Goods".
Proof.
  assert (P : parse_ocds_release no_days no_json acme
              = Some (match parse_ocds_release no_days no_json acme with
                      | Some rec => rec
                      | None => Samples.numbered None 0
                      end)) by reflexivity.
  eexists. split; [exact P|].
  split; [|split; vm_compute; reflexivity].
  refine (proj1 (parsed_record_is_settled no_days no_json acme _ _ P)).
  intros a [= <-]. repeat constructor.
Defined.

(** X7 (the loop over [releases] in [run_platform_scraper]).  The
    counter [saved] goes up by one for every release that parses,
    whether or not the store takes the record; a second pass over the
    same releases leaves the store as the first pass made it and
    counts them all again. *)
Theorem rescrape_counts_again
  (days_between : pystr -> pystr -> option Z)
  (json_dumps : Release -> pystr)
  (releases : list Release) (db : Db) (saved : nat) :
  let parsed :=
    List.length (List.filter (parses days_between json_dumps) releases) in
  let first := save_releases days_between json_dumps releases (db, saved) in
  let second := save_releases days_between json_dumps releases first in
  snd first = (saved + parsed)%nat
  /\ fst second = fst first
  /\ snd second = (saved + 2 * parsed)%nat.
Proof.
  cbn zeta.
  set (first := save_releases days_between json_dumps releases (db, saved)).
  assert (E1 : snd first
               = (saved + List.length
                    (List.filter (parses days_between json_dumps) releases))%nat)
    by apply (save_releases_count days_between json_dumps releases (db, saved)).
  split; [exact E1|]. split.
  - rewrite (surjective_pairing first) at 1.
    apply save_releases_noop.
    intros rel rec Hin E.
    apply (save_releases_stores days_between json_dumps releases
             (db, saved) rel rec Hin E).
  - rewrite save_releases_count, E1. lia.
Qed.

(** X8 ([run_platform_scraper]).  Whenever the scraper returns, the
    records that were in the store are still there, in place and in
    order; what it appended are records parsed from releases of pages
    it was given, at most as many as the count it returns; distinct
    [ocid]s stay distinct, and the two profile tables are as
    before. *)
Theorem scraper_only_appends
  (days_between : pystr -> pystr -> option Z)
  (json_dumps : Release -> pystr)
  (fetch : nat -> Cursor -> Page) (fuel : nat) (db db' : Db) (saved : nat)
  (Hrun : run_platform_scraper days_between json_dumps fetch fuel db
          = Some (db', saved)) :
  exists added,
    award_records db' = award_records db ++ added
    /\ (List.length added <= saved)%nat
    /\ (forall rec, In rec added ->
          exists call cursor rel,
            In rel (get (pg_releases (fetch call cursor)) [])
            /\ parse_ocds_release days_between json_dumps rel = Some rec)
    /\ (unique_ocids db -> unique_ocids db')
    /\ competitor_profiles db' = competitor_profiles db
    /\ pe_profiles db' = pe_profiles db.
Proof.
  apply scrape_grows in Hrun.
  destruct Hrun as (added & A1 & A2 & A3 & A4 & A5 & A6).
  cbn [fst snd] in *. exists added.
  repeat split; [exact A1|lia| |exact A6|exact A3|exact A4].
  rewrite Forall_forall in A5. exact A5.
Qed.

Lemma scraper_only_appends_witness :
  exists db' added,
    run_platform_scraper no_days no_json one_page 1 empty_db = Some (db', 2%nat)
    /\ award_records db' = award_records empty_db ++ added
    /\ (List.length added <= 2)%nat.
Proof.
  assert (R : run_platform_scraper no_days no_json one_page 1 empty_db
              = Some (fst (save_releases no_days no_json [acme; acme]
                             (empty_db, O)), 2%nat)) by reflexivity.
  destruct (scraper_only_appends no_days no_json one_page 1 empty_db _ _ R)
    as (added & A1 & A2 & _).
  eexists. exists added. split; [exact R|]. split; [exact A1|exact A2].
Defined.

(** X9 ([run_platform_scraper]).  If the page the server returns at
    its [n]-th request (counted from 0) has no release or no cursor to
    go on with, the loop ends: it needs no more than [n + 1]
    requests. *)
Theorem scraper_ends_at_final_page
  (days_between : pystr -> pystr -> option Z)
  (json_dumps : Release -> pystr)
  (fetch : nat -> Cursor -> Page) (n fuel : nat) (db : Db)
  (Hfinal : forall cursor, final_page (fetch n cursor))
  (Hfuel : (n < fuel)%nat) :
  exists result,
    run_platform_scraper days_between json_dumps fetch fuel db = Some result.
Proof.
  unfold run_platform_scraper.
  apply (scrape_ends days_between json_dumps fetch n n 0 fuel);
    [lia|exact Hfuel|exact Hfinal].
Qed.

Lemma scraper_ends_at_final_page_witness :
  exists result,
    run_platform_scraper no_days no_json one_page 5 empty_db = Some result.
Proof.
  apply (scraper_ends_at_final_page no_days no_json one_page 0 5 empty_db).
  - intros cursor. right. reflexivity.
  - lia.
Defined.

End ScraperProps.

(** ** The profile rebuilds: running them again, and what they keep *)

Module TableMore.
Import PyFacts.

Lemma Forall2_same {A} (P : A -> A -> Prop) (l : list A) :
  (forall x, P x x) -> Forall2 P l l.
Proof. intros H. induction l; constructor; auto. Qed.

Section Upserts.
Context {R : Type} (key : R -> pystr) (update : R -> R -> R).
Hypothesis update_key : forall old new, key (update old new) = key old.

(** An upsert that finds its own values changes nothing. *)
Lemma upsert_fixed new table row :
  Py.select key (key new) table = Some row -> update row new = row ->
  Py.upsert key update new table = table.
Proof.
  unfold Py.select. induction table as [|old rest IH]; cbn; [discriminate|].
  destruct (eqb (key new) (key old)) eqn:E.
  - intros [= ->] ->. reflexivity.
  - intros H1 H2. rewrite (IH H1 H2). reflexivity.
Qed.

(** [kept old r]: the row [r] has the columns of [old] that no upsert
    writes. *)
Variable kept : R -> R -> Prop.
Hypothesis kept_refl : forall r, kept r r.
Hypothesis kept_trans : forall a b c, kept a b -> kept b c -> kept a c.
Hypothesis kept_update : forall old new, kept old (update old new).

(** An upsert rewrites at most one row in place, or appends one. *)
Lemma upsert_shape new table :
  exists table' extra,
    Py.upsert key update new table = table' ++ extra
    /\ Forall2 (fun old r => key r = key old /\ kept old r
                             /\ (key old <> key new -> r = old))
         table table'
    /\ (extra = [] \/ extra = [new]).
Proof.
  induction table as [|old rest IH]; cbn [Py.upsert].
  - exists [], [new]. repeat split; [constructor|now right].
  - destruct (eqb (key new) (key old)) eqn:E.
    + exists (update old new :: rest), []. rewrite app_nil_r.
      split; [reflexivity|]. split; [|now left].
      constructor.
      * split; [apply update_key|]. split; [apply kept_update|].
        apply PyStrFacts.eqb_eq in E. congruence.
      * apply Forall2_same. auto.
    + destruct IH as (table' & extra & -> & F & X).
      exists (old :: table'), extra. split; [reflexivity|].
      split; [|exact X]. constructor; [|exact F]. auto.
Qed.

Section Writes.
Context {A : Type} (row_of : pystr -> A -> R).
Hypothesis row_key : forall k a, key (row_of k a) = k.

Lemma write_all_cons k a (entries : list (pystr * A)) table :
  Py.write_all key update row_of ((k, a) :: entries) table
  = Py.write_all key update row_of entries
      (Py.upsert key update (row_of k a) table).
Proof. reflexivity. Qed.

(** Writing the same dictionary again changes nothing, when an update
    by the same values does not. *)
Lemma write_all_fixed (entries : list (pystr * A)) table :
  (forall k a, In (k, a) entries ->
     exists row, Py.select key k table = Some row
                 /\ update row (row_of k a) = row) ->
  Py.write_all key update row_of entries table = table.
Proof.
  induction entries as [|[k a] entries IH]; intros H; [reflexivity|].
  rewrite write_all_cons.
  destruct (H k a (or_introl eq_refl)) as (row & Hs & Hu).
  rewrite (upsert_fixed (row_of k a) table row);
    [|rewrite row_key; exact Hs|exact Hu].
  apply IH. intros k' a' Hin. apply H. now right.
Qed.

Lemma write_all_again (entries : list (pystr * A)) table :
  NoDup (List.map fst entries) ->
  (forall new, update new new = new) ->
  (forall old new, update (update old new) new = update old new) ->
  Py.write_all key update row_of entries
    (Py.write_all key update row_of entries table)
  = Py.write_all key update row_of entries table.
Proof.
  intros Hnd H1 H2. apply write_all_fixed. intros k a Hin.
  destruct (select_after_writes key update update_key row_of row_key
              entries table k a Hnd Hin) as (row & Hs & Hrow).
  exists row. split; [exact Hs|].
  destruct Hrow as [->|[old ->]]; auto.
Qed.

(** The rows of the table stay in place and keep the columns no
    upsert writes; the rows of keys that are not written stay as they
    are; new rows come last. *)
Lemma write_all_shape (entries : list (pystr * A)) : forall table,
  exists table' extra,
    Py.write_all key update row_of entries table = table' ++ extra
    /\ Forall2 (fun old r => key r = key old /\ kept old r
                             /\ (~ In (key old) (List.map fst entries)
                                 -> r = old))
         table table'
    /\ Forall (fun r => exists k a, In (k, a) entries /\ key r = k
                                    /\ kept (row_of k a) r) extra.
Proof.
  induction entries as [|[k a] entries IH]; intros table.
  - exists table, []. rewrite app_nil_r. split; [reflexivity|].
    split; [|constructor].
    apply Forall2_same. auto.
  - rewrite write_all_cons.
    destruct (upsert_shape (row_of k a) table) as (t1 & e1 & -> & F1 & X1).
    destruct (IH (t1 ++ e1)) as (t2 & e2 & -> & F2 & X2).
    apply Forall2_app_inv_l in F2.
    destruct F2 as (t2a & t2b & Fa & Fb & ->).
    exists t2a, (t2b ++ e2). rewrite <- app_assoc.
    split; [reflexivity|]. split.
    + clear - F1 Fa kept_trans row_key. revert t2a Fa.
      induction F1 as [|old r1 l l1 (K1 & K2 & K3) F1 IHF];
        intros t2a Fa; inversion Fa as [|? r2 ? l2 (L1 & L2 & L3) Fa']; subst;
        constructor.
      * split; [congruence|]. split; [eapply kept_trans; eassumption|].
        intros Hn. cbn [List.map fst] in Hn.
        rewrite L3, K3; [reflexivity| |].
        -- rewrite row_key. intros E. apply Hn. left. congruence.
        -- rewrite K1. intros E. apply Hn. right. exact E.
      * apply IHF, Fa'.
    + apply Forall_app. split.
      * destruct X1 as [-> | ->].
        -- inversion Fb. constructor.
        -- inversion Fb as [|? r ? ? (L1 & L2 & _) Fb']; subst.
           inversion Fb'; subst. repeat constructor.
           exists k, a. split; [now left|].
           split; [rewrite L1; apply row_key|exact L2].
      * rewrite Forall_forall in *. intros r Hr.
        destruct (X2 r Hr) as (k' & a' & Hin & E & Hk).
        exists k', a'. split; [now right|]. split; assumption.
Qed.

End Writes.

End Upserts.

End TableMore.

Module RebuildFacts.
Import PyFacts TableMore CompetitorFacts PEFacts.

Lemma competitor_update_self new : Competitors.update new new = new.
Proof. destruct new; reflexivity. Qed.

Lemma competitor_update_again old new :
  Competitors.update (Competitors.update old new) new
  = Competitors.update old new.
Proof. reflexivity. Qed.

Lemma pe_update_self new : PE.update new new = new.
Proof. destruct new; reflexivity. Qed.

Lemma pe_update_again old new :
  PE.update (PE.update old new) new = PE.update old new.
Proof. reflexivity. Qed.

End RebuildFacts.

Module RebuildProps.
Import PyFacts TableMore CompetitorFacts PEFacts RebuildFacts Samples.

(** X10 ([rebuild_competitor_profiles]).  Running the rebuild a second
    time, with no new award in between, returns the same profiles and
    leaves every table as the first run made it (the time stamp
    [last_updated], which is not represented, apart). *)
Theorem competitor_rebuild_is_idempotent (db : Db) :
  Competitors.rebuild_competitor_profiles
    (fst (Competitors.rebuild_competitor_profiles db))
  = Competitors.rebuild_competitor_profiles db.
Proof.
  unfold Competitors.rebuild_competitor_profiles.
  cbn [fst award_records competitor_profiles pe_profiles].
  unfold Competitors.write_profiles.
  set (profiles := Competitors.aggregate
                     (filter Competitors.selected (award_records db))).
  rewrite (write_all_again cr_company_name Competitors.update
             (fun old new => eq_refl)
             (Competitors.values (Competitors.total_wins_max profiles))
             (fun k a => eq_refl));
    [reflexivity| |apply competitor_update_self|apply competitor_update_again].
  apply aggregate_well_formed.
Qed.

(** X11 ([rebuild_pe_profiles]).  When the rebuild completes, running
    it a second time, with no new award in between, completes too,
    returns the same buyer data and leaves every table as the first
    run made it (the time stamp [last_updated], which is not
    represented, apart). *)
Theorem pe_rebuild_is_idempotent (db db' : Db) (pe_data : list (pystr * PEAgg))
  (Hrun : PE.rebuild_pe_profiles db = Some (db', pe_data)) :
  PE.rebuild_pe_profiles db' = Some (db', pe_data).
Proof.
  unfold PE.rebuild_pe_profiles in *.
  destruct (PE.aggregate (award_records db)) as [data|] eqn:A; [|discriminate].
  injection Hrun as <- <-. cbn [award_records competitor_profiles pe_profiles].
  rewrite A. unfold PE.write_profiles.
  rewrite (write_all_again pr_pe_name PE.update
             (fun old new => eq_refl) PE.values (fun k a => eq_refl));
    [reflexivity| |apply pe_update_self|apply pe_update_again].
  apply (aggregate_reads _ _ A).
Qed.

Lemma pe_rebuild_is_idempotent_witness :
  exists db' pe_data,
    PE.rebuild_pe_profiles db_two_awards = Some (db', pe_data)
    /\ PE.rebuild_pe_profiles db' = Some (db', pe_data).
Proof.
  destruct (PE.rebuild_pe_profiles db_two_awards) as [[db' pe_data]|] eqn:E;
    [|vm_compute in E; discriminate].
  exists db', pe_data. split; [reflexivity|].
  exact (pe_rebuild_is_idempotent db_two_awards db' pe_data E).
Defined.

(** X12 ([rebuild_competitor_profiles]).  The rebuild deletes no row
    of [competitor_profiles] and moves none: every row that was there
    keeps its place, its [company_name], its [aliases] and its
    [geographic_focus], and stays entirely as it was when its company
    is not among the rebuilt profiles; rows of new companies are
    appended with both columns NULL.  The award records and the PE
    table are not written. *)
Theorem competitor_rebuild_keeps_rows (db : Db) :
  let db' := fst (Competitors.rebuild_competitor_profiles db) in
  let profiles := snd (Competitors.rebuild_competitor_profiles db) in
  award_records db' = award_records db
  /\ pe_profiles db' = pe_profiles db
  /\ exists kept added,
       competitor_profiles db' = kept ++ added
       /\ Forall2
            (fun old row =>
               cr_company_name row = cr_company_name old
               /\ cr_aliases row = cr_aliases old
               /\ cr_geographic_focus row = cr_geographic_focus old
               /\ (~ In (cr_company_name old) (List.map fst profiles) ->
                   row = old))
            (competitor_profiles db) kept
       /\ Forall
            (fun row =>
               In (cr_company_name row) (List.map fst profiles)
               /\ cr_aliases row = None
               /\ cr_geographic_focus row = None)
            added.
Proof.
  cbn zeta.
  unfold Competitors.rebuild_competitor_profiles.
  cbn [fst snd award_records competitor_profiles pe_profiles].
  split; [reflexivity|]. split; [reflexivity|].
  set (profiles := Competitors.aggregate
                     (filter Competitors.selected (award_records db))).
  destruct (write_all_shape cr_company_name Competitors.update
              (fun old new => eq_refl)
              (fun old r => cr_aliases r = cr_aliases old
                            /\ cr_geographic_focus r = cr_geographic_focus old)
              (fun r => conj eq_refl eq_refl)
              (fun a b c H1 H2 =>
                 conj (eq_trans (proj1 H2) (proj1 H1))
                      (eq_trans (proj2 H2) (proj2 H1)))
              (fun old new => conj eq_refl eq_refl)
              (Competitors.values (Competitors.total_wins_max profiles))
              (fun k a => eq_refl)
              profiles (competitor_profiles db))
    as (kept & added & E & F & X).
  exists kept, added. split; [exact E|]. split.
  - eapply Forall2_impl; [|exact F].
    intros old r (K1 & (K2 & K3) & K4). auto.
  - eapply Forall_impl; [|exact X].
    intros r (k & a & Hin & Hk & K1 & K2). cbn in K1, K2.
    split; [|split; assumption].
    rewrite Hk. apply (in_map fst _ _ Hin).
Qed.

(** X13 ([rebuild_pe_profiles]).  When the rebuild completes, it has
    deleted no row of [pe_profiles] and moved none: every row that was
    there keeps its place, its [pe_name], its [pe_code], its
    [disqualification_patterns] and its [strategic_notes], and stays
    entirely as it was when its buyer has no award; rows of new buyers
    are appended.  The award records and the competitor table are not
    written. *)
Theorem pe_rebuild_keeps_rows (db db' : Db) (pe_data : list (pystr * PEAgg))
  (Hrun : PE.rebuild_pe_profiles db = Some (db', pe_data)) :
  award_records db' = award_records db
  /\ competitor_profiles db' = competitor_profiles db
  /\ exists kept added,
       pe_profiles db' = kept ++ added
       /\ Forall2
            (fun old row =>
               pr_pe_name row = pr_pe_name old
               /\ pr_pe_code row = pr_pe_code old
               /\ pr_disqualification_patterns row
                  = pr_disqualification_patterns old
               /\ pr_strategic_notes row = pr_strategic_notes old
               /\ (~ In (pr_pe_name old) (List.map fst pe_data) -> row = old))
            (pe_profiles db) kept
       /\ Forall
            (fun row =>
               In (pr_pe_name row) (List.map fst pe_data)
               /\ pr_disqualification_patterns row = None
               /\ pr_strategic_notes row = None)
            added.
Proof.
  unfold PE.rebuild_pe_profiles in Hrun.
  destruct (PE.aggregate (award_records db)) as [data|] eqn:A; [|discriminate].
  injection Hrun as <- <-. cbn [award_records competitor_profiles pe_profiles].
  split; [reflexivity|]. split; [reflexivity|].
  destruct (write_all_shape pr_pe_name PE.update
              (fun old new => eq_refl)
              (fun old r => pr_pe_code r = pr_pe_code old
                            /\ pr_disqualification_patterns r
                               = pr_disqualification_patterns old
                            /\ pr_strategic_notes r = pr_strategic_notes old)
              (fun r => conj eq_refl (conj eq_refl eq_refl))
              (fun a b c H1 H2 =>
                 conj (eq_trans (proj1 H2) (proj1 H1))
                      (conj (eq_trans (proj1 (proj2 H2)) (proj1 (proj2 H1)))
                            (eq_trans (proj2 (proj2 H2)) (proj2 (proj2 H1)))))
              (fun old new => conj eq_refl (conj eq_refl eq_refl))
              PE.values (fun k a => eq_refl)
              data (pe_profiles db))
    as (kept & added & E & F & X).
  exists kept, added. split; [exact E|]. split.
  - eapply Forall2_impl; [|exact F].
    intros old r (K1 & (K2 & K3 & K4) & K5). auto.
  - eapply Forall_impl; [|exact X].
    intros r (k & a & Hin & Hk & K1 & K2 & K3). cbn in K2, K3.
    split; [|split; assumption].
    rewrite Hk. apply (in_map fst _ _ Hin).
Qed.

Lemma pe_rebuild_keeps_rows_witness :
  exists db' pe_data,
    PE.rebuild_pe_profiles db_two_awards = Some (db', pe_data)
    /\ award_records db' = award_records db_two_awards.
Proof.
  destruct (PE.rebuild_pe_profiles db_two_awards) as [[db' pe_data]|] eqn:E;
    [|vm_compute in E; discriminate].
  exists db', pe_data. split; [reflexivity|].
  exact (proj1 (pe_rebuild_keeps_rows db_two_awards db' pe_data E)).
Defined.

End RebuildProps.

(** ** The rebuilt competitor profiles: what each row holds *)

Module ProfileFacts.
Import Competitors Spec PyFacts CompetitorFacts.

Lemma count_of_snoc {A} (f : A -> pystr) k l a :
  count_of f k (l ++ [a])
  = (count_of f k l + if eqb (f a) k then 1 else 0)%Z.
Proof.
  unfold count_of. rewrite filter_app, length_app. cbn [filter].
  destruct (eqb (f a) k); cbn [List.length]; lia.
Qed.

Lemma count_of_nonneg {A} (f : A -> pystr) k l : (0 <= count_of f k l)%Z.
Proof. unfold count_of. lia. Qed.

Lemma histogram_nil {A} (f : A -> pystr) : histogram_of f [] [].
Proof. split; [constructor|]. intros k. reflexivity. Qed.

Lemma histogram_count_up {A} (f : A -> pystr) l h a :
  histogram_of f l h ->
  histogram_of f (l ++ [a]) (Py.count_up eqb (f a) h).
Proof.
  intros [Hk Hg]. unfold Py.count_up. split; [apply dict_set_keys, Hk|].
  intros k. rewrite count_of_snoc.
  pose proof (count_of_nonneg f k l) as Hn.
  destruct (eqb (f a) k) eqn:E.
  - apply PyStrFacts.eqb_eq in E. subst k.
    rewrite dict_get_set_same. unfold Py.dict_get_default. rewrite Hg.
    destruct (Z.ltb_spec 0 (count_of f (f a) l));
      destruct (Z.ltb_spec 0 (count_of f (f a) l + 1)); try lia;
      f_equal; lia.
  - rewrite dict_get_set_other
      by (intros ->; rewrite PyStrFacts.eqb_refl in E; discriminate).
    rewrite Hg, Z.add_0_r. reflexivity.
Qed.

(** *** The order of Python strings *)

Lemma gtb_irrefl a : gtb a a = false.
Proof.
  induction a as [|x a IH]; [reflexivity|].
  cbn [gtb]. rewrite N.ltb_irrefl. exact IH.
Qed.

Lemma gtb_trans a : forall b c,
  gtb a b = true -> gtb b c = true -> gtb a c = true.
Proof.
  induction a as [|x a IH]; intros b c; [discriminate|].
  destruct b as [|y b]; [destruct c; discriminate|].
  destruct c as [|z c]; [reflexivity|].
  cbn [gtb].
  destruct (N.ltb_spec y x), (N.ltb_spec x y), (N.ltb_spec z y),
    (N.ltb_spec y z), (N.ltb_spec z x), (N.ltb_spec x z);
    try discriminate; try reflexivity; try lia.
  apply IH.
Qed.

Lemma latest_nil : latest [] [].
Proof. split; [intros a []|now left]. Qed.

Lemma latest_snoc d l a :
  latest d l ->
  latest (if gtb (award_date a) d then award_date a else d) (l ++ [a]).
Proof.
  intros [H1 H2]. destruct (gtb (award_date a) d) eqn:G; split.
  - intros x Hx. apply in_app_or in Hx. destruct Hx as [Hx|[<-|[]]].
    + destruct (gtb (award_date x) (award_date a)) eqn:K; [|reflexivity].
      rewrite <- (H1 x Hx). symmetry. apply (gtb_trans _ _ _ K G).
    + apply gtb_irrefl.
  - right. exists a. split; [apply in_or_app; right; now left|reflexivity].
  - intros x Hx. apply in_app_or in Hx. destruct Hx as [Hx|[<-|[]]];
      [apply H1, Hx|exact G].
  - destruct H2 as [->|(x & Hx & E)]; [now left|].
    right. exists x. split; [apply in_or_app; now left|exact E].
Qed.

(** *** The loop of the rebuild *)

Lemma group_of_snoc name seen a :
  group_of name (seen ++ [a])
  = group_of name seen
    ++ if eqb (normalize_company_name (Some (winning_company a))) name
       then [a] else [].
Proof. unfold group_of. rewrite filter_app. reflexivity. Qed.

Lemma add_award_reads_more seen acc a :
  reads_more seen acc -> reads_more (seen ++ [a]) (add_award acc a).
Proof.
  unfold reads_more, add_award. intros Hr name.
  set (key := normalize_company_name (Some (winning_company a))).
  rewrite group_of_snoc. fold key.
  destruct (eqb key name) eqn:E.
  - apply PyStrFacts.eqb_eq in E. subst name.
    rewrite dict_get_set_same.
    cbn [ca_company_name ca_primary_sectors ca_pe_relationships
           ca_last_win_date].
    specialize (Hr key). unfold Py.dict_get_default.
    destruct (Py.dict_get eqb key acc) as [p|].
    + destruct Hr as (H1 & H2 & H3 & H4).
      split; [exact H1|]. split; [apply histogram_count_up, H2|].
      split; [apply histogram_count_up, H3|apply latest_snoc, H4].
    + rewrite Hr. cbn [new_profile ca_company_name ca_primary_sectors
                         ca_pe_relationships ca_last_win_date app].
      split; [reflexivity|].
      split; [apply (histogram_count_up sector [] []), histogram_nil|].
      split; [apply (histogram_count_up pe_name [] []), histogram_nil|].
      apply (latest_snoc [] [] a), latest_nil.
  - rewrite dict_get_set_other
      by (intros ->; rewrite PyStrFacts.eqb_refl in E; discriminate).
    rewrite app_nil_r. apply Hr.
Qed.

Lemma fold_reads_more l : forall seen acc,
  reads_more seen acc -> reads_more (seen ++ l) (List.fold_left add_award l acc).
Proof.
  induction l as [|a l IH]; intros seen acc Hr; cbn [fold_left].
  - rewrite app_nil_r. exact Hr.
  - replace (seen ++ a :: l) with ((seen ++ [a]) ++ l)
      by (rewrite <- app_assoc; reflexivity).
    apply IH, add_award_reads_more, Hr.
Qed.

Lemma aggregate_reads_more awards : reads_more awards (aggregate awards).
Proof.
  apply (fold_reads_more awards [] []). intros name. reflexivity.
Qed.

(** The row of a rebuilt profile holds the values computed from it. *)
Lemma competitor_row_values db name p :
  In (name, p) (snd (rebuild_competitor_profiles db)) ->
  exists row,
    get_row name (competitor_profiles (fst (rebuild_competitor_profiles db)))
    = Some row
    /\ update row
         (values (total_wins_max (snd (rebuild_competitor_profiles db)))
            name p)
       = row.
Proof.
  cbn [rebuild_competitor_profiles fst snd competitor_profiles]. intros Hin.
  set (profiles := aggregate (filter selected (award_records db))) in *.
  destruct (aggregate_well_formed (filter selected (award_records db)))
    as [Hk _]. fold profiles in Hk.
  destruct (select_after_writes cr_company_name update
              (fun old new => eq_refl)
              (values (total_wins_max profiles)) (fun k a => eq_refl)
              profiles (competitor_profiles db) name p Hk Hin)
    as (row & Hs & Hrow).
  exists row. split; [exact Hs|].
  destruct Hrow as [->|[old ->]]; reflexivity.
Qed.

Lemma profile_lookup db name p :
  In (name, p) (snd (rebuild_competitor_profiles db)) ->
  Py.dict_get eqb name (snd (rebuild_competitor_profiles db)) = Some p.
Proof.
  cbn [rebuild_competitor_profiles snd]. intros Hin.
  apply dict_In_get; [|exact Hin].
  apply aggregate_well_formed.
Qed.

Lemma wins_of_group name db :
  wins_of name (award_records db)
  = group_of name (filter selected (award_records db)).
Proof. reflexivity. Qed.

End ProfileFacts.

Module ProfileProps.
Import Competitors Spec PyFacts CompetitorFacts ProfileFacts Samples.

(** The profile and the row of a company with a counted award. *)
Lemma profile_of_winner db name :
  wins_of name (award_records db) <> [] ->
  exists p row,
    Py.dict_get eqb name (snd (rebuild_competitor_profiles db)) = Some p
    /\ get_row name (competitor_profiles (fst (rebuild_competitor_profiles db)))
       = Some row
    /\ update row
         (values (total_wins_max (snd (rebuild_competitor_profiles db)))
            name p)
       = row.
Proof.
  intros Hw. rewrite wins_of_group in Hw.
  pose proof (aggregate_reads_wins
                (filter selected (award_records db)) name) as Hr.
  change (aggregate (filter selected (award_records db)))
    with (snd (rebuild_competitor_profiles db)) in Hr.
  destruct (Py.dict_get eqb name (snd (rebuild_competitor_profiles db)))
    as [p|] eqn:G; [|contradiction].
  destruct (competitor_row_values db name p (dict_get_In _ _ _ G))
    as (row & Hs & Hu).
  exists p, row. auto.
Qed.

(** X14 ([rebuild_competitor_profiles]).  For every company name with
    at least one counted award (a stored winner other than "Unknown"
    that normalizes to the name), the row written by the rebuild has
    that name, the number of these awards as [total_wins], and in
    [primary_sectors] and [pe_relationships] exactly the sectors and
    the buyers of these awards, each with the number of its awards. *)
Theorem competitor_row_counts_its_awards (db : Db) (name : pystr)
  (Hwins : wins_of name (award_records db) <> []) :
  exists row,
    get_row name (competitor_profiles (fst (rebuild_competitor_profiles db)))
    = Some row
    /\ cr_company_name row = name
    /\ cr_total_wins row
       = Z.of_nat (List.length (wins_of name (award_records db)))
    /\ histogram_of sector (wins_of name (award_records db))
         (cr_primary_sectors row)
    /\ histogram_of pe_name (wins_of name (award_records db))
         (cr_pe_relationships row).
Proof.
  destruct (profile_of_winner db name Hwins) as (p & row & G & Hs & Hu).
  exists row. split; [exact Hs|].
  pose proof (aggregate_reads_wins
                (filter selected (award_records db)) name) as Hr.
  pose proof (aggregate_reads_more
                (filter selected (award_records db)) name) as Hm.
  change (aggregate (filter selected (award_records db)))
    with (snd (rebuild_competitor_profiles db)) in Hr, Hm.
  rewrite G in Hr, Hm.
  destruct Hr as (_ & _ & R3). destruct Hm as (_ & M2 & M3 & _).
  rewrite wins_of_group.
  split; [|split; [|split]].
  - unfold get_row, Py.select in Hs. apply find_some in Hs.
    destruct Hs as [_ E]. apply PyStrFacts.eqb_eq in E. congruence.
  - rewrite <- R3. apply (f_equal cr_total_wins) in Hu. cbn in Hu. congruence.
  - apply (f_equal cr_primary_sectors) in Hu. cbn in Hu. rewrite <- Hu.
    exact M2.
  - apply (f_equal cr_pe_relationships) in Hu. cbn in Hu. rewrite <- Hu.
    exact M3.
Qed.

Lemma competitor_row_counts_its_awards_witness :
  exists row,
    get_row (str "Alpha Systems")
      (competitor_profiles (fst (rebuild_competitor_profiles db_tie)))
    = Some row
    /\ cr_total_wins row = 1%Z.
Proof.
  assert (H : wins_of (str "Alpha Systems") (award_records db_tie) <> [])
    by (vm_compute; discriminate).
  destruct (competitor_row_counts_its_awards db_tie (str "Alpha Systems") H)
    as (row & Hs & _ & Hw & _).
  exists row. split; [exact Hs|]. rewrite Hw. reflexivity.
Defined.

(** X15 ([rebuild_competitor_profiles]).  In the row of such a
    company, [price_range_min] and [price_range_max] are the least and
    the greatest known (non-NULL, non-zero) contract price of its
    counted awards, both NULL when no price is known;
    [avg_price_ratio] is NULL exactly when no ratio is known, and
    otherwise, being their mean rounded to four decimals, lies in
    every band between two numbers of four decimals from 0 to 2 that
    holds all known ratios; and [last_win_date] is the greatest award
    date of these awards in the order of Python strings. *)
Theorem competitor_row_price_range (db : Db) (name : pystr)
  (Hwins : wins_of name (award_records db) <> []) :
  exists row,
    get_row name (competitor_profiles (fst (rebuild_competitor_profiles db)))
    = Some row
    /\ match known_prices (wins_of name (award_records db)) with
       | [] => cr_price_range_min row = None /\ cr_price_range_max row = None
       | prices =>
           exists lo hi,
             cr_price_range_min row = Some lo
             /\ cr_price_range_max row = Some hi
             /\ least lo prices /\ greatest hi prices
       end
    /\ (cr_avg_price_ratio row = None
        <-> known_ratios (wins_of name (award_records db)) = [])
    /\ (forall (lo hi : Z) avg,
          cr_avg_price_ratio row = Some avg ->
          (0 <= lo)%Z -> (hi <= 20000)%Z ->
          Forall (fun r => inject_Z lo / 10000 <= r <= inject_Z hi / 10000)
            (known_ratios (wins_of name (award_records db))) ->
          inject_Z lo / 10000 <= avg /\ avg <= inject_Z hi / 10000)
    /\ latest (cr_last_win_date row) (wins_of name (award_records db)).
Proof.
  destruct (profile_of_winner db name Hwins) as (p & row & G & Hs & Hu).
  exists row. split; [exact Hs|].
  pose proof (aggregate_reads_wins
                (filter selected (award_records db)) name) as Hr.
  pose proof (aggregate_reads_more
                (filter selected (award_records db)) name) as Hm.
  change (aggregate (filter selected (award_records db)))
    with (snd (rebuild_competitor_profiles db)) in Hr, Hm.
  rewrite G in Hr, Hm.
  destruct Hr as (R1 & R2 & _). destruct Hm as (_ & _ & _ & M4).
  rewrite wins_of_group.
  pose proof (f_equal cr_price_range_min Hu) as U1.
  pose proof (f_equal cr_price_range_max Hu) as U2.
  pose proof (f_equal cr_avg_price_ratio Hu) as U3.
  pose proof (f_equal cr_last_win_date Hu) as U4.
  cbn in U1, U2, U3, U4. rewrite R1 in U1, U2. rewrite R2 in U3.
  split; [|split; [|split]].
  - destruct (known_prices
                (group_of name (filter selected (award_records db))))
      as [|x l].
    + split; congruence.
    + exists (Py.min_list x l), (Py.max_list x l).
      split; [congruence|]. split; [congruence|].
      split; [apply min_list_spec|apply max_list_spec].
  - rewrite <- U3.
    destruct (known_ratios
                (group_of name (filter selected (award_records db))));
      split; congruence.
  - intros lo hi avg Ea _ _ Hband. rewrite <- U3 in Ea.
    destruct (known_ratios
                (group_of name (filter selected (award_records db))))
      as [|x l]; [discriminate|].
    injection Ea as <-. apply rounded_mean_between, Hband.
  - rewrite <- U4. exact M4.
Qed.

Lemma competitor_row_price_range_witness :
  exists row,
    get_row (str "Alpha Systems")
      (competitor_profiles (fst (rebuild_competitor_profiles db_tie)))
    = Some row
    /\ latest (cr_last_win_date row)
         (wins_of (str "Alpha Systems") (award_records db_tie)).
Proof.
  assert (H : wins_of (str "Alpha Systems") (award_records db_tie) <> [])
    by (vm_compute; discriminate).
  destruct (competitor_row_price_range db_tie (str "Alpha Systems") H)
    as (row & Hs & _ & _ & _ & Hl).
  exists row. split; [exact Hs|exact Hl].
Defined.

(** X16 ([rebuild_competitor_profiles] after [parse_ocds_release]).
    On a store in which every stored winner is a text the normalizer
    leaves as it is (as the parser writes them), the rebuild makes no
    profile keyed "Unknown": the profiles are keyed by the stored
    winners other than "Unknown", one for each, and [total_wins] is
    the number of records stored under that winner. *)
Theorem settled_store_has_no_unknown_profile (db : Db)
  (Hsettled : Forall settled (award_records db)) :
  let profiles := snd (rebuild_competitor_profiles db) in
  (forall name p,
     In (name, p) profiles ->
     name <> Unknown
     /\ won_by name (award_records db) <> []
     /\ ca_total_wins p
        = Z.of_nat (List.length (won_by name (award_records db))))
  /\ (forall a,
        In a (award_records db) -> winning_company a <> Unknown ->
        exists p, In (winning_company a, p) profiles).
Proof.
  cbn zeta. cbn [rebuild_competitor_profiles snd].
  set (awards := filter selected (award_records db)).
  assert (G : forall name,
             name <> Unknown -> group_of name awards
                                = won_by name (award_records db)).
  { intros name Hn. unfold awards, group_of, won_by.
    induction Hsettled as [|a l Ha Hl IH]; [reflexivity|].
    cbn [filter]. unfold selected at 1. unfold settled in Ha.
    destruct (eqb (winning_company a) Unknown) eqn:E; cbn [negb filter].
    - apply PyStrFacts.eqb_eq in E.
      replace (eqb (winning_company a) name) with false; [exact IH|].
      symmetry. apply PyStrFacts.eqb_neq. congruence.
    - rewrite Ha, IH. reflexivity. }
  assert (K : forall name a,
             In a (group_of name awards) ->
             winning_company a = name /\ name <> Unknown).
  { intros name a Ha. unfold group_of, awards in Ha.
    apply filter_In in Ha. destruct Ha as [Ha E].
    apply filter_In in Ha. destruct Ha as [Ha S].
    apply PyStrFacts.eqb_eq in E.
    rewrite Forall_forall in Hsettled. rewrite (Hsettled a Ha) in E.
    split; [exact E|]. unfold selected in S. apply negb_true_iff in S.
    apply PyStrFacts.eqb_neq in S. congruence. }
  split.
  - intros name p Hin.
    destruct (aggregate_well_formed awards) as [Hk Hw].
    pose proof (aggregate_reads_wins awards name) as Hr.
    rewrite (dict_In_get _ _ _ Hk Hin) in Hr. destruct Hr as (_ & _ & R3).
    specialize (Hw _ _ Hin).
    destruct (group_of name awards) as [|a l] eqn:Eg;
      [cbn in R3; lia|].
    destruct (K name a) as [_ Hn]; [rewrite Eg; now left|].
    split; [exact Hn|]. rewrite <- (G name Hn), Eg.
    split; [discriminate|exact R3].
  - intros a Ha Hn.
    pose proof (aggregate_reads_wins awards (winning_company a)) as Hr.
    destruct (Py.dict_get eqb (winning_company a) (aggregate awards))
      as [p|] eqn:E; [exists p; apply dict_get_In, E|].
    exfalso. rewrite (G _ Hn) in Hr.
    assert (I : In a (won_by (winning_company a) (award_records db))).
    { unfold won_by. apply filter_In. split; [exact Ha|].
      apply PyStrFacts.eqb_refl. }
    rewrite Hr in I. destruct I.
Qed.

Lemma settled_store_has_no_unknown_profile_witness :
  Forall settled (award_records db_two_awards)
  /\ exists p,
       In (str "Beta Works", p) (snd (rebuild_competitor_profiles db_two_awards)).
Proof.
  assert (H : Forall settled (award_records db_two_awards))
    by (repeat constructor).
  split; [exact H|].
  refine (proj2 (settled_store_has_no_unknown_profile db_two_awards H)
            (award "TZ-5" "Beta Works" "Ministry of X" "ICT" "2024-05-10"
               (Some 94) (Some 0.94)) _ _).
  - right. left. reflexivity.
  - vm_compute. discriminate.
Defined.

End ProfileProps.

(** ** The rebuilt PE profiles: what each row holds *)

Module SortedFacts.

Section Sorting.
Context {A : Type} (key : A -> Z).

Lemma insert_sorted_perm x l :
  Permutation (Py.insert_sorted key x l) (x :: l).
Proof.
  induction l as [|y r IH]; cbn [Py.insert_sorted]; [reflexivity|].
  destruct (key x <=? key y)%Z; [reflexivity|].
  rewrite IH. apply perm_swap.
Qed.

Lemma sorted_perm l : Permutation (Py.sorted key l) l.
Proof.
  induction l as [|x l IH]; [reflexivity|].
  cbn [Py.sorted fold_right]. fold (Py.sorted key l).
  rewrite insert_sorted_perm. constructor. exact IH.
Qed.

Lemma insert_sorted_sorted x l :
  StronglySorted (fun a b => (key a <= key b)%Z) l ->
  StronglySorted (fun a b => (key a <= key b)%Z) (Py.insert_sorted key x l).
Proof.
  induction 1 as [|y r Hs IH Hy]; cbn [Py.insert_sorted].
  - repeat constructor.
  - destruct (Z.leb_spec (key x) (key y)) as [Hle|Hgt].
    + constructor; [constructor; assumption|].
      constructor; [exact Hle|].
      rewrite Forall_forall in *. intros z Hz. specialize (Hy z Hz). lia.
    + constructor; [exact IH|].
      eapply Permutation_Forall;
        [apply Permutation_sym, insert_sorted_perm|].
      constructor; [lia|exact Hy].
Qed.

Lemma sorted_sorted l :
  StronglySorted (fun a b => (key a <= key b)%Z) (Py.sorted key l).
Proof.
  induction l as [|x l IH]; [constructor|].
  cbn [Py.sorted fold_right]. apply insert_sorted_sorted, IH.
Qed.

Lemma sorted_app_le (R : A -> A -> Prop) l1 : forall l2,
  StronglySorted R (l1 ++ l2) ->
  StronglySorted R l1 /\ forall x y, In x l1 -> In y l2 -> R x y.
Proof.
  induction l1 as [|a l1 IH]; intros l2 H.
  - split; [constructor|intros x y []].
  - cbn [app] in H. inversion H as [|? ? Hs Hf]; subst.
    destruct (IH l2 Hs) as [I1 I2].
    rewrite Forall_forall in Hf. split.
    + constructor; [exact I1|].
      rewrite Forall_forall. intros z Hz. apply Hf, in_or_app. now left.
    + intros x y [<-|Hx] Hy; [apply Hf, in_or_app; now right|auto].
Qed.

(** The first [n] elements of a list sorted by [key]. *)
Lemma firstn_sorted n l :
  NoDup l ->
  let top := List.firstn n (Py.sorted key l) in
  NoDup top
  /\ (List.length top <= n)%nat
  /\ (forall x, In x top -> In x l)
  /\ (forall x y, In x top -> In y l -> ~ In y top -> (key x <= key y)%Z)
  /\ ((List.length top < n)%nat -> forall y, In y l -> In y top)
  /\ StronglySorted (fun a b => (key a <= key b)%Z) top.
Proof.
  intros Hnd. cbn zeta.
  set (s := Py.sorted key l).
  assert (Hp : Permutation s l) by apply sorted_perm.
  assert (Hs : StronglySorted (fun a b => (key a <= key b)%Z) s)
    by apply sorted_sorted.
  assert (Hnds : NoDup s)
    by (apply (Permutation_NoDup (l := l)); [symmetry; exact Hp|exact Hnd]).
  rewrite <- (firstn_skipn n s) in Hs, Hnds.
  destruct (sorted_app_le _ _ _ Hs) as [S1 S2].
  split; [apply (NoDup_app_remove_r _ _ Hnds)|].
  split; [apply firstn_le_length|].
  split; [|split; [|split; [|exact S1]]].
  - intros x Hx. apply (Permutation_in _ Hp).
    rewrite <- (firstn_skipn n s). apply in_or_app. now left.
  - intros x y Hx Hy Hn. apply S2; [exact Hx|].
    apply (Permutation_in _ (Permutation_sym Hp)) in Hy.
    rewrite <- (firstn_skipn n s) in Hy. apply in_app_or in Hy.
    destruct Hy as [Hy|Hy]; [contradiction|exact Hy].
  - intros Hlen y Hy.
    rewrite length_firstn in Hlen.
    rewrite firstn_all2 by lia.
    apply (Permutation_in _ (Permutation_sym Hp)), Hy.
Qed.

End Sorting.

Lemma sorted_map {A B} (f : A -> B) (R : A -> A -> Prop)
    (R' : B -> B -> Prop) l :
  (forall a b, In a l -> In b l -> R a b -> R' (f a) (f b)) ->
  StronglySorted R l -> StronglySorted R' (List.map f l).
Proof.
  intros H Hs. induction Hs as [|a l Hs IH Ha]; [constructor|].
  cbn [List.map]. constructor.
  - apply IH. intros x y Hx Hy. apply H; now right.
  - rewrite Forall_forall in *. intros y Hy.
    apply in_map_iff in Hy. destruct Hy as (b & <- & Hb).
    apply H; [now left|now right|apply Ha, Hb].
Qed.

End SortedFacts.

(** Dictionaries with keys of any type with a decidable equality. *)
Module KeyedFacts.

Section Keyed.
Context {K V : Type} (keq : K -> K -> bool).
Hypothesis keq_spec : forall a b, keq a b = true <-> a = b.

Lemma keq_refl a : keq a a = true.
Proof. apply keq_spec. reflexivity. Qed.

Lemma keyed_set_keys k (v : V) d :
  NoDup (List.map fst d) -> NoDup (List.map fst (Py.dict_set keq k v d)).
Proof.
  induction d as [|[k' v'] d IH]; cbn; intros H.
  - constructor; [intros []|constructor].
  - inversion H as [|? ? Hn Hd]; subst. destruct (keq k k') eqn:E; cbn.
    + apply keq_spec in E. subst k'. constructor; assumption.
    + constructor; [|apply IH, Hd].
      intros Hin. apply Hn. clear - Hin E keq_spec.
      induction d as [|[k2 v2] d IH]; cbn in *.
      * destruct Hin as [->|[]]. rewrite keq_refl in E. discriminate.
      * destruct (keq k k2) eqn:E2; cbn in Hin.
        -- apply keq_spec in E2. subst k2. destruct Hin as [->|Hin];
             [rewrite keq_refl in E; discriminate|now right].
        -- destruct Hin as [->|Hin]; [now left|right; apply IH, Hin].
Qed.

Lemma keyed_get_set_same k (v : V) d :
  Py.dict_get keq k (Py.dict_set keq k v d) = Some v.
Proof.
  induction d as [|[k' v'] d IH]; cbn.
  - rewrite keq_refl. reflexivity.
  - destruct (keq k k') eqn:E; cbn.
    + rewrite keq_refl. reflexivity.
    + rewrite E. exact IH.
Qed.

Lemma keyed_get_set_other k k0 (v : V) d :
  keq k0 k = false ->
  Py.dict_get keq k0 (Py.dict_set keq k v d) = Py.dict_get keq k0 d.
Proof.
  intros Hne. induction d as [|[k' v'] d IH]; cbn.
  - rewrite Hne. reflexivity.
  - destruct (keq k k') eqn:E; cbn.
    + apply keq_spec in E. subst k'. rewrite Hne. reflexivity.
    + rewrite IH. reflexivity.
Qed.

Lemma keyed_get_In k (v : V) d : Py.dict_get keq k d = Some v -> In (k, v) d.
Proof.
  induction d as [|[k' v'] d IH]; cbn; [discriminate|].
  destruct (keq k k') eqn:E.
  - apply keq_spec in E. intros [= <-]. left. congruence.
  - auto.
Qed.

Lemma keyed_In_get k (v : V) d :
  NoDup (List.map fst d) -> In (k, v) d -> Py.dict_get keq k d = Some v.
Proof.
  induction d as [|[k' v'] d IH]; cbn; intros Hnd Hin; [destruct Hin|].
  inversion Hnd as [|? ? Hn Hd]; subst.
  destruct Hin as [[= -> ->]|Hin].
  - rewrite keq_refl. reflexivity.
  - destruct (keq k k') eqn:E; [|apply IH; assumption].
    apply keq_spec in E. subst k'. destruct Hn.
    apply (in_map fst _ _ Hin).
Qed.

End Keyed.

End KeyedFacts.

Module PEMoreFacts.
Import PE Spec PyFacts PEFacts ProfileFacts SortedFacts KeyedFacts.

Lemma awards_of_snoc name seen a :
  awards_of name (seen ++ [a])
  = awards_of name seen ++ if eqb (pe_name a) name then [a] else [].
Proof. unfold awards_of. rewrite filter_app. reflexivity. Qed.

Lemma months_of_snoc l a months :
  award_months (award_date a) = Some months ->
  months_of (l ++ [a]) = months_of l ++ months.
Proof.
  intros E. unfold months_of. rewrite flat_map_app. cbn [flat_map].
  rewrite E, app_nil_r. reflexivity.
Qed.

Lemma hd_error_snoc {A} (l : list A) a :
  List.hd_error (l ++ [a]) = match l with [] => Some a | x :: _ => Some x end.
Proof. destruct l; reflexivity. Qed.

Lemma pe_add_award_reads_more seen acc a acc' :
  pe_reads_more seen acc -> add_award acc a = Some acc' ->
  pe_reads_more (seen ++ [a]) acc'.
Proof.
  unfold pe_reads_more, add_award. intros Hr.
  destruct (award_months (award_date a)) as [months|] eqn:M; [|discriminate].
  intros [= <-] name. rewrite awards_of_snoc.
  destruct (eqb (pe_name a) name) eqn:E.
  - apply PyStrFacts.eqb_eq in E. subst name.
    rewrite dict_get_set_same.
    cbn [pa_sectors pa_winners pa_months pa_pe_code].
    specialize (Hr (pe_name a)). unfold Py.dict_get_default.
    destruct (Py.dict_get eqb (pe_name a) acc) as [d|].
    + destruct Hr as (H1 & H2 & H3 & H4).
      split; [apply histogram_count_up, H1|].
      split; [apply histogram_count_up, H2|].
      split; [rewrite H3; symmetry; apply months_of_snoc, M|].
      rewrite hd_error_snoc.
      destruct (awards_of (pe_name a) seen); [discriminate|exact H4].
    + rewrite Hr. cbn [new_profile pa_sectors pa_winners pa_months
                         pa_pe_code app].
      split; [apply (histogram_count_up sector [] []), histogram_nil|].
      split;
        [apply (histogram_count_up winning_company [] []), histogram_nil|].
      split; [symmetry; apply (months_of_snoc [] a months M)|reflexivity].
  - rewrite dict_get_set_other
      by (intros ->; rewrite PyStrFacts.eqb_refl in E; discriminate).
    rewrite app_nil_r. apply Hr.
Qed.

Lemma pe_fold_reads_more l : forall seen acc pe_data,
  pe_reads_more seen acc -> List.fold_left step l (Some acc) = Some pe_data ->
  pe_reads_more (seen ++ l) pe_data.
Proof.
  induction l as [|a l IH]; intros seen acc pe_data Hr; cbn [fold_left].
  - intros [= <-]. rewrite app_nil_r. exact Hr.
  - cbn [step]. destruct (add_award acc a) as [acc'|] eqn:E.
    + intros H. replace (seen ++ a :: l) with ((seen ++ [a]) ++ l)
        by (rewrite <- app_assoc; reflexivity).
      apply (IH _ acc'); [|exact H].
      apply (pe_add_award_reads_more seen acc a acc' Hr E).
    + rewrite fold_step_None. discriminate.
Qed.

Lemma pe_aggregate_reads_more awards pe_data :
  aggregate awards = Some pe_data -> pe_reads_more awards pe_data.
Proof.
  intros H. apply (pe_fold_reads_more awards [] []); [|exact H].
  intros name. reflexivity.
Qed.

(** The row of a buyer holds the values computed from its data. *)
Lemma pe_row_values db db' pe_data buyer :
  rebuild_pe_profiles db = Some (db', pe_data) ->
  awards_of buyer (award_records db) <> [] ->
  exists d row,
    Py.dict_get eqb buyer pe_data = Some d
    /\ reads (award_records db) pe_data
    /\ pe_reads_more (award_records db) pe_data
    /\ get_row buyer (pe_profiles db') = Some row
    /\ update row (values buyer d) = row.
Proof.
  unfold rebuild_pe_profiles.
  destruct (aggregate (award_records db)) as [data|] eqn:A; [|discriminate].
  intros [= <- <-] Hne. cbn [pe_profiles].
  pose proof (aggregate_reads _ _ A) as Hr.
  pose proof (pe_aggregate_reads_more _ _ A) as Hm.
  destruct Hr as [Hk Hr']. pose proof (Hr' buyer) as Hb.
  destruct (Py.dict_get eqb buyer data) as [d|] eqn:G; [|contradiction].
  destruct (select_after_writes pr_pe_name update (fun old new => eq_refl)
              values (fun k a => eq_refl)
              data (pe_profiles db) buyer d Hk (dict_get_In _ _ _ G))
    as (row & Hs & Hrow).
  exists d, row. split; [reflexivity|]. split; [split; assumption|].
  split; [exact Hm|]. split; [exact Hs|].
  destruct Hrow as [->|[old ->]]; reflexivity.
Qed.

Lemma count_of_pos {A} (f : A -> pystr) k l :
  (0 < count_of f k l)%Z <-> In k (List.map f l).
Proof.
  unfold count_of. rewrite in_map_iff. split.
  - intros H. destruct (filter (fun a => eqb (f a) k) l) as [|a r] eqn:E;
      [cbn in H; lia|].
    assert (I : In a (filter (fun a => eqb (f a) k) l))
      by (rewrite E; now left).
    apply filter_In in I. destruct I as [I1 I2].
    apply PyStrFacts.eqb_eq in I2. eauto.
  - intros (a & E & Ha).
    assert (I : In a (filter (fun a => eqb (f a) k) l)).
    { apply filter_In. split; [exact Ha|].
      rewrite E. apply PyStrFacts.eqb_refl. }
    destruct (filter (fun a => eqb (f a) k) l); [destruct I|].
    cbn [List.length]. lia.
Qed.

Lemma histogram_entry {A} (f : A -> pystr) l h k v :
  histogram_of f l h ->
  In (k, v) h <-> (v = count_of f k l /\ In k (List.map f l)).
Proof.
  intros [Hk Hg]. rewrite <- count_of_pos. split.
  - intros Hin. apply (dict_In_get _ _ _ Hk) in Hin.
    rewrite Hg in Hin.
    destruct (Z.ltb_spec 0 (count_of f k l)); [|discriminate].
    injection Hin as <-. auto.
  - intros [-> Hpos]. apply dict_get_In. rewrite Hg.
    apply Z.ltb_lt in Hpos. rewrite Hpos. reflexivity.
Qed.

Lemma NoDup_firstn {A} n (l : list A) : NoDup l -> NoDup (List.firstn n l).
Proof.
  intros H. rewrite <- (firstn_skipn n l) in H.
  apply (NoDup_app_remove_r _ _ H).
Qed.

(** The first [n] keys of a histogram sorted by falling count. *)
Lemma top_of_histogram {A} (f : A -> pystr) l h n :
  histogram_of f l h ->
  ranked (fun k => count_of f k l) n
    (List.map fst
       (List.firstn n (Py.sorted (fun x : pystr * Z => - snd x)%Z h)))
    (List.map f l).
Proof.
  intros Hh. pose proof Hh as [Hk Hg].
  assert (Hnd : NoDup h) by (apply (NoDup_map_inv fst), Hk).
  destruct (firstn_sorted (fun x : pystr * Z => - snd x)%Z n h Hnd)
    as (T1 & T2 & T3 & T4 & T5 & T6).
  set (top := firstn n (Py.sorted (fun x : pystr * Z => (- snd x)%Z) h)) in *.
  assert (Hv : forall p, In p top ->
                 snd p = count_of f (fst p) l /\ In (fst p) (List.map f l)).
  { intros [k v] Hp. apply (histogram_entry f l h k v Hh), T3, Hp. }
  assert (Hin : forall k, In k (List.map f l) -> In (k, count_of f k l) h).
  { intros k Hk'. apply (histogram_entry f l h k _ Hh). auto. }
  split; [|split; [|split; [|split; [|split]]]].
  - unfold top. rewrite <- firstn_map. apply NoDup_firstn.
    apply (Permutation_NoDup (l := List.map fst h)); [|exact Hk].
    apply Permutation_map, Permutation_sym, sorted_perm.
  - rewrite length_map. exact T2.
  - intros k Hk'. apply in_map_iff in Hk'. destruct Hk' as (p & <- & Hp).
    apply (Hv p Hp).
  - intros x y Hx Hy Hn. apply in_map_iff in Hx.
    destruct Hx as (p & <- & Hp). destruct (Hv p Hp) as [E _].
    rewrite <- E.
    assert (K : (- snd p <= - snd (y, count_of f y l))%Z).
    { apply T4; [exact Hp|apply Hin, Hy|].
      intros C. apply Hn. apply (in_map fst) in C. exact C. }
    cbn [snd] in K. lia.
  - rewrite length_map. intros Hlen y Hy.
    apply (in_map fst _ (y, count_of f y l)), T5; [exact Hlen|apply Hin, Hy].
  - apply (sorted_map fst (fun a b => (- snd a <= - snd b)%Z)); [|exact T6].
    intros a b Ha Hb Hab.
    destruct (Hv a Ha) as [<- _]. destruct (Hv b Hb) as [<- _]. lia.
Qed.

(** *** The months *)

Lemma occurrences_snoc m l x :
  occurrences m (l ++ [x])
  = (occurrences m l + if (m =? x)%Z then 1 else 0)%Z.
Proof.
  unfold occurrences. rewrite filter_app, length_app. cbn [filter].
  destruct (m =? x)%Z; cbn [List.length]; lia.
Qed.

Lemma occurrences_pos m l : (0 < occurrences m l)%Z <-> In m l.
Proof.
  unfold occurrences. split.
  - intros H. destruct (filter (Z.eqb m) l) as [|a r] eqn:E;
      [cbn in H; lia|].
    assert (I : In a (filter (Z.eqb m) l)) by (rewrite E; now left).
    apply filter_In in I. destruct I as [I1 I2].
    apply Z.eqb_eq in I2. congruence.
  - intros Hin.
    assert (I : In m (filter (Z.eqb m) l)).
    { apply filter_In. split; [exact Hin|apply Z.eqb_refl]. }
    destruct (filter (Z.eqb m) l); [destruct I|].
    cbn [List.length]. lia.
Qed.

(** The dictionary [month_counts]. *)
Lemma month_counts_spec months : forall seen mc,
  (NoDup (List.map fst mc)
   /\ forall m, Py.dict_get Z.eqb m mc
                = if (0 <? occurrences m seen)%Z
                  then Some (occurrences m seen) else None) ->
  let mc' := List.fold_left (fun mc m => Py.count_up Z.eqb m mc) months mc in
  NoDup (List.map fst mc')
  /\ forall m, Py.dict_get Z.eqb m mc'
               = if (0 <? occurrences m (seen ++ months))%Z
                 then Some (occurrences m (seen ++ months)) else None.
Proof.
  induction months as [|x months IH]; intros seen mc [Hk Hg]; cbn zeta.
  - cbn [fold_left]. rewrite app_nil_r. auto.
  - cbn [fold_left].
    replace (seen ++ x :: months) with ((seen ++ [x]) ++ months)
      by (rewrite <- app_assoc; reflexivity).
    apply IH. unfold Py.count_up. split.
    + apply (keyed_set_keys Z.eqb Z.eqb_eq), Hk.
    + intros m. rewrite occurrences_snoc.
      assert (Hn : (0 <= occurrences m seen)%Z) by (unfold occurrences; lia).
      destruct (m =? x)%Z eqn:E.
      * apply Z.eqb_eq in E. subst m.
        rewrite (keyed_get_set_same Z.eqb Z.eqb_eq).
        unfold Py.dict_get_default. rewrite Hg.
        destruct (Z.ltb_spec 0 (occurrences x seen));
          destruct (Z.ltb_spec 0 (occurrences x seen + 1)); try lia;
          f_equal; lia.
      * rewrite (keyed_get_set_other Z.eqb Z.eqb_eq) by exact E.
        rewrite Hg, Z.add_0_r. reflexivity.
Qed.

Lemma peak_months_ranked d :
  ranked (fun m => occurrences m (pa_months d)) 3 (peak_months d) (pa_months d).
Proof.
  unfold peak_months.
  set (mc := fold_left (fun mc m => Py.count_up Z.eqb m mc) (pa_months d) []).
  destruct (month_counts_spec (pa_months d) [] [])
    as [Hk Hg]; [split; [constructor|reflexivity]|].
  cbn [app] in Hg. fold mc in Hk, Hg.
  assert (Hc : forall m, Py.dict_get_default Z.eqb m 0%Z mc
                         = occurrences m (pa_months d)).
  { intros m. unfold Py.dict_get_default. rewrite Hg.
    destruct (Z.ltb_spec 0 (occurrences m (pa_months d))); [reflexivity|].
    unfold occurrences in *. lia. }
  assert (Hkey : forall m, In m (List.map fst mc) <-> In m (pa_months d)).
  { intros m. split.
    - intros Hin. apply occurrences_pos.
      apply in_map_iff in Hin. destruct Hin as ([k v] & <- & Hin).
      apply (keyed_In_get Z.eqb Z.eqb_eq _ _ _ Hk) in Hin.
      rewrite Hg in Hin. cbn [fst].
      destruct (Z.ltb_spec 0 (occurrences k (pa_months d)));
        [assumption|discriminate].
    - intros Hpos. apply occurrences_pos, Z.ltb_lt in Hpos.
      specialize (Hg m). rewrite Hpos in Hg.
      apply (keyed_get_In Z.eqb Z.eqb_eq) in Hg.
      apply (in_map fst _ _ Hg). }
  destruct (firstn_sorted
              (fun m => (- Py.dict_get_default Z.eqb m 0 mc)%Z) 3
              (List.map fst mc) Hk)
    as (T1 & T2 & T3 & T4 & T5 & T6).
  split; [exact T1|]. split; [exact T2|].
  split; [intros x Hx; apply Hkey, T3, Hx|].
  split; [|split].
  - intros x y Hx Hy Hn.
    specialize (T4 x y Hx (proj2 (Hkey y) Hy) Hn).
    rewrite !Hc in T4. lia.
  - intros Hlen y Hy. apply T5; [exact Hlen|apply Hkey, Hy].
  - rewrite <- (map_id (firstn 3 _)).
    apply (sorted_map (fun m => m)
             (fun a b => (- Py.dict_get_default Z.eqb a 0 mc
                          <= - Py.dict_get_default Z.eqb b 0 mc)%Z));
      [|exact T6].
    intros a b _ _ Hab. rewrite !Hc in Hab. lia.
Qed.

Lemma confidence_unit d : (0 <= pa_awards d)%Z -> 0 <= confidence d <= 1.
Proof.
  intros H. unfold confidence.
  assert (Hn : 0 <= inject_Z (pa_awards d)).
  { change 0 with (inject_Z 0). rewrite <- Zle_Qle. exact H. }
  assert (Hd : 0 <= inject_Z (pa_awards d) / 20)
    by (apply Qle_shift_div_l; lra).
  set (q := inject_Z (pa_awards d) / 20) in *. clearbody q.
  destruct (min2_spec 1 q) as (H1 & H2 & [E|E]); rewrite E in *; lra.
Qed.

End PEMoreFacts.

Module PEProps.
Import PE Spec PyFacts PEFacts PEMoreFacts TPSFacts Samples.

(** X17 ([rebuild_pe_profiles]).  When the rebuild completes, the row
    of every buyer with an award holds in [preferred_sectors] exactly
    the sectors of the buyer's awards with their numbers of awards,
    and in [top_winners] the at most five stored winners with the most
    awards from this buyer, the greatest number first. *)
Theorem pe_row_ranks_winners (db db' : Db) (pe_data : list (pystr * PEAgg))
  (buyer : pystr)
  (Hrun : rebuild_pe_profiles db = Some (db', pe_data))
  (Hawards : awards_of buyer (award_records db) <> []) :
  exists row,
    get_row buyer (pe_profiles db') = Some row
    /\ histogram_of sector (awards_of buyer (award_records db))
         (pr_preferred_sectors row)
    /\ ranked
         (fun w =>
            count_of winning_company w (awards_of buyer (award_records db)))
         5 (pr_top_winners row)
         (List.map winning_company (awards_of buyer (award_records db))).
Proof.
  destruct (pe_row_values db db' pe_data buyer Hrun Hawards)
    as (d & row & G & _ & Hm & Hs & Hu).
  exists row. split; [exact Hs|].
  specialize (Hm buyer). rewrite G in Hm. destruct Hm as (M1 & M2 & _).
  split.
  - apply (f_equal pr_preferred_sectors) in Hu. cbn in Hu. rewrite <- Hu.
    exact M1.
  - apply (f_equal pr_top_winners) in Hu.
    cbn [update pr_top_winners values] in Hu. rewrite <- Hu.
    apply top_of_histogram, M2.
Qed.

Lemma pe_row_ranks_winners_witness :
  exists db' pe_data row,
    rebuild_pe_profiles db_two_awards = Some (db', pe_data)
    /\ get_row (str "Ministry of X") (pe_profiles db') = Some row
    /\ (List.length (pr_top_winners row) <= 5)%nat.
Proof.
  destruct (rebuild_pe_profiles db_two_awards) as [[db' pe_data]|] eqn:E;
    [|vm_compute in E; discriminate].
  assert (H : awards_of (str "Ministry of X") (award_records db_two_awards)
              <> []) by (vm_compute; discriminate).
  destruct (pe_row_ranks_winners db_two_awards db' pe_data
              (str "Ministry of X") E H) as (row & Hs & _ & _ & Hl & _).
  exists db', pe_data, row. split; [reflexivity|]. split; [exact Hs|exact Hl].
Defined.

(** X18 ([rebuild_pe_profiles]).  When the rebuild completes, the row
    of every buyer with an award holds in [budget_cycle_months] the at
    most three months in which most of the buyer's awards are dated
    (the month is read from the characters 5 and 6 of every date of
    seven characters or more), the month with the most awards
    first. *)
Theorem pe_row_ranks_months (db db' : Db) (pe_data : list (pystr * PEAgg))
  (buyer : pystr)
  (Hrun : rebuild_pe_profiles db = Some (db', pe_data))
  (Hawards : awards_of buyer (award_records db) <> []) :
  exists row,
    get_row buyer (pe_profiles db') = Some row
    /\ ranked
         (fun m =>
            occurrences m (months_of (awards_of buyer (award_records db))))
         3 (pr_budget_cycle_months row)
         (months_of (awards_of buyer (award_records db))).
Proof.
  destruct (pe_row_values db db' pe_data buyer Hrun Hawards)
    as (d & row & G & _ & Hm & Hs & Hu).
  exists row. split; [exact Hs|].
  specialize (Hm buyer). rewrite G in Hm. destruct Hm as (_ & _ & M3 & _).
  apply (f_equal pr_budget_cycle_months) in Hu.
  cbn [update pr_budget_cycle_months values] in Hu. rewrite <- Hu, <- M3.
  apply peak_months_ranked.
Qed.

Lemma pe_row_ranks_months_witness :
  exists db' pe_data row,
    rebuild_pe_profiles db_two_awards = Some (db', pe_data)
    /\ get_row (str "Ministry of X") (pe_profiles db') = Some row
    /\ (List.length (pr_budget_cycle_months row) <= 3)%nat.
Proof.
  destruct (rebuild_pe_profiles db_two_awards) as [[db' pe_data]|] eqn:E;
    [|vm_compute in E; discriminate].
  assert (H : awards_of (str "Ministry of X") (award_records db_two_awards)
              <> []) by (vm_compute; discriminate).
  destruct (pe_row_ranks_months db_two_awards db' pe_data
              (str "Ministry of X") E H) as (row & Hs & _ & Hl & _).
  exists db', pe_data, row. split; [reflexivity|]. split; [exact Hs|exact Hl].
Defined.

(** X19 ([rebuild_pe_profiles], then [calculate_tps]).  After a
    completed PE rebuild on a store of at least 50 award records, the
    score of every tender whose buyer has an award (or has no row in
    [pe_profiles]) is an integer in [0,100], when the caller's
    compliance score lies in [0,1]: the [confidence_score] the rebuild
    writes lies in [0,1] and is 1.0 from twenty awards on. *)
Theorem tps_in_range_after_pe_rebuild (db db' : Db)
  (pe_data : list (pystr * PEAgg))
  (tender : Tender) (company : CompanyProfile) (month : Z)
  (Hrun : rebuild_pe_profiles db = Some (db', pe_data))
  (Hgate : (50 <= List.length (award_records db))%nat)
  (Hcompliance :
     forall s, cp_compliance_score company = Some s -> 0 <= s <= 1)
  (Hbuyer :
     let buyer :=
       match t_procuring_entity tender with Some p => p | None => [] end in
     awards_of buyer (award_records db) <> []
     \/ get_row buyer (pe_profiles db) = None) :
  let buyer :=
    match t_procuring_entity tender with Some p => p | None => [] end in
  (forall row,
     get_row buyer (pe_profiles db') = Some row ->
     0 <= pr_confidence_score row <= 1
     /\ ((20 <= List.length (awards_of buyer (award_records db)))%nat ->
         pr_confidence_score row == 1))
  /\ exists r tps,
       TPS.calculate_tps tender company month db' = Some r
       /\ tps_of r = Some tps /\ (0 <= tps <= 100)%Z.
Proof.
  cbn zeta in *.
  set (buyer := match t_procuring_entity tender with
                | Some p => p
                | None => []
                end) in *.
  assert (Hrec : award_records db' = award_records db).
  { unfold rebuild_pe_profiles in Hrun.
    destruct (aggregate (award_records db)); [|discriminate].
    injection Hrun as <- _. reflexivity. }
  assert (Hrow : forall row,
             get_row buyer (pe_profiles db') = Some row ->
             0 <= pr_confidence_score row <= 1
             /\ ((20 <= List.length (awards_of buyer (award_records db)))%nat ->
                 pr_confidence_score row == 1)).
  { intros row Hs.
    assert (Hcases : awards_of buyer (award_records db) = []
                     \/ awards_of buyer (award_records db) <> [])
      by (destruct (awards_of buyer (award_records db));
          [now left|right; discriminate]).
    destruct Hcases as [Hnil|Hne].
    - destruct Hbuyer as [Hb|Hb]; [contradiction|]. exfalso.
      unfold rebuild_pe_profiles in Hrun.
      destruct (aggregate (award_records db)) as [data|] eqn:A;
        [|discriminate].
      injection Hrun as <- <-. cbn [pe_profiles] in Hs.
      unfold get_row, write_profiles in Hs.
      rewrite (select_writes_other pr_pe_name update (fun old new => eq_refl)
                 values (fun k a => eq_refl)) in Hs.
      + unfold get_row in Hb. congruence.
      + intros Hin. apply in_map_iff in Hin.
        destruct Hin as ([k d] & Ek & Hin). cbn [fst] in Ek. subst k.
        destruct (aggregate_reads _ _ A) as [Hk _].
        pose proof (pe_aggregate_reads_more _ _ A buyer) as Hm.
        rewrite (dict_In_get _ _ _ Hk Hin), Hnil in Hm.
        destruct Hm as (_ & _ & _ & M4). discriminate M4.
    - destruct (pe_row_values db db' pe_data buyer Hrun Hne)
        as (d & row' & G & [_ Hr] & _ & Hs' & Hu).
      assert (row' = row) by congruence. subst row'.
      specialize (Hr buyer). rewrite G in Hr. destruct Hr as (_ & R2 & _).
      apply (f_equal pr_confidence_score) in Hu.
      cbn [update pr_confidence_score values] in Hu. rewrite <- Hu.
      split.
      + apply round_nd_unit, confidence_unit. rewrite R2. lia.
      + intros H20. apply round_nd_one. unfold confidence. rewrite R2.
        set (n := List.length (awards_of buyer (award_records db))) in *.
        assert (Hq : 1 <= inject_Z (Z.of_nat n) / 20).
        { apply Qle_shift_div_l; [lra|].
          change (1 * 20) with (inject_Z 20). rewrite <- Zle_Qle. lia. }
        set (q := inject_Z (Z.of_nat n) / 20) in *. clearbody q.
        destruct (min2_spec 1 q) as (H1 & H2 & [E|E]); rewrite E in *; lra. }
  split; [exact Hrow|].
  unfold TPS.calculate_tps. rewrite Hrec, (gate_open db Hgate). fold buyer.
  set (sec := match t_sector tender with Some s => s | None => str "Other" end).
  assert (Hps : exists price,
             TPS.price_score sec db' company = Some price /\ 0 <= price <= 1)
    by apply price_score_unit.
  destruct Hps as (price & -> & Hprice).
  eexists _, _. split; [reflexivity|]. split; [reflexivity|].
  set (scores := TPS.scores_of sec (get_row buyer (pe_profiles db')) price
                   company month db').
  assert (Hs : forall f, 0 <= scores f <= 1).
  { intros f. unfold scores. destruct f; cbn [TPS.scores_of].
    - apply capability_unit.
    - apply historical_unit.
    - apply favorability_unit. intros row Hr. apply (Hrow row Hr).
    - exact Hprice.
    - apply density_unit.
    - unfold TPS.compliance. destruct (cp_compliance_score company) as [s|];
        [apply Hcompliance; reflexivity|lra].
    - apply seasonal_unit. }
  pose proof (tps_raw_unit scores Hs) as [H0 H1].
  apply round_bounds.
  - change (inject_Z 0) with 0. apply Qmult_le_0_compat; lra.
  - change (inject_Z 100) with (1 * 100). apply Qmult_le_compat_r; lra.
Qed.

Lemma tps_in_range_after_pe_rebuild_witness :
  exists db' pe_data r tps,
    rebuild_pe_profiles (db_numbered (Some 0.9) 50) = Some (db', pe_data)
    /\ TPS.calculate_tps tender_ict (company None) 4 db' = Some r
    /\ tps_of r = Some tps /\ (0 <= tps <= 100)%Z.
Proof.
  assert (Hd : Forall well_dated (award_records (db_numbered (Some 0.9) 50))).
  { unfold db_numbered, db_of. cbn [award_records].
    apply Forall_forall. intros a Ha. apply in_map_iff in Ha.
    destruct Ha as (i & <- & _). right. exists 48%N, 52%N. repeat split. }
  assert (Hg : (50 <= List.length
                        (award_records (db_numbered (Some 0.9%Q) 50)))%nat).
  { unfold db_numbered, db_of. cbn [award_records].
    rewrite length_map, length_seq. lia. }
  assert (Hb : awards_of (str "Ministry of X")
                 (award_records (db_numbered (Some 0.9) 50)) <> [])
    by (vm_compute; discriminate).
  destruct (rebuild_returns _ Hd) as (db' & pe_data & E).
  destruct (tps_in_range_after_pe_rebuild _ db' pe_data
              tender_ict (company None) 4 E Hg) as (_ & r & tps & H).
  - intros s Hs. discriminate Hs.
  - left. exact Hb.
  - exists db', pe_data, r, tps. split; [exact E|exact H].
Defined.

End PEProps.

(** ** The score as a function of its inputs, and the pricing benchmark *)

Module RoundFacts.
Import PyFacts.

Lemma round_floor x : (Qfloor x <= Py.round x <= Qfloor x + 1)%Z.
Proof.
  unfold Py.round.
  destruct (Qcompare (x - inject_Z (Qfloor x)) (1 # 2));
    [destruct (Z.even (Qfloor x))| |]; lia.
Qed.

(** [round] is monotone. *)
Lemma round_mono x y : x <= y -> (Py.round x <= Py.round y)%Z.
Proof.
  intros H. pose proof (Qfloor_resp_le _ _ H) as Hf.
  pose proof (round_floor x) as Rx. pose proof (round_floor y) as Ry.
  destruct (Z.eq_dec (Qfloor x) (Qfloor y)) as [E|N]; [|lia].
  clear Rx Ry. unfold Py.round. rewrite <- E.
  destruct (Qcompare (x - inject_Z (Qfloor x)) (1 # 2)) eqn:Cx;
    destruct (Qcompare (y - inject_Z (Qfloor x)) (1 # 2)) eqn:Cy;
    repeat match goal with
           | C : Qcompare _ _ = Eq |- _ => apply Qeq_alt in C
           | C : Qcompare _ _ = Lt |- _ => apply Qlt_alt in C
           | C : Qcompare _ _ = Gt |- _ => apply Qgt_alt in C
           end;
    try (destruct (Z.even (Qfloor x))); try lia; exfalso; lra.
Qed.

Lemma tps_raw_mono (s1 s2 : Factor -> Q) :
  (forall f, s1 f <= s2 f) -> TPS.tps_raw s1 <= TPS.tps_raw s2.
Proof.
  intros H. unfold TPS.tps_raw, TPS.TPS_WEIGHTS. cbn [fold_left fst snd].
  pose proof (H capability_match). pose proof (H historical_win_rate).
  pose proof (H pe_favorability). pose proof (H price_competitiveness).
  pose proof (H competitor_density). pose proof (H compliance_readiness).
  pose proof (H seasonal_timing). lra.
Qed.

End RoundFacts.

Module BenchmarkFacts.
Import Benchmark PyFacts.

Lemma insert_q_perm x l : Permutation (insert_q x l) (x :: l).
Proof.
  induction l as [|y r IH]; cbn [insert_q]; [reflexivity|].
  destruct (Py.ltb y x); [|reflexivity].
  rewrite IH. apply perm_swap.
Qed.

Lemma sorted_q_perm l : Permutation (sorted_q l) l.
Proof.
  induction l as [|x l IH]; [reflexivity|].
  cbn [sorted_q fold_right]. fold (sorted_q l).
  rewrite insert_q_perm. constructor. exact IH.
Qed.

Lemma insert_q_sorted x l :
  StronglySorted Qle l -> StronglySorted Qle (insert_q x l).
Proof.
  induction 1 as [|y r Hs IH Hy]; cbn [insert_q].
  - repeat constructor.
  - destruct (Py.ltb y x) eqn:E.
    + apply ltb_lt in E. constructor; [exact IH|].
      eapply Permutation_Forall;
        [apply Permutation_sym, insert_q_perm|].
      constructor; [apply Qlt_le_weak, E|exact Hy].
    + apply ltb_ge in E. constructor; [constructor; assumption|].
      constructor; [exact E|].
      rewrite Forall_forall in *. intros z Hz.
      apply (Qle_trans _ y); [exact E|apply Hy, Hz].
Qed.

Lemma sorted_q_sorted l : StronglySorted Qle (sorted_q l).
Proof.
  induction l as [|x l IH]; [constructor|].
  cbn [sorted_q fold_right]. apply insert_q_sorted, IH.
Qed.

Lemma sorted_q_length l : List.length (sorted_q l) = List.length l.
Proof. apply Permutation_length, sorted_q_perm. Qed.

(** In a sorted list a later element is not smaller. *)
Lemma sorted_nth l : forall i j a b,
  StronglySorted Qle l -> (i <= j)%nat ->
  List.nth_error l i = Some a -> List.nth_error l j = Some b -> a <= b.
Proof.
  induction l as [|x l IH]; intros i j a b Hs Hij Ha Hb;
    [destruct i; discriminate|].
  inversion Hs as [|? ? Hs' Hx]; subst.
  destruct i as [|i], j as [|j]; cbn [nth_error] in Ha, Hb.
  - injection Ha as <-. injection Hb as <-. apply Qle_refl.
  - injection Ha as <-. rewrite Forall_forall in Hx.
    apply Hx. apply (nth_error_In _ _ Hb).
  - lia.
  - apply (IH i j); [exact Hs'|lia|exact Ha|exact Hb].
Qed.

Lemma nth_error_some {A} (l : list A) i :
  (i < List.length l)%nat -> exists a, List.nth_error l i = Some a.
Proof.
  intros H. destruct (nth_error l i) eqn:E; [eauto|].
  apply nth_error_None in E. lia.
Qed.

Lemma round_nd_band x : 0.5 <= x <= 1.1 -> 0.5 <= Py.round_nd x 4 <= 1.1.
Proof.
  intros [H0 H1]. unfold Py.round_nd.
  change (inject_Z (10 ^ Z.of_nat 4)) with 10000.
  destruct (round_bounds 5000 11000 (x * 10000)) as [R0 R1].
  - change (inject_Z 5000) with 5000. lra.
  - change (inject_Z 11000) with 11000. lra.
  - rewrite Zle_Qle in R0, R1.
    change (inject_Z 5000) with 5000 in R0.
    change (inject_Z 11000) with 11000 in R1.
    set (r := inject_Z (Py.round (x * 10000))) in *. clearbody r.
    split.
    + apply Qle_shift_div_l; [reflexivity|]. lra.
    + apply Qle_shift_div_r; [reflexivity|]. lra.
Qed.

Lemma in_band_spec q : in_band q = true <-> 0.5 <= q <= 1.1.
Proof.
  unfold in_band. rewrite andb_true_iff, !Qle_bool_iff. tauto.
Qed.

End BenchmarkFacts.

Module ScoreProps.
Import TPS PyFacts TPSFacts RoundFacts Samples.

(** X20 ([calculate_tps]).  With the store, the tender and the month
    fixed, a company profile with a greater compliance score never
    gets a smaller score: both calls are refused by the gate, or both
    return a score and the scores are ordered as the compliance
    scores. *)
Theorem tps_monotone_in_compliance (tender : Tender) (company : CompanyProfile)
  (month : Z) (db : Db) (low high : Q)
  (Hle : low <= high) :
  let with_compliance s :=
    {| cp_sectors := cp_sectors company;
       cp_name := cp_name company;
       cp_typical_price_ratio := cp_typical_price_ratio company;
       cp_compliance_score := Some s |} in
  match calculate_tps tender (with_compliance low) month db,
        calculate_tps tender (with_compliance high) month db with
  | Some (TpsScored tps_low _ _ _ _), Some (TpsScored tps_high _ _ _ _) =>
      (tps_low <= tps_high)%Z
  | Some (TpsGated _ _), Some (TpsGated _ _) => True
  | _, _ => False
  end.
Proof.
  cbn zeta. unfold calculate_tps.
  destruct (List.length (award_records db) <? MIN_DATA_FOR_TPS)%nat;
    [exact I|].
  set (sec := match t_sector tender with Some s => s | None => str "Other" end).
  set (c1 := {| cp_sectors := cp_sectors company;
                cp_name := cp_name company;
                cp_typical_price_ratio := cp_typical_price_ratio company;
                cp_compliance_score := Some low |}).
  set (c2 := {| cp_sectors := cp_sectors company;
                cp_name := cp_name company;
                cp_typical_price_ratio := cp_typical_price_ratio company;
                cp_compliance_score := Some high |}).
  change (price_score sec db c2) with (price_score sec db c1).
  destruct (price_score_unit sec db c1) as (price & -> & _).
  apply round_mono. apply Qmult_le_compat_r; [|discriminate].
  apply tps_raw_mono. intros f.
  destruct f; cbn [scores_of]; try apply Qle_refl. exact Hle.
Qed.

Lemma tps_monotone_in_compliance_witness :
  0.5 <= 0.9
  /\ let with_compliance s :=
       {| cp_sectors := cp_sectors (company None);
          cp_name := cp_name (company None);
          cp_typical_price_ratio := cp_typical_price_ratio (company None);
          cp_compliance_score := Some s |} in
     match calculate_tps tender_ict (with_compliance 0.5) 4
             (db_numbered (Some 0.9) 50),
           calculate_tps tender_ict (with_compliance 0.9) 4
             (db_numbered (Some 0.9) 50) with
     | Some (TpsScored tps_low _ _ _ _), Some (TpsScored tps_high _ _ _ _) =>
         (tps_low <= tps_high)%Z
     | Some (TpsGated _ _), Some (TpsGated _ _) => True
     | _, _ => False
     end.
Proof.
  assert (H : 0.5 <= 0.9) by discriminate.
  split; [exact H|].
  exact (tps_monotone_in_compliance tender_ict (company None) 4
           (db_numbered (Some 0.9) 50) 0.5 0.9 H).
Defined.

End ScoreProps.

Module BenchmarkProps.
Import Benchmark PyFacts BenchmarkFacts Samples.

(** The ratios the query returns. *)
Lemma benchmark_ratios_spec
    (order : list AwardRecord -> list AwardRecord) sec db :
  (forall l a, In a (order l) -> In a l) ->
  (List.length (benchmark_ratios order sec db) <= 100)%nat
  /\ Forall (fun q => 0.5 <= q <= 1.1) (benchmark_ratios order sec db).
Proof.
  intros Horder. unfold benchmark_ratios.
  set (rows := order (filter _ (award_records db))).
  assert (Hrows : forall a, In a (firstn 100 rows) ->
                   exists q, price_ratio a = Some q /\ 0.5 <= q <= 1.1).
  { intros a Ha.
    assert (Hin : In a rows).
    { rewrite <- (firstn_skipn 100 rows). apply in_or_app. now left. }
    apply Horder, filter_In in Hin. destruct Hin as [_ Hb].
    apply andb_true_iff in Hb. destruct Hb as [_ Hb].
    destruct (price_ratio a) as [q|]; [|discriminate].
    exists q. split; [reflexivity|apply in_band_spec, Hb]. }
  assert (Hlen : (List.length (firstn 100 rows) <= 100)%nat)
    by apply firstn_le_length.
  set (ratio := fun a : AwardRecord =>
                  match price_ratio a with Some q => [q] | None => [] end).
  assert (H : (List.length (flat_map ratio (firstn 100 rows))
               <= List.length (firstn 100 rows))%nat
              /\ Forall (fun q => 0.5 <= q <= 1.1)
                   (flat_map ratio (firstn 100 rows))).
  { revert Hrows. generalize (firstn 100 rows) as l.
    induction l as [|a l IH]; intros Hrows; cbn [flat_map].
    - split; [cbn; lia|constructor].
    - unfold ratio at 1 3.
      destruct (Hrows a (or_introl eq_refl)) as (q & -> & Hq).
      destruct IH as [I1 I2]; [intros b Hb; apply Hrows; now right|].
      cbn [app List.length]. split; [lia|constructor; assumption]. }
  destruct H as [H1 H2]. split; [lia|exact H2].
Qed.

(** X21 ([get_pricing_benchmark]).  Whatever order SQLite gives to
    rows of equal date, the query helper returns (no index is out of
    range), for at most 100 data points; it gives statistics exactly
    when there is a data point, and then the least ratio, the lower
    quartile, the median, the upper quartile and the greatest ratio
    are in this order, all of them and the rounded mean between 0.5
    and 1.1. *)
Theorem benchmark_statistics_are_ordered
  (order : list AwardRecord -> list AwardRecord) (sec : pystr) (db : Db)
  (Horder : forall l a, In a (order l) -> In a l) :
  exists result,
    get_pricing_benchmark order sec db = Some result
    /\ bm_sector result = sec
    /\ (bm_data_points result <= 100)%nat
    /\ (bm_stats result = None <-> bm_data_points result = O)
    /\ forall st,
         bm_stats result = Some st ->
         0.5 <= st_min st
         /\ st_min st <= st_p25 st
         /\ st_p25 st <= st_median st
         /\ st_median st <= st_p75 st
         /\ st_p75 st <= st_max st
         /\ st_max st <= 1.1
         /\ 0.5 <= st_avg_ratio st <= 1.1.
Proof.
  destruct (benchmark_ratios_spec order sec db Horder) as [Hlen Hband].
  unfold get_pricing_benchmark.
  destruct (benchmark_ratios order sec db) as [|x rest] eqn:E.
  - eexists. split; [reflexivity|]. cbn.
    split; [reflexivity|]. split; [lia|]. split; [tauto|].
    intros st H. discriminate H.
  - set (s := sorted_q (x :: rest)).
    assert (Hn : List.length s = S (List.length rest))
      by (unfold s; rewrite sorted_q_length; reflexivity).
    assert (Hs : StronglySorted Qle s) by apply sorted_q_sorted.
    assert (Hin : forall q, In q s -> In q (x :: rest))
      by (intros q; apply Permutation_in, sorted_q_perm).
    destruct (nth_error_some s (List.length s / 2)) as [median Em];
      [rewrite Hn; apply Nat.Div0.div_lt_upper_bound; lia|].
    destruct (nth_error_some s (List.length s / 4)) as [p25 E25];
      [rewrite Hn; apply Nat.Div0.div_lt_upper_bound; lia|].
    destruct (nth_error_some s (List.length s * 3 / 4)) as [p75 E75];
      [rewrite Hn; apply Nat.Div0.div_lt_upper_bound; lia|].
    rewrite Em, E25, E75.
    eexists. split; [reflexivity|].
    cbn [bm_sector bm_data_points bm_stats].
    split; [reflexivity|]. split; [exact Hlen|].
    split; [split; discriminate|].
    intros st [= <-].
    cbn [st_min st_p25 st_median st_p75 st_max st_avg_ratio].
    destruct (min_list_spec rest x) as [Hmin1 Hmin2].
    destruct (max_list_spec rest x) as [Hmax1 Hmax2].
    rewrite Forall_forall in Hband.
    assert (H12 : (List.length s / 4 <= List.length s / 2)%nat).
    { apply Nat.div_le_compat_l. lia. }
    assert (H23 : (List.length s / 2 <= List.length s * 3 / 4)%nat).
    { replace (List.length s / 2)%nat with (List.length s * 2 / 4)%nat.
      - apply Nat.Div0.div_le_mono. lia.
      - replace 4%nat with (2 * 2)%nat by reflexivity.
        apply Nat.Div0.div_mul_cancel_r. lia. }
    split; [apply (Hband _ Hmin1)|].
    split; [apply Hmin2, Hin, (nth_error_In _ _ E25)|].
    split; [apply (sorted_nth s _ _ _ _ Hs H12 E25 Em)|].
    split; [apply (sorted_nth s _ _ _ _ Hs H23 Em E75)|].
    split; [apply Hmax2, Hin, (nth_error_In _ _ E75)|].
    split; [apply (Hband _ Hmax1)|].
    apply round_nd_band, mean_between.
    apply Forall_forall, Hband.
Qed.

Lemma benchmark_statistics_are_ordered_witness :
  exists result,
    get_pricing_benchmark (fun l => l) (str "ICT") db_two_awards = Some result
    /\ (bm_data_points result <= 100)%nat.
Proof.
  destruct (benchmark_statistics_are_ordered
              (fun l => l) (str "ICT") db_two_awards (fun l a H => H))
    as (result & E & _ & H & _).
  exists result. split; [exact E|exact H].
Defined.

End BenchmarkProps.

